(** * Site Plan Tool: signed access tokens, placement upload, annotation session

    A shallow embedding of the parts of the repository that carry design
    decisions:

    - [server.js]: [generateSignedToken], [verifySignedToken], [requireAuth]
      and the [POST /api/installation/:id/placement] handler;
    - [src/hubspot-client.js]: [uploadFileToHubSpot],
      [attachFileToInstallation], [associateEngagementToInstallation];
    - [public/app.js]: the annotation session ([handleCanvasTap], [placeUnit],
      [addLinePoint], [finishLine], [clearAll], [updateSaveButton],
      [savePlacement], [closeSuccessModal], [selectTool]).

    Conventions of the embedding.

    - A JavaScript string is represented by the byte sequence of its UTF-8
      encoding (Rocq's [string]); a Node [Buffer] is a [list ascii].
      [buf.toString('utf8')] decodes the bytes, with U+FFFD for what is no
      character.  The hexadecimal and base64url decoders read the UTF-16
      code units of a string, each cut to its low eight bits, as Node does;
      [split] and [parseInt] look for ASCII characters and for the white
      space of Unicode.
    - JavaScript numbers that hold times are integers; they are modelled by
      [Z].  The model is exact up to [MAX_SAFE_INTEGER], beyond every value
      of [Date.now()]; a longer numeral in a token is rounded by JavaScript
      and is not by [parseInt] below, so what is stated of the number in an
      arbitrary token is stated for a safe integer.
    - [Date.now()], the outcome of every HTTP exchange and every tap are
      explicit arguments: the functions below are pure and executable.
    - A [throw] is a value of [Completion]; a [try]/[catch] is [try_catch]. *)

From Stdlib Require Import NArith ZArith String Ascii List Lia Bool.
From Stdlib Require Import Decimal DecimalString DecimalZ DecimalN DecimalPos.
Import ListNotations.

(** ** The JavaScript and Node runtime functions the code calls *)

Module JsRuntime.

Definition Buffer := list ascii.

Definition code (c : ascii) : N := N_of_ascii c.

(** *** UTF-8 and UTF-16 *)

(** The decoder of UTF-8 between two bytes: at the start of a character, or
    inside one, with the number of bytes still needed, the bits read so far
    and the range the next byte must lie in. *)
Inductive Utf8State : Type :=
| Utf8Start
| Utf8Pending (needed : nat) (point lower upper : N).

(** A byte at the start of a character: the code points it completes and
    the state it leaves.  A byte that cannot start a character gives
    U+FFFD. *)
Definition utf8_lead (k : N) : list N * Utf8State :=
  if (k <=? 127)%N then ([k], Utf8Start)
  else if ((194 <=? k) && (k <=? 223))%N
  then ([], Utf8Pending 1 (k - 192) 128 191)
  else if ((224 <=? k) && (k <=? 239))%N
  then ([], Utf8Pending 2 (k - 224) (if (k =? 224)%N then 160 else 128)
                        (if (k =? 237)%N then 159 else 191))
  else if ((240 <=? k) && (k <=? 244))%N
  then ([], Utf8Pending 3 (k - 240) (if (k =? 240)%N then 144 else 128)
                        (if (k =? 244)%N then 143 else 191))
  else ([65533%N], Utf8Start).

(** The code points of a byte sequence.  Every maximal part that is no
    character is replaced by U+FFFD, and the byte that ended it is read
    again as the start of a character. *)
Fixpoint utf8_decode (state : Utf8State) (bytes : list ascii) : list N :=
  match bytes with
  | [] =>
      match state with
      | Utf8Start => []
      | Utf8Pending _ _ _ _ => [65533%N]
      end
  | c :: rest =>
      let k := code c in
      match state with
      | Utf8Start =>
          let '(points, next) := utf8_lead k in
          (points ++ utf8_decode next rest)%list
      | Utf8Pending needed point lower upper =>
          if ((lower <=? k) && (k <=? upper))%N
          then let point' := (point * 64 + (k - 128))%N in
               match needed with
               | S (S n) => utf8_decode (Utf8Pending (S n) point' 128 191) rest
               | _ => point' :: utf8_decode Utf8Start rest
               end
          else let '(points, next) := utf8_lead k in
               (65533%N :: points ++ utf8_decode next rest)%list
      end
  end.

Definition utf8_encode (point : N) : list ascii :=
  if (point <? 128)%N then [ascii_of_N point]
  else if (point <? 2048)%N
  then [ascii_of_N (192 + point / 64); ascii_of_N (128 + point mod 64)]
  else if (point <? 65536)%N
  then [ascii_of_N (224 + point / 4096); ascii_of_N (128 + (point / 64) mod 64);
        ascii_of_N (128 + point mod 64)]
  else [ascii_of_N (240 + point / 262144); ascii_of_N (128 + (point / 4096) mod 64);
        ascii_of_N (128 + (point / 64) mod 64); ascii_of_N (128 + point mod 64)].

(** The UTF-16 code units of a code point: one, or a surrogate pair. *)
Definition utf16_units (point : N) : list N :=
  if (point <? 65536)%N then [point]
  else [55296 + (point - 65536) / 1024; 56320 + (point - 65536) mod 1024]%N.

(** The code units of the JavaScript string that a text stands for. *)
Definition code_units (s : string) : list N :=
  flat_map utf16_units (utf8_decode Utf8Start (list_ascii_of_string s)).

(** Node's decoders of [hex] and [base64url] read a code unit as the
    character of its low eight bits. *)
Definition low_byte (unit : N) : ascii := ascii_of_N (unit mod 256).

Definition low_bytes (s : string) : list ascii := map low_byte (code_units s).

(** [Buffer.from(s)] (UTF-8) and [buf.toString('utf8')]: the bytes of a
    string are its text; the string of a buffer is the text of the code
    points its bytes decode to. *)
Definition Buffer_from_utf8 (s : string) : Buffer := list_ascii_of_string s.
Definition Buffer_toString_utf8 (b : Buffer) : string :=
  string_of_list_ascii (flat_map utf8_encode (utf8_decode Utf8Start b)).

(** *** Hexadecimal: [digest('hex')] and [Buffer.from(s, 'hex')] *)

Definition hex_digit (n : N) : ascii :=
  if (n <? 10)%N then ascii_of_N (48 + n) else ascii_of_N (87 + n).

Definition unhex (c : ascii) : option N :=
  let k := code c in
  if ((48 <=? k) && (k <=? 57))%N then Some (k - 48)%N
  else if ((97 <=? k) && (k <=? 102))%N then Some (k - 87)%N
  else if ((65 <=? k) && (k <=? 70))%N then Some (k - 55)%N
  else None.

Fixpoint hex_chars (b : Buffer) : list ascii :=
  match b with
  | [] => []
  | c :: rest =>
      hex_digit (code c / 16) :: hex_digit (code c mod 16) :: hex_chars rest
  end.

Definition Buffer_toString_hex (b : Buffer) : string :=
  string_of_list_ascii (hex_chars b).

(** Node decodes pairs of hex digits and stops at the first pair that is not
    one; a trailing single character is dropped. *)
Fixpoint unhex_pairs (cs : list ascii) : Buffer :=
  match cs with
  | hi :: lo :: rest =>
      match unhex hi, unhex lo with
      | Some h, Some l => ascii_of_N (16 * h + l) :: unhex_pairs rest
      | _, _ => []
      end
  | _ => []
  end.

Definition Buffer_from_hex (s : string) : Buffer :=
  unhex_pairs (low_bytes s).

(** *** base64url: [buf.toString('base64url')] and [Buffer.from(s, 'base64url')] *)

Definition base64url_char (n : N) : ascii :=
  if (n <? 26)%N then ascii_of_N (65 + n)
  else if (n <? 52)%N then ascii_of_N (71 + n)
  else if (n <? 62)%N then ascii_of_N (n - 4)
  else if (n =? 62)%N then "-"%char
  else "_"%char.

(** The decoder accepts both the URL-safe and the standard alphabet. *)
Definition unbase64 (c : ascii) : option N :=
  let k := code c in
  if ((65 <=? k) && (k <=? 90))%N then Some (k - 65)%N
  else if ((97 <=? k) && (k <=? 122))%N then Some (k - 71)%N
  else if ((48 <=? k) && (k <=? 57))%N then Some (k + 4)%N
  else if ((k =? 43) || (k =? 45))%N then Some 62%N
  else if ((k =? 47) || (k =? 95))%N then Some 63%N
  else None.

Fixpoint base64url_groups (b : list N) : list N :=
  match b with
  | b0 :: b1 :: b2 :: rest =>
      (b0 / 4 :: (b0 mod 4) * 16 + b1 / 16 :: (b1 mod 16) * 4 + b2 / 64
         :: b2 mod 64 :: base64url_groups rest)%N
  | [b0; b1] => [b0 / 4; (b0 mod 4) * 16 + b1 / 16; (b1 mod 16) * 4]%N
  | [b0] => [b0 / 4; (b0 mod 4) * 16]%N
  | [] => []
  end.

(** No padding is written by the [base64url] encoding. *)
Definition Buffer_toString_base64url (b : Buffer) : string :=
  string_of_list_ascii (map base64url_char (base64url_groups (map code b))).

(** Decoding is lenient: characters outside the alphabet are skipped and a
    padding character ends the input. *)
Fixpoint sextets (cs : list ascii) : list N :=
  match cs with
  | [] => []
  | c :: rest =>
      if (code c =? 61)%N then []
      else match unbase64 c with
           | Some v => v :: sextets rest
           | None => sextets rest
           end
  end.

Fixpoint unbase64_groups (vs : list N) : list N :=
  match vs with
  | s0 :: s1 :: s2 :: s3 :: rest =>
      (s0 * 4 + s1 / 16 :: (s1 mod 16) * 16 + s2 / 4 :: (s2 mod 4) * 64 + s3
         :: unbase64_groups rest)%N
  | [s0; s1; s2] => [s0 * 4 + s1 / 16; (s1 mod 16) * 16 + s2 / 4]%N
  | [s0; s1] => [s0 * 4 + s1 / 16]%N
  | _ => []
  end.

Definition Buffer_from_base64url (s : string) : Buffer :=
  map ascii_of_N (unbase64_groups (sextets (low_bytes s))).

(** *** Numbers and strings *)

(** [String(n)], also what a template literal writes, for an integer [n]:
    its decimal numeral (JavaScript writes an exponent from [10^21] on). *)
Definition number_to_string (n : Z) : string :=
  NilZero.string_of_int (Z.to_int n).

Definition digit_of (c : ascii) : option N :=
  let k := code c in
  if ((48 <=? k) && (k <=? 57))%N then Some (k - 48)%N else None.

(** White space that [parseInt] skips: the ASCII characters TAB, LF, VT, FF,
    CR, SP and, in their UTF-8 encoding, U+00A0, U+1680, U+2000..U+200A,
    U+2028, U+2029, U+202F, U+205F, U+3000, U+FEFF. *)
Definition ascii_space (c : ascii) : bool :=
  let k := code c in (((9 <=? k) && (k <=? 13)) || (k =? 32))%N.

Definition space2 (c1 c2 : ascii) : bool :=
  ((code c1 =? 194) && (code c2 =? 160))%N.

Definition space3 (c1 c2 c3 : ascii) : bool :=
  let k1 := code c1 in
  let k2 := code c2 in
  let k3 := code c3 in
  (((k1 =? 225) && (k2 =? 154) && (k3 =? 128))
   || ((k1 =? 226) && (k2 =? 128)
       && (((128 <=? k3) && (k3 <=? 138)) || (k3 =? 168) || (k3 =? 169)
           || (k3 =? 175)))
   || ((k1 =? 226) && (k2 =? 129) && (k3 =? 159))
   || ((k1 =? 227) && (k2 =? 128) && (k3 =? 128))
   || ((k1 =? 239) && (k2 =? 187) && (k3 =? 191)))%N.

Fixpoint skip_space (s : string) : string :=
  match s with
  | EmptyString => s
  | String c1 r1 =>
      if ascii_space c1 then skip_space r1
      else match r1 with
           | EmptyString => s
           | String c2 r2 =>
               if space2 c1 c2 then skip_space r2
               else match r2 with
                    | EmptyString => s
                    | String c3 r3 =>
                        if space3 c1 c2 c3 then skip_space r3 else s
                    end
           end
  end.

(** Value of the longest prefix of decimal digits, continuing from [acc]. *)
Fixpoint digits_value (acc : N) (s : string) : N :=
  match s with
  | EmptyString => acc
  | String c r =>
      match digit_of c with
      | Some d => digits_value (10 * acc + d) r
      | None => acc
      end
  end.

Definition starts_with_digit (s : string) : bool :=
  match s with
  | String c _ => match digit_of c with Some _ => true | None => false end
  | EmptyString => false
  end.


(** [parseInt(s, 10)]; [None] is [NaN].  The value is the one JavaScript
    computes when it is a safe integer. *)
Definition parseInt (s : string) : option Z :=
  let s1 := skip_space s in
  let '(negative, s2) :=
    match s1 with
    | String c r =>
        if (code c =? 45)%N then (true, r)
        else if (code c =? 43)%N then (false, r)
        else (false, s1)
    | EmptyString => (false, s1)
    end in
  if starts_with_digit s2
  then let v := Z.of_N (digits_value 0 s2) in
       Some (if negative then (- v)%Z else v)
  else None.

(** [s.split(sep)] for a one-character separator: never empty. *)
Fixpoint split (sep : ascii) (s : string) : list string :=
  match s with
  | EmptyString => [EmptyString]
  | String c r =>
      if Ascii.eqb c sep then EmptyString :: split sep r
      else match split sep r with
           | field :: fields => String c field :: fields
           | [] => [String c EmptyString]
           end
  end.

(** *** Exceptions *)

Inductive JsError : Type :=
| Error (message : string)
| TypeError (message : string)
| RangeError (message : string)
| SyntaxError (message : string).

Definition error_message (e : JsError) : string :=
  match e with
  | Error m | TypeError m | RangeError m | SyntaxError m => m
  end.

Inductive Completion (A : Type) : Type :=
| Normal (a : A)
| Throw (e : JsError).
Arguments Normal {A} a.
Arguments Throw {A} e.

Definition bind {A B : Type} (c : Completion A) (k : A -> Completion B)
  : Completion B :=
  match c with
  | Normal a => k a
  | Throw e => Throw e
  end.

Definition try_catch {A : Type} (c : Completion A) (handler : JsError -> A) : A :=
  match c with
  | Normal a => a
  | Throw e => handler e
  end.

(** [Buffer.from(v, 'hex')] where [v] may be [undefined]. *)
Definition Buffer_from_hex_value (v : option string) : Completion Buffer :=
  match v with
  | Some s => Normal (Buffer_from_hex s)
  | None =>
      Throw (TypeError
        "The first argument must be of type string or an instance of Buffer, ArrayBuffer, or Array or an Array-like Object. Received undefined")
  end.

Fixpoint Buffer_equals (a b : Buffer) : bool :=
  match a, b with
  | [], [] => true
  | x :: a', y :: b' => Ascii.eqb x y && Buffer_equals a' b'
  | _, _ => false
  end.

(** [crypto.timingSafeEqual(a, b)] throws when the byte lengths differ. *)
Definition timingSafeEqual (a b : Buffer) : Completion bool :=
  if Nat.eqb (length a) (length b)
  then Normal (Buffer_equals a b)
  else Throw (RangeError "Input buffers must have the same byte length").

End JsRuntime.

Declare Scope js_scope.
Notation "x <- c ;; k" := (JsRuntime.bind c (fun x => k))
  (at level 61, c at next level, right associativity) : js_scope.

(** ** HMAC-SHA256, as [crypto.createHmac('sha256', key)] computes it

    FIPS 180-4 and RFC 2104 on 32-bit words held in [N].  The token proofs use
    one fact about it only: a digest has 32 bytes. *)

Module Sha256.
Import JsRuntime.
Local Open Scope N_scope.

Definition wrap32 (x : N) : N := x mod 4294967296.
Definition add32 (x y : N) : N := wrap32 (x + y).
Definition rotr (n x : N) : N :=
  N.lor (N.shiftr x n) (wrap32 (N.shiftl x (32 - n))).
Definition not32 (x : N) : N := N.lxor x 4294967295.

Definition choose (x y z : N) : N := N.lxor (N.land x y) (N.land (not32 x) z).
Definition majority (x y z : N) : N :=
  N.lxor (N.land x y) (N.lxor (N.land x z) (N.land y z)).
Definition Sigma0 (x : N) : N := N.lxor (rotr 2 x) (N.lxor (rotr 13 x) (rotr 22 x)).
Definition Sigma1 (x : N) : N := N.lxor (rotr 6 x) (N.lxor (rotr 11 x) (rotr 25 x)).
Definition sigma0 (x : N) : N := N.lxor (rotr 7 x) (N.lxor (rotr 18 x) (N.shiftr x 3)).
Definition sigma1 (x : N) : N := N.lxor (rotr 17 x) (N.lxor (rotr 19 x) (N.shiftr x 10)).

Definition round_constants : list N :=
  [ 1116352408; 1899447441; 3049323471; 3921009573; 961987163; 1508970993;
    2453635748; 2870763221; 3624381080; 310598401; 607225278; 1426881987;
    1925078388; 2162078206; 2614888103; 3248222580; 3835390401; 4022224774;
    264347078; 604807628; 770255983; 1249150122; 1555081692; 1996064986;
    2554220882; 2821834349; 2952996808; 3210313671; 3336571891; 3584528711;
    113926993; 338241895; 666307205; 773529912; 1294757372; 1396182291;
    1695183700; 1986661051; 2177026350; 2456956037; 2730485921; 2820302411;
    3259730800; 3345764771; 3516065817; 3600352804; 4094571909; 275423344;
    430227734; 506948616; 659060556; 883997877; 958139571; 1322822218;
    1537002063; 1747873779; 1955562222; 2024104815; 2227730452; 2361852424;
    2428436474; 2756734187; 3204031479; 3329325298 ].

Record HashState : Type :=
  mkHash { ha : N; hb : N; hc : N; hd : N; he : N; hf : N; hg : N; hh : N }.

Definition initial_hash : HashState :=
  mkHash 1779033703 3144134277 1013904242 2773480762
         1359893119 2600822924 528734635 1541459225.

(** The message schedule is built newest word first. *)
Definition next_word (ws : list N) : N :=
  add32 (add32 (sigma1 (nth 1 ws 0)) (nth 6 ws 0))
        (add32 (sigma0 (nth 14 ws 0)) (nth 15 ws 0)).

Fixpoint extend_schedule (n : nat) (ws : list N) : list N :=
  match n with
  | O => ws
  | S n' => extend_schedule n' (next_word ws :: ws)
  end.

Definition schedule (block : list N) : list N :=
  List.rev (extend_schedule 48 (List.rev block)).

Definition round (st : HashState) (kw : N * N) : HashState :=
  let t1 := add32 (add32 (add32 (hh st) (Sigma1 (he st)))
                         (add32 (choose (he st) (hf st) (hg st)) (fst kw)))
                  (snd kw) in
  let t2 := add32 (Sigma0 (ha st)) (majority (ha st) (hb st) (hc st)) in
  mkHash (add32 t1 t2) (ha st) (hb st) (hc st)
         (add32 (hd st) t1) (he st) (hf st) (hg st).

Definition compress (st : HashState) (block : list N) : HashState :=
  let r := fold_left round (combine round_constants (schedule block)) st in
  mkHash (add32 (ha st) (ha r)) (add32 (hb st) (hb r)) (add32 (hc st) (hc r))
         (add32 (hd st) (hd r)) (add32 (he st) (he r)) (add32 (hf st) (hf r))
         (add32 (hg st) (hg r)) (add32 (hh st) (hh r)).

Definition be_bytes (count : nat) (x : N) : list N :=
  map (fun i => (x / 256 ^ N.of_nat i) mod 256) (List.rev (seq 0 count)).

Fixpoint be_words (fuel : nat) (bs : list N) : list N :=
  match fuel, bs with
  | S fuel', b0 :: b1 :: b2 :: b3 :: rest =>
      (((b0 * 256 + b1) * 256 + b2) * 256 + b3) :: be_words fuel' rest
  | _, _ => []
  end.

Definition pad (msg : list N) : list N :=
  let len := N.of_nat (length msg) in
  let zeros := N.to_nat ((64 - (len + 9) mod 64) mod 64) in
  msg ++ [128] ++ repeat 0 zeros ++ be_bytes 8 (8 * len).

Fixpoint blocks (count : nat) (ws : list N) : list (list N) :=
  match count with
  | O => []
  | S count' => firstn 16 ws :: blocks count' (skipn 16 ws)
  end.

Definition digest_bytes (st : HashState) : Buffer :=
  map ascii_of_N
      (flat_map (be_bytes 4)
                [ha st; hb st; hc st; hd st; he st; hf st; hg st; hh st]).

Definition sha256 (msg : Buffer) : Buffer :=
  let padded := pad (map code msg) in
  let ws := be_words (length padded) padded in
  digest_bytes (fold_left compress (blocks (length ws / 16) ws) initial_hash).

Definition block_key (key : Buffer) : list N :=
  let k := if Nat.ltb 64 (length key) then sha256 key else key in
  map code k ++ repeat 0 (64 - length k)%nat.

Definition xor_pad (c : N) (k : list N) : Buffer :=
  map (fun b => ascii_of_N (N.lxor b c)) k.

Definition hmac_sha256 (key msg : Buffer) : Buffer :=
  let k := block_key key in
  sha256 (xor_pad 92 k ++ sha256 (xor_pad 54 k ++ msg)).

End Sha256.

(** ** [server.js]: signed tokens and the authentication middleware *)

Module Server.
Import JsRuntime.
Local Open Scope string_scope.
Local Open Scope Z_scope.
Local Open Scope js_scope.

(** Token expiry: 7 days in milliseconds. *)
Definition TOKEN_EXPIRY_MS : Z := 7 * 24 * 60 * 60 * 1000.

(** [crypto.createHmac('sha256', secret).update(data).digest('hex')]. *)
Definition hmac_hex (secret data : string) : string :=
  Buffer_toString_hex
    (Sha256.hmac_sha256 (Buffer_from_utf8 secret) (Buffer_from_utf8 data)).

(** [secret] is [process.env.SITE_PLAN_SECRET]: [None] when unset.  [now] is
    the value of [Date.now()]. *)
Definition generateSignedToken
  (installationId : string) (secret : option string) (now : Z)
  : Completion string :=
  match secret with
  | None | Some EmptyString =>
      Throw (Error "SITE_PLAN_SECRET is required to generate tokens")
  | Some key =>
      let expiry := now + TOKEN_EXPIRY_MS in
      let data := installationId ++ ":" ++ number_to_string expiry in
      let signature := hmac_hex key data in
      Normal (Buffer_toString_base64url
                (Buffer_from_utf8 (number_to_string expiry ++ ":" ++ signature)))
  end.

Record VerifyResult : Type := mkVerify { valid : bool; error : option string }.

Definition accepted : VerifyResult := mkVerify true None.
Definition rejected (reason : string) : VerifyResult :=
  mkVerify false (Some reason).

(** The body of the [try] block of [verifySignedToken]. *)
Definition checkToken (installationId token key : string) (now : Z)
  : Completion VerifyResult :=
  let decoded := Buffer_toString_utf8 (Buffer_from_base64url token) in
  let fields := split ":" decoded in
  let expiryStr := nth 0 fields EmptyString in
  let providedSignature := nth_error fields 1 in
  match parseInt expiryStr with
  | None => Normal (rejected "Token has expired")
  | Some expiry =>
      if now >? expiry then Normal (rejected "Token has expired")
      else
        let data := installationId ++ ":" ++ number_to_string expiry in
        let expectedSignature := hmac_hex key data in
        provided <- Buffer_from_hex_value providedSignature ;;
        expected <- Buffer_from_hex_value (Some expectedSignature) ;;
        same <- timingSafeEqual provided expected ;;
        if negb same then Normal (rejected "Invalid token signature")
        else Normal accepted
  end.

(** [token] is [req.query.token]: [None] when the parameter is absent. *)
Definition verifySignedToken
  (installationId : string) (token : option string) (secret : option string)
  (now : Z) : VerifyResult :=
  match secret with
  | None | Some EmptyString => accepted
  | Some key =>
      match token with
      | None | Some EmptyString => rejected "Missing authentication token"
      | Some tok =>
          try_catch (checkToken installationId tok key now)
                    (fun _ => rejected "Invalid token format")
      end
  end.

(** [requireAuth]: either the next handler runs or a 403 is sent. *)
Inductive AuthOutcome : Type :=
| Next
| Denied (status : Z) (message : option string).

Definition requireAuth
  (id : string) (token secret : option string) (now : Z) : AuthOutcome :=
  let result := verifySignedToken id token secret now in
  if negb (valid result) then Denied 403 (error result) else Next.

End Server.

(** ** [src/hubspot-client.js]: file upload and note attachment

    Each remote exchange is an argument: what the HTTPS request ended with.
    A response body comes with its reading as JSON, or with the reason why
    [JSON.parse] rejects it. *)

Module HubSpotClient.
Import JsRuntime.
Local Open Scope string_scope.
Local Open Scope Z_scope.
Local Open Scope js_scope.

#[local] Set Warnings "-register-all".
Inductive Json : Type :=
| JNull
| JBool (b : bool)
| JNum (n : Z)
| JStr (s : string)
| JObj (fields : list (string * Json)).

Inductive Body : Type :=
| Malformed (data : string) (reason : string)
| JsonText (data : string) (value : Json).

Definition data_of (b : Body) : string :=
  match b with
  | Malformed data _ | JsonText data _ => data
  end.

Definition JSON_parse (b : Body) : Completion Json :=
  match b with
  | Malformed _ reason => Throw (SyntaxError reason)
  | JsonText _ value => Normal value
  end.

Inductive HttpOutcome : Type :=
| NetworkError (message : string)
| HttpResponse (statusCode : Z) (body : Body).

Fixpoint lookup (name : string) (fields : list (string * Json)) : option Json :=
  match fields with
  | [] => None
  | (k, v) :: rest => if String.eqb k name then Some v else lookup name rest
  end.

(** [v.name]; [None] is [undefined]. *)
Definition property (v : option Json) (name : string) : Completion (option Json) :=
  match v with
  | None =>
      Throw (TypeError ("Cannot read properties of undefined (reading '"
                          ++ name ++ "')"))
  | Some JNull =>
      Throw (TypeError ("Cannot read properties of null (reading '"
                          ++ name ++ "')"))
  | Some (JObj fields) => Normal (lookup name fields)
  | Some _ => Normal None
  end.

Definition truthy (v : option Json) : bool :=
  match v with
  | None | Some JNull => false
  | Some (JBool b) => b
  | Some (JNum n) => negb (n =? 0)
  | Some (JStr s) => negb (String.eqb s "")
  | Some (JObj _) => true
  end.

(** [String(v)]. *)
Definition to_text (v : option Json) : string :=
  match v with
  | None => "undefined"
  | Some JNull => "null"
  | Some (JBool true) => "true"
  | Some (JBool false) => "false"
  | Some (JNum n) => number_to_string n
  | Some (JStr s) => s
  | Some (JObj _) => "[object Object]"
  end.

(** How a promise ends.  [Crashed]: an exception escaped an event callback,
    so the promise is never settled. *)
Inductive Settled (A : Type) : Type :=
| Fulfilled (a : A)
| Rejected (e : JsError)
| Crashed (e : JsError).
Arguments Fulfilled {A} a.
Arguments Rejected {A} e.
Arguments Crashed {A} e.

Inductive LogLine : Type :=
| Log (text : string)
| LogError (text : string).

Record UploadedFile : Type := mkUploaded { fileId : option Json; url : option Json }.

(** [parsed.message || `HTTP ${res.statusCode}: ${data}`]. *)
Definition failure_text (message : option Json) (statusCode : Z) (data : string)
  : string :=
  if truthy message then to_text message
  else "HTTP " ++ number_to_string statusCode ++ ": " ++ data.

Definition uploadFileToHubSpot (exchange : HttpOutcome) : Settled UploadedFile :=
  match exchange with
  | NetworkError message => Rejected (Error message)
  | HttpResponse statusCode body =>
      try_catch
        (parsed <- JSON_parse body ;;
         if (statusCode =? 201) || (statusCode =? 200)
         then id <- property (Some parsed) "id" ;;
              u <- property (Some parsed) "url" ;;
              Normal (Fulfilled (mkUploaded id u))
         else message <- property (Some parsed) "message" ;;
              Normal (Rejected
                        (Error (failure_text message statusCode (data_of body)))))
        (fun err => Rejected (Error ("Parse error: " ++ error_message err)))
  end.

(** Failures of the association are logged and the promise is fulfilled:
    "Don't fail the whole upload". *)
Definition associateEngagementToInstallation (exchange : HttpOutcome)
  : Settled Json * list LogLine :=
  match exchange with
  | NetworkError message =>
      (Fulfilled (JObj []), [LogError ("Association error: " ++ message)])
  | HttpResponse statusCode body =>
      if (200 <=? statusCode) && (statusCode <? 300)
      then if negb (String.eqb (data_of body) "")
           then match JSON_parse body with
                | Normal value => (Fulfilled value, [])
                | Throw e => (Crashed e, [])
                end
           else (Fulfilled (JObj []), [])
      else (Fulfilled (JObj []),
            [Log ("Association response: " ++ number_to_string statusCode
                    ++ " " ++ data_of body)])
  end.

(** [note] is the exchange that creates the note engagement; [association]
    is consulted only when the note was created. *)
Definition attachFileToInstallation (note association : HttpOutcome)
  : Settled Json * list LogLine :=
  match note with
  | NetworkError message => (Rejected (Error message), [])
  | HttpResponse statusCode body =>
      let parse_error err := Rejected (Error ("Parse error: " ++ error_message err)) in
      match JSON_parse body with
      | Throw err => (parse_error err, [])
      | Normal parsed =>
          if (statusCode =? 200) || (statusCode =? 201)
          then match (engagement <- property (Some parsed) "engagement" ;;
                      property engagement "id") with
               | Throw err => (parse_error err, [])
               | Normal _ =>
                   match associateEngagementToInstallation association with
                   | (Fulfilled _, logs) => (Fulfilled parsed, logs)
                   | (Rejected err, logs) => (parse_error err, logs)
                   | (Crashed e, logs) => (Crashed e, logs)
                   end
               end
          else match property (Some parsed) "message" with
               | Throw err => (parse_error err, [])
               | Normal message =>
                   (Rejected (Error (failure_text message statusCode (data_of body))),
                    [])
               end
      end
  end.

(** *** Observations the properties are stated with *)

(** The note request was answered 200 or 201 with a JSON body from which
    [parsed.engagement.id] can be read. *)
Definition note_created (note : HttpOutcome) : bool :=
  match note with
  | HttpResponse statusCode (JsonText _ parsed) =>
      ((statusCode =? 200) || (statusCode =? 201))
      && match (engagement <- property (Some parsed) "engagement" ;;
                property engagement "id") with
         | Normal _ => true
         | Throw _ => false
         end
  | _ => false
  end.

(** The association request failed: no connection, or a status outside 2xx. *)
Definition association_failed (association : HttpOutcome) : bool :=
  match association with
  | NetworkError _ => true
  | HttpResponse statusCode _ => negb ((200 <=? statusCode) && (statusCode <? 300))
  end.

End HubSpotClient.

(** ** [server.js]: [POST /api/installation/:id/placement] *)

Module PlacementRoute.
Import JsRuntime HubSpotClient.
Local Open Scope string_scope.
Local Open Scope Z_scope.

Record Upstream : Type :=
  mkUpstream { upload_exchange : HttpOutcome;
               note_exchange : HttpOutcome;
               association_exchange : HttpOutcome }.

(** [file] is [req.file], set by [upload.single('image')]. *)
Record Request : Type :=
  mkRequest { params_id : string;
              query_token : option string;
              file : option Buffer }.

Inductive Payload : Type :=
| Saved (fileId : option Json) (fileName : string) (message : string)
| Failed (error : string)
| AccessDenied (message : option string).

Record Reply : Type := mkReply { status : Z; payload : Payload }.

(** [s.replace(/[:.]/g, '-')]. *)
Fixpoint dash_separators (s : string) : string :=
  match s with
  | EmptyString => EmptyString
  | String c r =>
      String (if Ascii.eqb c ":" || Ascii.eqb c "." then "-"%char else c)
             (dash_separators r)
  end.

(** [error.message || 'Failed to save site plan']. *)
Definition save_failure (e : JsError) : Reply :=
  mkReply 500 (Failed (if String.eqb (error_message e) ""
                       then "Failed to save site plan"
                       else error_message e)).

(** The handler proper.  [HUBSPOT_TOKEN] is the environment variable,
    [isoTime] the value of [new Date().toISOString()].  No reply is sent when
    a promise is never settled. *)
Definition placement_handler
  (HUBSPOT_TOKEN : option string) (isoTime : string) (req : Request)
  (remote : Upstream) : option Reply * list LogLine :=
  let id := params_id req in
  match HUBSPOT_TOKEN with
  | None | Some EmptyString => (Some (mkReply 500 (Failed "HubSpot not configured")), [])
  | Some _ =>
      match file req with
      | None => (Some (mkReply 400 (Failed "No image provided")), [])
      | Some _ =>
          let timestamp := dash_separators isoTime in
          let fileName := "site-plan-" ++ id ++ "-" ++ timestamp ++ ".png" in
          let log1 := Log ("Uploading site plan for installation " ++ id ++ "...") in
          let caught e logs :=
            (Some (save_failure e),
             (logs ++ [LogError ("Error saving site plan: " ++ error_message e)])%list) in
          match uploadFileToHubSpot (upload_exchange remote) with
          | Rejected e => caught e [log1]
          | Crashed _ => (None, [log1])
          | Fulfilled uploaded =>
              let log2 := Log ("File uploaded with ID: " ++ to_text (fileId uploaded)) in
              match attachFileToInstallation (note_exchange remote)
                                             (association_exchange remote) with
              | (Rejected e, logs) => caught e ([log1; log2] ++ logs)%list
              | (Crashed _, logs) => (None, ([log1; log2] ++ logs)%list)
              | (Fulfilled _, logs) =>
                  (Some (mkReply 200 (Saved (fileId uploaded) fileName
                                            "Site plan saved successfully")),
                   ([log1; log2] ++ logs
                      ++ [Log ("Site plan attached to installation " ++ id)])%list)
              end
          end
      end
  end.

(** The route: [requireAuth], then the handler. *)
Definition placement_route
  (SITE_PLAN_SECRET HUBSPOT_TOKEN : option string) (now : Z) (isoTime : string)
  (req : Request) (remote : Upstream) : option Reply * list LogLine :=
  match Server.requireAuth (params_id req) (query_token req) SITE_PLAN_SECRET now with
  | Server.Denied status message => (Some (mkReply status (AccessDenied message)), [])
  | Server.Next => placement_handler HUBSPOT_TOKEN isoTime req remote
  end.

End PlacementRoute.

(** ** [public/app.js]: the annotation session

    The module-level variables and the pieces of the page they drive are the
    fields of [Session]; every handler is a function from sessions to
    sessions.  Canvas coordinates are integers.  The toolbar highlight and
    the instruction text set by [selectTool] follow [currentTool] and are not
    kept; [currentLine] is never read. *)

Module Client.
Import JsRuntime.
Local Open Scope Z_scope.

Inductive Tool : Type := idu | odu | line.
Inductive UnitLabel : Type := IDU | ODU.

Definition UnitLabel_eqb (a b : UnitLabel) : bool :=
  match a, b with
  | IDU, IDU | ODU, ODU => true
  | _, _ => false
  end.

Record Point : Type := mkPoint { x : Z; y : Z }.

(** What [canvas.getObjects()] holds.  [Backdrop] is a placeholder grid line
    or text: it has none of [unitLabel], [isLinePoint], [isLineSegment]. *)
Inductive CanvasObject : Type :=
| Backdrop
| UnitGroup (unitLabel : UnitLabel) (left top : Z) (fill : string)
| PointMarker (left top : Z)
| LineSegment (x1 y1 x2 y2 : Z) (strokeDashArray : option (list Z)).

Record SaveButton : Type :=
  mkSaveButton { disabled : bool; saveText : string; spinnerHidden : bool }.

Record Session : Type :=
  mkSession { currentTool : Tool;
              iduPlaced : bool;
              oduPlaced : bool;
              linePoints : list Point;
              canvas : list CanvasObject;
              saveBtn : SaveButton;
              successModalHidden : bool;
              alerts : list string }.

Definition with_tool (t : Tool) (s : Session) : Session :=
  mkSession t (iduPlaced s) (oduPlaced s) (linePoints s) (canvas s)
            (saveBtn s) (successModalHidden s) (alerts s).
Definition with_iduPlaced (b : bool) (s : Session) : Session :=
  mkSession (currentTool s) b (oduPlaced s) (linePoints s) (canvas s)
            (saveBtn s) (successModalHidden s) (alerts s).
Definition with_oduPlaced (b : bool) (s : Session) : Session :=
  mkSession (currentTool s) (iduPlaced s) b (linePoints s) (canvas s)
            (saveBtn s) (successModalHidden s) (alerts s).
Definition with_linePoints (ps : list Point) (s : Session) : Session :=
  mkSession (currentTool s) (iduPlaced s) (oduPlaced s) ps (canvas s)
            (saveBtn s) (successModalHidden s) (alerts s).
Definition with_canvas (objs : list CanvasObject) (s : Session) : Session :=
  mkSession (currentTool s) (iduPlaced s) (oduPlaced s) (linePoints s) objs
            (saveBtn s) (successModalHidden s) (alerts s).
Definition with_saveBtn (b : SaveButton) (s : Session) : Session :=
  mkSession (currentTool s) (iduPlaced s) (oduPlaced s) (linePoints s) (canvas s)
            b (successModalHidden s) (alerts s).
Definition with_modalHidden (h : bool) (s : Session) : Session :=
  mkSession (currentTool s) (iduPlaced s) (oduPlaced s) (linePoints s) (canvas s)
            (saveBtn s) h (alerts s).
Definition with_alert (text : string) (s : Session) : Session :=
  mkSession (currentTool s) (iduPlaced s) (oduPlaced s) (linePoints s) (canvas s)
            (saveBtn s) (successModalHidden s) (alerts s ++ [text]).

Definition set_disabled (d : bool) (b : SaveButton) : SaveButton :=
  mkSaveButton d (saveText b) (spinnerHidden b).

(** The page as [init] leaves it: the placeholder background has put
    [backdrop] objects on the canvas (none when the satellite image is the
    background);
    the save button and the modal are as the markup has them. *)
Definition initial_session (backdrop : nat) (btn : SaveButton) (modalHidden : bool)
  : Session :=
  mkSession idu false false [] (repeat Backdrop backdrop) btn modalHidden [].

Definition selectTool (tool : Tool) (s : Session) : Session :=
  with_tool tool s.

Definition updateSaveButton (s : Session) : Session :=
  let canSave := iduPlaced s || oduPlaced s in
  with_saveBtn (set_disabled (negb canSave) (saveBtn s)) s.

(** [obj.unitLabel === label]. *)
Definition has_unitLabel (label : UnitLabel) (obj : CanvasObject) : bool :=
  match obj with
  | UnitGroup l _ _ _ => UnitLabel_eqb l label
  | _ => false
  end.

Definition placeUnit (label : UnitLabel) (px py : Z) (color : string)
  (s : Session) : Session :=
  let kept := filter (fun obj => negb (has_unitLabel label obj)) (canvas s) in
  with_canvas (kept ++ [UnitGroup label px py color]) s.

Definition isLineSegment (obj : CanvasObject) : bool :=
  match obj with
  | LineSegment _ _ _ _ _ => true
  | _ => false
  end.

Definition isLinePoint (obj : CanvasObject) : bool :=
  match obj with
  | PointMarker _ _ => true
  | _ => false
  end.

Definition isUnit (obj : CanvasObject) : bool :=
  match obj with
  | UnitGroup _ _ _ _ => true
  | _ => false
  end.

(** [line.set({ strokeDashArray: null })] on the line segments. *)
Definition solid (obj : CanvasObject) : CanvasObject :=
  match obj with
  | LineSegment x1 y1 x2 y2 _ => LineSegment x1 y1 x2 y2 None
  | _ => obj
  end.

Definition finishLine (s : Session) : Session :=
  if (length (linePoints s) <? 2)%nat then s
  else selectTool idu (with_canvas (map solid (canvas s)) s).

(** [Math.sqrt(Math.pow(x - p.x, 2) + Math.pow(y - p.y, 2)) < 30].  On
    integers the square root is below 30 exactly when the sum of squares is
    below 900. *)
Definition distance_below_30 (px py : Z) (p : Point) : bool :=
  (px - x p) ^ 2 + (py - y p) ^ 2 <? 30 ^ 2.

(** The test that makes [addLinePoint] finish the line instead of adding. *)
Definition finish_gesture (px py : Z) (s : Session) : bool :=
  (1 <? length (linePoints s))%nat
  && distance_below_30 px py (last (linePoints s) (mkPoint 0 0)).

Definition addLinePoint (px py : Z) (s : Session) : Session :=
  if finish_gesture px py s then finishLine s
  else
    let points := linePoints s ++ [mkPoint px py] in
    let withMarker := canvas s ++ [PointMarker px py] in
    let objects :=
      if (1 <? length points)%nat
      then let prevPoint := nth (length points - 2) points (mkPoint 0 0) in
           (* canvas.add(lineSegment); lineSegment.sendToBack() *)
           LineSegment (x prevPoint) (y prevPoint) px py (Some [8; 4])
             :: withMarker
      else withMarker in
    updateSaveButton (with_canvas objects (with_linePoints points s)).

(** The [mouse:down] event: the pointer and the object under it, if any. *)
Record TapEvent : Type :=
  mkTap { pointer : Point; target : option CanvasObject }.

Definition handleCanvasTap (opt : TapEvent) (s : Session) : Session :=
  match target opt with
  | Some _ => s
  | None =>
      match currentTool s with
      | idu =>
          updateSaveButton
            (with_iduPlaced true
               (placeUnit IDU (x (pointer opt)) (y (pointer opt)) "#3b82f6" s))
      | odu =>
          updateSaveButton
            (with_oduPlaced true
               (placeUnit ODU (x (pointer opt)) (y (pointer opt)) "#f97316" s))
      | line => addLinePoint (x (pointer opt)) (y (pointer opt)) s
      end
  end.

Definition clearAll (s : Session) : Session :=
  let kept :=
    filter (fun obj => negb (isUnit obj || isLinePoint obj || isLineSegment obj))
           (canvas s) in
  updateSaveButton
    (with_linePoints []
       (with_oduPlaced false (with_iduPlaced false (with_canvas kept s)))).

(** How the export upload of [savePlacement] ends.  [NotOk error] is a
    response whose [ok] is false: [error] is the reading of its body, and of
    the [error] field in it. *)
Inductive UploadOutcome : Type :=
| Uploaded
| ExportFailed (message : string)
| FetchFailed (message : string)
| NotOk (error : Completion (option string)).

(** The message of the error that reaches the [catch] block, if any. *)
Definition upload_failure (outcome : UploadOutcome) : option string :=
  match outcome with
  | Uploaded => None
  | ExportFailed message | FetchFailed message => Some message
  | NotOk (Throw e) => Some (error_message e)
  | NotOk (Normal (Some (String c m))) => Some (String c m)
  | NotOk (Normal _) => Some "Upload failed"%string
  end.

(** [savePlacement] up to its first [await]. *)
Definition savePlacement_begin (s : Session) : Session :=
  if disabled (saveBtn s) then s
  else with_saveBtn (mkSaveButton true "Saving..." false) s.

(** [savePlacement] from the end of the upload on. *)
Definition savePlacement_end (outcome : UploadOutcome) (s : Session) : Session :=
  match upload_failure outcome with
  | None => with_modalHidden false s
  | Some message =>
      with_saveBtn (mkSaveButton false "Save Site Plan" true)
        (with_alert ("Failed to save: " ++ message) s)
  end.

(** A save attempt with nothing happening while the upload is in flight.
    Nothing is uploaded when the button is disabled. *)
Definition savePlacement (outcome : UploadOutcome) (s : Session) : Session :=
  if disabled (saveBtn s) then s
  else savePlacement_end outcome (savePlacement_begin s).

Definition closeSuccessModal (s : Session) : Session :=
  with_saveBtn (mkSaveButton false "Save Site Plan" true)
               (with_modalHidden true s).

(** Dragging is done by the canvas library: the unit groups are the only
    objects that react to the pointer, and a drag moves the group. *)
Definition move (px py : Z) (obj : CanvasObject) : CanvasObject :=
  match obj with
  | UnitGroup label _ _ color => UnitGroup label px py color
  | _ => obj
  end.

Fixpoint dragObject (index : nat) (px py : Z) (objs : list CanvasObject)
  : list CanvasObject :=
  match objs, index with
  | [], _ => []
  | obj :: rest, O => move px py obj :: rest
  | obj :: rest, S i => obj :: dragObject i px py rest
  end.

(** Everything that can happen to a session. *)
Inductive Event : Type :=
| Tap (opt : TapEvent)
| SelectTool (tool : Tool)
| ClearAll
| SaveClicked
| UploadEnded (outcome : UploadOutcome)
| ModalClosed
| Dragged (index : nat) (px py : Z).

Definition step (e : Event) (s : Session) : Session :=
  match e with
  | Tap opt => handleCanvasTap opt s
  | SelectTool tool => selectTool tool s
  | ClearAll => clearAll s
  | SaveClicked => savePlacement_begin s
  | UploadEnded outcome => savePlacement_end outcome s
  | ModalClosed => closeSuccessModal s
  | Dragged index px py => with_canvas (dragObject index px py (canvas s)) s
  end.

Inductive reachable : Session -> Prop :=
| reachable_initial : forall backdrop btn modalHidden,
    reachable (initial_session backdrop btn modalHidden)
| reachable_step : forall e s, reachable s -> reachable (step e s).

(** *** Observations the properties are stated with *)

(** Where the markers labelled [label] are, bottom of the canvas first. *)
Definition unit_points (label : UnitLabel) (objs : list CanvasObject) : list Point :=
  flat_map (fun obj =>
              match obj with
              | UnitGroup l px py _ =>
                  if UnitLabel_eqb l label then [mkPoint px py] else []
              | _ => []
              end) objs.

Definition markers (label : UnitLabel) (s : Session) : list Point :=
  unit_points label (canvas s).

Definition marker_present (label : UnitLabel) (s : Session) : bool :=
  existsb (has_unitLabel label) (canvas s).

Definition dashed (obj : CanvasObject) : bool :=
  match obj with
  | LineSegment _ _ _ _ (Some _) => true
  | _ => false
  end.

Definition save_eligible (s : Session) : bool := negb (disabled (saveBtn s)).

(** The marker and path state of a session. *)
Definition annotation (s : Session)
  : Tool * bool * bool * list Point * list CanvasObject :=
  (currentTool s, iduPlaced s, oduPlaced s, linePoints s, canvas s).

Definition tool_of (label : UnitLabel) : Tool :=
  match label with IDU => idu | ODU => odu end.

(** The events after which the save button is recomputed: a tap that places
    a marker, a tap that adds a point to the path, and the clear button. *)
Definition is_mutation (e : Event) (s : Session) : bool :=
  match e with
  | Tap opt =>
      match target opt, currentTool s with
      | Some _, _ => false
      | None, line =>
          negb (finish_gesture (x (pointer opt)) (y (pointer opt)) s)
      | None, _ => true
      end
  | ClearAll => true
  | _ => false
  end.

End Client.

(** ** [encodeURIComponent], on the UTF-8 bytes of a well-formed string *)

Module Uri.
Import JsRuntime.

(** The characters left as they are: letters, digits and [- _ . ! ~ * ' ( )]. *)
Definition unreserved (c : ascii) : bool :=
  let k := code c in
  (((65 <=? k) && (k <=? 90)) || ((97 <=? k) && (k <=? 122))
   || ((48 <=? k) && (k <=? 57))
   || (k =? 45) || (k =? 95) || (k =? 46) || (k =? 33) || (k =? 126)
   || (k =? 42) || (k =? 39) || (k =? 40) || (k =? 41))%N.

Definition upper_hex_digit (n : N) : ascii :=
  if (n <? 10)%N then ascii_of_N (48 + n) else ascii_of_N (55 + n).

Fixpoint encodeURIComponent (s : string) : string :=
  match s with
  | EmptyString => EmptyString
  | String c r =>
      if unreserved c then String c (encodeURIComponent r)
      else String "%" (String (upper_hex_digit (code c / 16))
                         (String (upper_hex_digit (code c mod 16))
                                 (encodeURIComponent r)))
  end.

End Uri.

(** ** [src/hubspot-client.js]: the client handle and the installation record *)

Module HubSpotRecords.
Import JsRuntime HubSpotClient.
Local Open Scope string_scope.

(** [response.properties]: each property is a string or [null]. *)
Record Installation : Type :=
  mkInstallation { name : option string;
                   address : option string;
                   city : option string;
                   state : option string;
                   zip : option string }.

(** [parts.filter(Boolean)] on strings and [null]. *)
Fixpoint filter_Boolean (parts : list (option string)) : list string :=
  match parts with
  | [] => []
  | Some (String c r) :: rest => String c r :: filter_Boolean rest
  | _ :: rest => filter_Boolean rest
  end.

(** [parts.join(sep)]. *)
Fixpoint join (sep : string) (parts : list string) : string :=
  match parts with
  | [] => ""
  | [part] => part
  | part :: rest => part ++ sep ++ join sep rest
  end.

Definition getFullAddress (installation : Installation) : string :=
  join ", " (filter_Boolean [address installation; city installation;
                             state installation; zip installation]).

(** The module variable [hubspotClient]: the access token the client was
    made with, or [None] for [null]. *)
Definition ClientHandle : Type := option string.

Definition initHubSpotClient (accessToken : option string)
  : Completion ClientHandle :=
  match accessToken with
  | None | Some EmptyString => Throw (Error "HUBSPOT_ACCESS_TOKEN is required")
  | Some token => Normal (Some token)
  end.

Definition getClient (hubspotClient : ClientHandle) : Completion string :=
  match hubspotClient with
  | None =>
      Throw (Error "HubSpot client not initialized. Call initHubSpotClient first.")
  | Some client => Normal client
  end.

(** [lookup] is how [basicApi.getById] ends. *)
Definition getInstallationById
  (hubspotClient : ClientHandle) (lookup : Settled Installation)
  : Settled Installation * list LogLine :=
  let failed e :=
    (Rejected e, [LogError ("Error fetching installation: " ++ error_message e)]) in
  match getClient hubspotClient with
  | Throw e => failed e
  | Normal _ =>
      match lookup with
      | Fulfilled properties => (Fulfilled properties, [])
      | Rejected e => failed e
      | Crashed e => (Crashed e, [])
      end
  end.

End HubSpotRecords.

(** ** [server.js]: the other routes

    A handler returns the answer it sends ([None] when it sends none), the
    lines it logs and the URLs it requests from Google. *)

Module Routes.
Import JsRuntime HubSpotClient HubSpotRecords.
Local Open Scope string_scope.
Local Open Scope Z_scope.

Inductive Content : Type :=
| ConfigContent (googleMapsApiKey : option string)
| InstallationContent (id : string) (name : option string) (address : string)
                      (street city state zip : option string)
| GeocodeContent (lat lng formattedAddress : option Json)
| SignedUrlContent (installationId signedUrl expiresIn : string)
| ErrorContent (error : string) (message : option string).

Record Answer : Type := mkAnswer { http_status : Z; content : Content }.

Definition nonempty (v : option string) : bool :=
  match v with
  | Some (String _ _) => true
  | _ => false
  end.

(** What the server does when it starts: the client handle it leaves in
    [hubspotClient]. *)
Definition startup_client (HUBSPOT_TOKEN : option string) : ClientHandle :=
  if nonempty HUBSPOT_TOKEN
  then match initHubSpotClient HUBSPOT_TOKEN with
       | Normal handle => handle
       | Throw _ => None
       end
  else None.

(** [requireAuth] as a route sees it: [req.params.id || req.query.id], where
    a missing id is written [undefined] by the template literal. *)
Definition request_id (params_id query_id : option string) : string :=
  match params_id with
  | Some (String c r) => String c r
  | _ => match query_id with
         | Some id => id
         | None => "undefined"
         end
  end.

Definition denied (status : Z) (message : option string) : Answer :=
  mkAnswer status (ErrorContent "Access denied" message).

(** [GET /api/config]. *)
Definition config_route (GOOGLE_MAPS_API_KEY : option string) : Answer :=
  mkAnswer 200 (ConfigContent (if nonempty GOOGLE_MAPS_API_KEY
                               then GOOGLE_MAPS_API_KEY else None)).

(** [GET /api/installation/:id], after [requireAuth]. *)
Definition installation_handler
  (HUBSPOT_TOKEN : option string) (hubspotClient : ClientHandle) (id : string)
  (lookup : Settled Installation) : option Answer * list LogLine :=
  if negb (nonempty HUBSPOT_TOKEN)
  then (Some (mkAnswer 500 (ErrorContent "HubSpot not configured" None)), [])
  else
    match getInstallationById hubspotClient lookup with
    | (Fulfilled installation, logs) =>
        (Some (mkAnswer 200
                 (InstallationContent id (name installation)
                    (getFullAddress installation)
                    (address installation) (city installation)
                    (state installation) (zip installation))),
         logs)
    | (Rejected e, logs) =>
        (Some (mkAnswer 404 (ErrorContent "Installation not found" None)),
         (logs ++ [LogError ("Error fetching installation: " ++ error_message e)])%list)
    | (Crashed _, logs) => (None, logs)
    end.

Definition installation_route
  (SITE_PLAN_SECRET HUBSPOT_TOKEN : option string) (now : Z)
  (id : string) (token : option string) (lookup : Settled Installation)
  : option Answer * list LogLine :=
  match Server.requireAuth (request_id (Some id) None) token SITE_PLAN_SECRET now with
  | Server.Denied status message => (Some (denied status message), [])
  | Server.Next =>
      installation_handler HUBSPOT_TOKEN (startup_client HUBSPOT_TOKEN) id lookup
  end.

(** What Google's geocoder answered, as far as the handler reads it.
    [located] is the reading of [geometry.location.lat] and
    [geometry.location.lng] of a result. *)
Record GeoResult : Type :=
  mkGeoResult { located : Completion (option Json * option Json);
                formatted_address : option Json }.

Record GeoData : Type :=
  mkGeoData { geo_status : option string; results : option (list GeoResult) }.

Inductive GeoExchange : Type :=
| GeoFetchFailed (message : string)
| GeoUnreadable (message : string)
| GeoNull
| GeoAnswered (data : GeoData).

Definition geocode_url (address key : string) : string :=
  "https://maps.googleapis.com/maps/api/geocode/json?address="
    ++ Uri.encodeURIComponent address ++ "&key=" ++ key.

(** [GET /api/geocode], after [requireAuth]: the answer, the log and the
    URLs requested. *)
Definition geocode_handler
  (GOOGLE_MAPS_API_KEY : option string) (address : option string)
  (exchange : GeoExchange) : Answer * list LogLine * list string :=
  let failed message url :=
    (mkAnswer 500 (ErrorContent "Geocoding failed" None),
     [LogError ("Geocoding error: " ++ message)], [url]) in
  match address with
  | None | Some EmptyString =>
      (mkAnswer 400 (ErrorContent "Address is required" None), [], [])
  | Some text =>
      match GOOGLE_MAPS_API_KEY with
      | None | Some EmptyString =>
          (mkAnswer 500 (ErrorContent "Google Maps API not configured" None), [], [])
      | Some key =>
          let url := geocode_url text key in
          match exchange with
          | GeoFetchFailed message | GeoUnreadable message => failed message url
          | GeoNull =>
              failed "Cannot read properties of null (reading 'status')" url
          | GeoAnswered data =>
              let ok := match geo_status data with
                        | Some s => String.eqb s "OK"
                        | None => false
                        end in
              match ok, results data with
              | true, Some (first :: _) =>
                  match located first with
                  | Normal (lat, lng) =>
                      (mkAnswer 200 (GeocodeContent lat lng (formatted_address first)),
                       [], [url])
                  | Throw e => failed (error_message e) url
                  end
              | _, _ =>
                  (mkAnswer 404 (ErrorContent "Address not found" None), [], [url])
              end
          end
      end
  end.

Definition geocode_route
  (SITE_PLAN_SECRET GOOGLE_MAPS_API_KEY : option string) (now : Z)
  (address id token : option string) (exchange : GeoExchange)
  : Answer * list LogLine * list string :=
  match Server.requireAuth (request_id None id) token SITE_PLAN_SECRET now with
  | Server.Denied status message => (denied status message, [], [])
  | Server.Next => geocode_handler GOOGLE_MAPS_API_KEY address exchange
  end.

(** [GET /api/generate-url/:id].  [BASE_URL] and [PORT] are the environment
    variables; [PORT] defaults to 5000. *)
Definition generate_url_route
  (SITE_PLAN_SECRET BASE_URL PORT : option string) (now : Z) (id : string)
  : Answer * list LogLine :=
  if negb (nonempty SITE_PLAN_SECRET)
  then (mkAnswer 500 (ErrorContent "SITE_PLAN_SECRET not configured"
                        (Some "Cannot generate signed URLs without a secret")), [])
  else
    match Server.generateSignedToken id SITE_PLAN_SECRET now with
    | Throw e =>
        (mkAnswer 500 (ErrorContent (error_message e) None),
         [LogError ("Error generating URL: " ++ error_message e)])
    | Normal token =>
        let port := match PORT with
                    | Some (String c r) => String c r
                    | _ => "5000"
                    end in
        let baseUrl := match BASE_URL with
                       | Some (String c r) => String c r
                       | _ => "http://localhost:" ++ port
                       end in
        let signedUrl := baseUrl ++ "/?id=" ++ id ++ "&token=" ++ token in
        (mkAnswer 200 (SignedUrlContent id signedUrl "7 days"), [])
    end.

End Routes.

(** ** [public/app.js]: loading the page

    [init] and the functions it calls.  What each [fetch] ends with is an
    argument; the URLs requested are part of the result, in order. *)

Module Page.
Import JsRuntime Client.
Local Open Scope string_scope.
Local Open Scope Z_scope.

(** [params.get(...)]: [None] for [null]. *)
Record Params : Type :=
  mkParams { param_id : option string;
             param_token : option string;
             param_demo : option string }.

Definition given (v : option string) : bool :=
  match v with
  | Some (String _ _) => true
  | _ => false
  end.

Definition text_or (v : option string) (fallback : string) : string :=
  match v with
  | Some (String c r) => String c r
  | _ => fallback
  end.

(** [ConfigLoaded key]: the response was ok; [key] is the reading of
    [config.googleMapsApiKey] from its body. *)
Inductive ConfigFetch : Type :=
| ConfigFailed (message : string)
| ConfigNotOk
| ConfigLoaded (googleMapsApiKey : Completion (option string)).

(** The body of a response that is not ok is read for [message] and
    [error]; the body of one that is ok for [name] and [address]. *)
Inductive InstallationFetch : Type :=
| InstallationFailed (message : string)
| InstallationNotOk (data : Completion (option string * option string))
| InstallationLoaded (installation : Completion (option string * option string)).

(** [GeocodeLoaded]: [location.lat] and [location.lng] as a template literal
    writes them. *)
Inductive GeocodeFetch : Type :=
| GeocodeFailed (message : string)
| GeocodeNotOk
| GeocodeLoaded (location : Completion (string * string)).

(** [callbackImage] is the [img] that [fabric.Image.fromURL] hands to the
    callback of [loadSatelliteImage]: [None] when it is [null] or
    [undefined], [Some pictureLoaded] when it is an image object, whose
    picture was loaded or not.  Fabric hands an image object also when the
    picture could not be loaded. *)
Record World : Type :=
  mkWorld { config : ConfigFetch;
            installation : InstallationFetch;
            geocode : GeocodeFetch;
            callbackImage : option bool;
            containerWidth : Z;
            containerHeight : Z }.

(** The URLs the page requests. *)
Definition installation_url (id : string) (authToken : option string) : string :=
  if given authToken
  then "/api/installation/" ++ id ++ "?token="
         ++ Uri.encodeURIComponent (text_or authToken "")
  else "/api/installation/" ++ id.

Definition upload_url (installationId : string) (authToken : option string)
  : string :=
  if given authToken
  then "/api/installation/" ++ installationId ++ "/placement?token="
         ++ Uri.encodeURIComponent (text_or authToken "")
  else "/api/installation/" ++ installationId ++ "/placement".

Definition auth_params (installationId authToken : option string) : string :=
  (if given installationId
   then "&id=" ++ Uri.encodeURIComponent (text_or installationId "") else "")
  ++ (if given authToken
      then "&token=" ++ Uri.encodeURIComponent (text_or authToken "") else "").

Definition geocode_request (address : string) (installationId authToken : option string)
  : string :=
  "/api/geocode?address=" ++ Uri.encodeURIComponent address
    ++ auth_params installationId authToken.

Definition satellite_request
  (lat lng : string) (width height : Z) (installationId authToken : option string)
  : string :=
  "/api/satellite?lat=" ++ lat ++ "&lng=" ++ lng
    ++ "&width=" ++ number_to_string (Z.min width 640)
    ++ "&height=" ++ number_to_string (Z.min height 640)
    ++ "&zoom=20" ++ auth_params installationId authToken.

(** The three blocks of the page and the texts [init] writes. *)
Record View : Type :=
  mkView { loadingHidden : bool;
           mainHidden : bool;
           errorHidden : bool;
           errorMessage : string;
           customerName : string;
           addressText : string }.

Definition showError (message : string) (v : View) : View :=
  mkView true true false message (customerName v) (addressText v).

(** [for (let p = 0; p < extent; p += 40)]: how many times the body runs. *)
Fixpoint grid_steps (fuel : nat) (position extent : Z) : nat :=
  match fuel with
  | O => O
  | S fuel' =>
      if position <? extent then S (grid_steps fuel' (position + 40) extent)
      else O
  end.

Definition grid_lines (extent : Z) : nat := grid_steps (Z.to_nat extent) 0 extent.

(** The vertical lines, the horizontal lines and the text. *)
Definition addPlaceholderBackground (width height : Z) : list CanvasObject :=
  repeat Backdrop (grid_lines width) ++ repeat Backdrop (grid_lines height)
    ++ [Backdrop].

(** What [initCanvas] leaves behind the annotation: the image object set
    with [canvas.setBackgroundImage], or the placeholder objects. *)
Inductive Background : Type :=
| Satellite (pictureLoaded : bool)
| Placeholder.

Record Loaded : Type :=
  mkLoaded { view : View;
             googleMapsApiKey : option string;
             background : option Background;
             session : option Session;
             requests : list string }.

(** [error.message || 'Failed to load installation']. *)
Definition load_failure (message : string) : string :=
  if String.eqb message "" then "Failed to load installation" else message.

(** [initCanvas]: the background it ends with and what it requested. *)
Definition initCanvas
  (key : option string) (address : string) (p : Params) (w : World)
  : Background * list string :=
  if given key && negb (String.eqb address "")
  then
    let asked := geocode_request address (param_id p) (param_token p) in
    match geocode w with
    | GeocodeLoaded (Normal (lat, lng)) =>
        let image := satellite_request lat lng (containerWidth w) (containerHeight w)
                       (param_id p) (param_token p) in
        (* [if (!img) { reject(...); return; }] *)
        (match callbackImage w with
         | Some pictureLoaded => Satellite pictureLoaded
         | None => Placeholder
         end, [asked; image])
    | _ => (Placeholder, [asked])
    end
  else (Placeholder, []).

Definition canvas_session
  (b : Background) (w : World) (btn : SaveButton) (modalHidden : bool) : Session :=
  let objects := match b with
                 | Satellite _ => []
                 | Placeholder =>
                     addPlaceholderBackground (containerWidth w) (containerHeight w)
                 end in
  initial_session (length objects) btn modalHidden.

(** [init].  [v], [btn] and [modalHidden] are the page as the markup has
    it. *)
Definition init
  (p : Params) (w : World) (v : View) (btn : SaveButton) (modalHidden : bool)
  : Loaded :=
  let demoMode := match param_demo p with
                  | Some d => String.eqb d "true"
                  | None => false
                  end in
  if negb (given (param_id p)) && negb demoMode
  then mkLoaded
         (showError
            "No installation ID provided. Add ?id=INSTALLATION_ID or ?demo=true to the URL."
            v)
         None None None []
  else
    let failed message key asked :=
      mkLoaded (showError (load_failure message) v) key None None asked in
    match config w with
    | ConfigFailed message => failed message None ["/api/config"]
    | ConfigNotOk => failed "Failed to load config" None ["/api/config"]
    | ConfigLoaded (Throw e) => failed (error_message e) None ["/api/config"]
    | ConfigLoaded (Normal key) =>
        let show name address asked :=
          let '(b, more) := initCanvas key address p w in
          mkLoaded (mkView true false (errorHidden v) (errorMessage v) name address)
                   key (Some b) (Some (canvas_session b w btn modalHidden))
                   (asked ++ more)%list in
        if negb demoMode && given (param_id p)
        then
          let asked := ["/api/config";
                        installation_url (text_or (param_id p) "") (param_token p)] in
          match installation w with
          | InstallationFailed message => failed message key asked
          | InstallationNotOk (Throw e) => failed (error_message e) key asked
          | InstallationNotOk (Normal (message, error)) =>
              failed (text_or message (text_or error "Installation not found"))
                     key asked
          | InstallationLoaded (Throw e) => failed (error_message e) key asked
          | InstallationLoaded (Normal (name, address)) =>
              show (text_or name "Unknown") (text_or address "No address") asked
          end
        else show "Demo Customer" "123 Main St, Denver, CO 80202" ["/api/config"]
    end.

End Page.

(** ** Observations of the canvas and runs of events *)

Module Drawing.
Import Client.
Local Open Scope Z_scope.

(** Where the point markers are, bottom of the canvas first. *)
Definition point_markers (objs : list CanvasObject) : list Point :=
  flat_map (fun obj =>
              match obj with
              | PointMarker px py => [mkPoint px py]
              | _ => []
              end) objs.

(** The ends of the line segments, bottom of the canvas first. *)
Definition segments (objs : list CanvasObject) : list (Point * Point) :=
  flat_map (fun obj =>
              match obj with
              | LineSegment x1 y1 x2 y2 _ => [(mkPoint x1 y1, mkPoint x2 y2)]
              | _ => []
              end) objs.

(** The pairs of neighbours of a path. *)
Fixpoint consecutive (points : list Point) : list (Point * Point) :=
  match points with
  | p :: (q :: _) as rest => (p, q) :: consecutive rest
  | _ => []
  end.

(** What [clearAll] keeps. *)
Definition background_objects (objs : list CanvasObject) : list CanvasObject :=
  filter (fun obj => negb (isUnit obj || isLinePoint obj || isLineSegment obj)) objs.

(** The events of [events] one after the other. *)
Definition run (events : list Event) (s : Session) : Session :=
  fold_left (fun s e => step e s) events s.

End Drawing.

(** * Properties of the runtime functions and of the tokens *)

Module RuntimeFacts.
Import JsRuntime.

(** ** Checking a property of all small numbers by evaluation *)

Lemma below_checked (P : N -> bool) (bound : nat) :
  forallb P (map N.of_nat (seq 0 bound)) = true ->
  forall n, (n < N.of_nat bound)%N -> P n = true.
Proof.
  intros Hall n Hn. rewrite forallb_forall in Hall. apply Hall.
  apply in_map_iff. exists (N.to_nat n). split.
  - apply N2Nat.id.
  - apply in_seq. lia.
Qed.

Lemma code_bounded c : (code c < 256)%N.
Proof. apply N_ascii_bounded. Qed.

Lemma ascii_of_code c : ascii_of_N (code c) = c.
Proof. apply ascii_N_embedding. Qed.

Lemma text_of_bytes (b : Buffer) :
  list_ascii_of_string (string_of_list_ascii b) = b.
Proof. apply list_ascii_of_string_of_list_ascii. Qed.

(** ** Text of ASCII characters

    On such a text the code units are the bytes: the decoders read it byte by
    byte and [buf.toString('utf8')] keeps it. *)

Fixpoint plain (cs : list ascii) : Prop :=
  match cs with
  | [] => True
  | c :: rest => (code c < 128)%N /\ plain rest
  end.

Lemma utf8_decode_plain cs : plain cs -> utf8_decode Utf8Start cs = map code cs.
Proof.
  induction cs as [|c cs IH]; [reflexivity|].
  intros [Hc Hcs]. cbn [utf8_decode map]. unfold utf8_lead.
  replace (code c <=? 127)%N with true by (symmetry; apply N.leb_le; lia).
  cbn [app]. rewrite (IH Hcs). reflexivity.
Qed.

Lemma low_bytes_of_codes cs :
  plain cs -> map low_byte (flat_map utf16_units (map code cs)) = cs.
Proof.
  induction cs as [|c cs IH]; [reflexivity|].
  intros [Hc Hcs].
  change (map low_byte (utf16_units (code c) ++ flat_map utf16_units (map code cs))
          = c :: cs).
  rewrite map_app, (IH Hcs). unfold utf16_units.
  replace (code c <? 65536)%N with true by (symmetry; apply N.ltb_lt; lia).
  cbn [map]. unfold low_byte. rewrite N.mod_small by lia.
  rewrite ascii_of_code. reflexivity.
Qed.

Lemma low_bytes_plain s :
  plain (list_ascii_of_string s) -> low_bytes s = list_ascii_of_string s.
Proof.
  unfold low_bytes, code_units. intros H. rewrite (utf8_decode_plain _ H).
  apply low_bytes_of_codes. exact H.
Qed.

Lemma toString_utf8_plain (b : Buffer) :
  plain b -> Buffer_toString_utf8 b = string_of_list_ascii b.
Proof.
  unfold Buffer_toString_utf8. intros H. rewrite (utf8_decode_plain _ H). f_equal.
  induction b as [|c b IH]; [reflexivity|].
  destruct H as [Hc Hb].
  change (utf8_encode (code c) ++ flat_map utf8_encode (map code b) = c :: b).
  rewrite (IH Hb). unfold utf8_encode.
  replace (code c <? 128)%N with true by (symmetry; apply N.ltb_lt; exact Hc).
  rewrite ascii_of_code. reflexivity.
Qed.

(** ** Hexadecimal *)

Lemma unhex_hex_digit n :
  (n < 16)%N -> unhex (hex_digit n) = Some n /\ hex_digit n <> ":"%char.
Proof.
  intros Hn.
  pose proof (below_checked
    (fun n => match unhex (hex_digit n) with
              | Some m => N.eqb m n && negb (Ascii.eqb (hex_digit n) ":")
              | None => false
              end) 16 eq_refl n Hn) as H.
  cbv beta in H. destruct (unhex (hex_digit n)) as [m|]; [|discriminate].
  apply andb_prop in H. destruct H as [H1 H2].
  apply N.eqb_eq in H1. subst m. split; [reflexivity|].
  intros E. rewrite E in H2. discriminate.
Qed.

Lemma hex_digit_plain n : (n < 16)%N -> (code (hex_digit n) < 128)%N.
Proof.
  intros Hn. apply N.ltb_lt.
  exact (below_checked (fun n => (code (hex_digit n) <? 128)%N) 16 eq_refl n Hn).
Qed.

Lemma hex_chars_plain (b : Buffer) : plain (hex_chars b).
Proof.
  induction b as [|c b IH]; [exact I|].
  cbn [hex_chars plain]. repeat split; [| |exact IH]; apply hex_digit_plain.
  - apply N.Div0.div_lt_upper_bound. pose proof (code_bounded c). lia.
  - apply N.mod_lt; lia.
Qed.

Lemma hex_roundtrip (b : Buffer) : Buffer_from_hex (Buffer_toString_hex b) = b.
Proof.
  unfold Buffer_from_hex, Buffer_toString_hex.
  rewrite low_bytes_plain by (rewrite text_of_bytes; apply hex_chars_plain).
  rewrite text_of_bytes.
  induction b as [|c b IH]; [reflexivity|].
  cbn [hex_chars unhex_pairs].
  assert (Hhi : (code c / 16 < 16)%N).
  { apply N.Div0.div_lt_upper_bound. pose proof (code_bounded c). lia. }
  assert (Hlo : (code c mod 16 < 16)%N) by (apply N.mod_lt; lia).
  destruct (unhex_hex_digit _ Hhi) as [-> _].
  destruct (unhex_hex_digit _ Hlo) as [-> _].
  rewrite IH. f_equal.
  rewrite <- (ascii_of_code c) at 3. f_equal.
  symmetry. apply N.div_mod. lia.
Qed.

(** ** base64url *)

Lemma unbase64_char n :
  (n < 64)%N ->
  unbase64 (base64url_char n) = Some n /\ (code (base64url_char n) =? 61)%N = false.
Proof.
  intros Hn.
  pose proof (below_checked
    (fun n => match unbase64 (base64url_char n) with
              | Some m => N.eqb m n && negb (code (base64url_char n) =? 61)%N
              | None => false
              end) 64 eq_refl n Hn) as H.
  cbv beta in H. destruct (unbase64 (base64url_char n)) as [m|]; [|discriminate].
  apply andb_prop in H. destruct H as [H1 H2].
  apply N.eqb_eq in H1. subst m. split; [reflexivity|].
  apply negb_true_iff. exact H2.
Qed.

Lemma sextets_of_chars vs :
  Forall (fun v => (v < 64)%N) vs -> sextets (map base64url_char vs) = vs.
Proof.
  induction 1 as [|v vs Hv _ IH]; [reflexivity|].
  cbn [map sextets].
  destruct (unbase64_char v Hv) as [-> ->]. rewrite IH. reflexivity.
Qed.

Ltac euclid := zify; Z.to_euclidean_division_equations; lia.

Lemma groups_roundtrip_bounded n : forall bs,
  (length bs <= n)%nat ->
  Forall (fun b => (b < 256)%N) bs ->
  unbase64_groups (base64url_groups bs) = bs
  /\ Forall (fun v => (v < 64)%N) (base64url_groups bs).
Proof.
  induction n as [|n IH]; intros bs Hlen Hbs.
  - destruct bs; [split; [reflexivity|constructor]|simpl in Hlen; lia].
  - destruct bs as [|b0 [|b1 [|b2 rest]]].
    + split; [reflexivity|constructor].
    + inversion_clear Hbs as [|? ? H0 _]. cbn [base64url_groups unbase64_groups].
      split; [f_equal; euclid|repeat constructor; euclid].
    + inversion_clear Hbs as [|? ? H0 Hbs']. inversion_clear Hbs' as [|? ? H1 _].
      cbn [base64url_groups unbase64_groups].
      split; [repeat f_equal; euclid|repeat constructor; euclid].
    + inversion_clear Hbs as [|? ? H0 Hbs']. inversion_clear Hbs' as [|? ? H1 Hbs].
      inversion_clear Hbs as [|? ? H2 Hrest].
      destruct (IH rest ltac:(simpl in Hlen; lia) Hrest) as [IHeq IHall].
      cbn [base64url_groups unbase64_groups]. rewrite IHeq.
      split; [repeat f_equal; euclid|repeat constructor; try euclid; exact IHall].
Qed.

Lemma codes_bounded (b : Buffer) : Forall (fun v => (v < 256)%N) (map code b).
Proof.
  induction b as [|c b IH]; constructor; [apply code_bounded|exact IH].
Qed.

Lemma base64url_char_plain n : (n < 64)%N -> (code (base64url_char n) < 128)%N.
Proof.
  intros Hn. apply N.ltb_lt.
  exact (below_checked (fun n => (code (base64url_char n) <? 128)%N) 64 eq_refl n Hn).
Qed.

Lemma base64url_chars_plain vs :
  Forall (fun v => (v < 64)%N) vs -> plain (map base64url_char vs).
Proof.
  induction 1 as [|v vs Hv _ IH]; [exact I|].
  split; [apply base64url_char_plain; exact Hv|exact IH].
Qed.

Lemma base64url_roundtrip (b : Buffer) :
  Buffer_from_base64url (Buffer_toString_base64url b) = b.
Proof.
  unfold Buffer_from_base64url, Buffer_toString_base64url.
  destruct (groups_roundtrip_bounded (length (map code b)) (map code b)
              (le_n _) (codes_bounded b)) as [Heq Hall].
  rewrite low_bytes_plain
    by (rewrite text_of_bytes; apply base64url_chars_plain; exact Hall).
  rewrite text_of_bytes.
  rewrite (sextets_of_chars _ Hall), Heq, map_map.
  rewrite (map_ext _ (fun c => c) ascii_of_code). apply map_id.
Qed.

Lemma base64url_nonempty (b : Buffer) :
  b <> [] -> exists c r, Buffer_toString_base64url b = String c r.
Proof.
  intros Hb. unfold Buffer_toString_base64url.
  destruct b as [|c0 [|c1 [|c2 rest]]]; [contradiction| | |];
    cbn [map base64url_groups string_of_list_ascii]; eauto.
Qed.

(** ** Splitting *)

Section Splitting.

Variable sep : ascii.

Fixpoint without (s : string) : Prop :=
  match s with
  | EmptyString => True
  | String c r => c <> sep /\ without r
  end.

Lemma split_without s : without s -> split sep s = [s].
Proof.
  induction s as [|c r IH]; [reflexivity|].
  intros [Hc Hr]. cbn [split].
  apply Ascii.eqb_neq in Hc. rewrite Hc, (IH Hr). reflexivity.
Qed.

Lemma split_two a b :
  without a -> without b -> split sep (a ++ String sep b) = [a; b].
Proof.
  intros Ha Hb. induction a as [|c r IH].
  - cbn [append split]. rewrite Ascii.eqb_refl, (split_without b Hb).
    reflexivity.
  - destruct Ha as [Hc Hr]. cbn [append split].
    apply Ascii.eqb_neq in Hc. rewrite Hc, (IH Hr). reflexivity.
Qed.

End Splitting.

Lemma hex_without_colon (b : Buffer) : without ":" (Buffer_toString_hex b).
Proof.
  unfold Buffer_toString_hex.
  induction b as [|c b IH]; [exact I|].
  cbn [hex_chars string_of_list_ascii without].
  assert (Hhi : (code c / 16 < 16)%N).
  { apply N.Div0.div_lt_upper_bound. pose proof (code_bounded c). lia. }
  assert (Hlo : (code c mod 16 < 16)%N) by (apply N.mod_lt; lia).
  repeat split; [apply (unhex_hex_digit _ Hhi)|apply (unhex_hex_digit _ Hlo)|exact IH].
Qed.

(** ** Decimal numerals *)

Definition is_digit (c : ascii) : bool := ((48 <=? code c) && (code c <=? 57))%N.

Fixpoint all_digits (s : string) : Prop :=
  match s with
  | EmptyString => True
  | String c r => is_digit c = true /\ all_digits r
  end.

Lemma all_digits_uint d : all_digits (NilEmpty.string_of_uint d).
Proof. induction d; cbn [NilEmpty.string_of_uint all_digits]; auto. Qed.

Lemma digit_not_colon c : is_digit c = true -> c <> ":"%char.
Proof. intros H E. subst c. discriminate. Qed.

Lemma all_digits_without_colon s : all_digits s -> without ":" s.
Proof.
  induction s as [|c r IH]; [exact (fun H => H)|].
  intros [Hc Hr]. split; [apply digit_not_colon; exact Hc|apply IH; exact Hr].
Qed.

Lemma number_without_colon z : without ":" (number_to_string z).
Proof.
  unfold number_to_string.
  assert (H : forall d, without ":" (NilZero.string_of_uint d)).
  { intros d. destruct d; try (apply all_digits_without_colon, all_digits_uint).
    split; [discriminate|exact I]. }
  destruct z; cbn [Z.to_int NilZero.string_of_int]; try apply H.
  split; [discriminate|apply H].
Qed.

Lemma digits_value_cons c r acc v :
  digit_of c = Some v ->
  digits_value acc (String c r) = digits_value (10 * acc + v) r.
Proof. intros H. cbn [digits_value]. rewrite H. reflexivity. Qed.

Lemma digits_value_acc d p :
  digits_value (N.pos p) (NilEmpty.string_of_uint d) = N.pos (Pos.of_uint_acc d p).
Proof.
  revert p. induction d; intros p; cbn [NilEmpty.string_of_uint Pos.of_uint_acc];
    [reflexivity|..];
    erewrite digits_value_cons by reflexivity;
    rewrite <- IHd; f_equal;
    match goal with
    | |- context [(code ?c - 48)%N] =>
        let v := eval vm_compute in (code c - 48)%N in
        change (code c - 48)%N with v
    end; lia.
Qed.

Lemma digits_value_uint d :
  digits_value 0 (NilEmpty.string_of_uint d) = Pos.of_uint d.
Proof.
  induction d; cbn [NilEmpty.string_of_uint Pos.of_uint]; [reflexivity|..];
    erewrite digits_value_cons by reflexivity;
    match goal with
    | |- context [(code ?c - 48)%N] =>
        let v := eval vm_compute in (code c - 48)%N in
        change (code c - 48)%N with v
    end;
    [exact IHd|apply digits_value_acc..].
Qed.

Lemma digit_of_digit c : is_digit c = true -> exists v, digit_of c = Some v.
Proof. unfold is_digit, digit_of. intros ->. eauto. Qed.

(** A character below 128 that is not white space stops [skip_space]. *)
Lemma skip_space_stops c r :
  (code c <? 128)%N = true -> ascii_space c = false ->
  skip_space (String c r) = String c r.
Proof.
  intros Hlow Hsp. apply N.ltb_lt in Hlow.
  assert (H2 : forall c2, space2 c c2 = false).
  { intros c2. unfold space2. replace (code c =? 194)%N with false; [reflexivity|].
    symmetry. apply N.eqb_neq. lia. }
  assert (H3 : forall c2 c3, space3 c c2 c3 = false).
  { intros c2 c3. unfold space3.
    replace (code c =? 225)%N with false by (symmetry; apply N.eqb_neq; lia).
    replace (code c =? 226)%N with false by (symmetry; apply N.eqb_neq; lia).
    replace (code c =? 227)%N with false by (symmetry; apply N.eqb_neq; lia).
    replace (code c =? 239)%N with false by (symmetry; apply N.eqb_neq; lia).
    reflexivity. }
  cbn [skip_space]. rewrite Hsp.
  destruct r as [|c2 [|c3 r3]]; [reflexivity| |]; rewrite H2; [reflexivity|].
  rewrite H3. reflexivity.
Qed.

Lemma digit_facts c :
  is_digit c = true ->
  (code c <? 128)%N = true /\ ascii_space c = false
  /\ (code c =? 45)%N = false /\ (code c =? 43)%N = false.
Proof.
  unfold is_digit, ascii_space. intros H. apply andb_prop in H. destruct H as [H1 H2].
  apply N.leb_le in H1, H2.
  repeat split.
  - apply N.ltb_lt. lia.
  - apply orb_false_intro; [apply andb_false_intro2|]; [apply N.leb_gt|apply N.eqb_neq]; lia.
  - apply N.eqb_neq. lia.
  - apply N.eqb_neq. lia.
Qed.

Lemma parseInt_digits s :
  s <> EmptyString -> all_digits s ->
  parseInt s = Some (Z.of_N (digits_value 0 s))
  /\ parseInt (String "-" s) = Some (- Z.of_N (digits_value 0 s))%Z.
Proof.
  intros Hne Hd. destruct s as [|c r]; [contradiction|].
  destruct Hd as [Hc _].
  destruct (digit_facts c Hc) as (Hlow & Hsp & Hminus & Hplus).
  destruct (digit_of_digit c Hc) as [v Hv].
  split.
  - unfold parseInt. rewrite (skip_space_stops c r Hlow Hsp), Hminus, Hplus.
    cbn [starts_with_digit]. rewrite Hv. reflexivity.
  - unfold parseInt. rewrite (skip_space_stops "-" (String c r) eq_refl eq_refl).
    change (code "-" =? 45)%N with true. cbn iota.
    cbn [starts_with_digit]. rewrite Hv. reflexivity.
Qed.

Lemma uint_string_nonempty d : d <> Nil -> NilEmpty.string_of_uint d <> EmptyString.
Proof. destruct d; [contradiction|..]; discriminate. Qed.

Lemma parseInt_number z : parseInt (number_to_string z) = Some z.
Proof.
  unfold number_to_string.
  destruct z as [|p|p]; [reflexivity| |]; cbn [Z.to_int NilZero.string_of_int];
    pose proof (Unsigned.to_uint_nonnil p) as Hnil;
    assert (Hs : NilZero.string_of_uint (Pos.to_uint p)
                 = NilEmpty.string_of_uint (Pos.to_uint p))
      by (destruct (Pos.to_uint p); [contradiction|reflexivity..]);
    rewrite Hs;
    destruct (parseInt_digits _ (uint_string_nonempty _ Hnil) (all_digits_uint _))
      as [Hpos Hneg];
    [rewrite Hpos|rewrite Hneg];
    rewrite digits_value_uint, Unsigned.of_to; reflexivity.
Qed.

(** ** Buffers *)

Lemma Buffer_equals_eq (a b : Buffer) : Buffer_equals a b = true <-> a = b.
Proof.
  revert b. induction a as [|x a IH]; intros [|y b]; cbn [Buffer_equals];
    try (split; [discriminate|discriminate]); [split; reflexivity|].
  rewrite andb_true_iff, Ascii.eqb_eq, IH. split.
  - intros [-> ->]. reflexivity.
  - intros E. injection E as -> ->. split; reflexivity.
Qed.

Lemma timingSafeEqual_same (a : Buffer) : timingSafeEqual a a = Normal true.
Proof.
  unfold timingSafeEqual. rewrite Nat.eqb_refl.
  f_equal. apply Buffer_equals_eq. reflexivity.
Qed.

Lemma timingSafeEqual_differ (a b : Buffer) :
  length a = length b -> a <> b -> timingSafeEqual a b = Normal false.
Proof.
  intros Hlen Hne. unfold timingSafeEqual. rewrite Hlen, Nat.eqb_refl.
  f_equal. apply not_true_is_false. intros H. apply Hne, Buffer_equals_eq, H.
Qed.

Lemma utf8_roundtrip (s : string) :
  plain (list_ascii_of_string s) -> Buffer_toString_utf8 (Buffer_from_utf8 s) = s.
Proof.
  intros H. unfold Buffer_from_utf8. rewrite (toString_utf8_plain _ H).
  apply string_of_list_ascii_of_string.
Qed.

Lemma utf8_injective (s t : string) :
  Buffer_from_utf8 s = Buffer_from_utf8 t -> s = t.
Proof.
  unfold Buffer_from_utf8. intros H.
  rewrite <- (string_of_list_ascii_of_string s), <- (string_of_list_ascii_of_string t), H.
  reflexivity.
Qed.

(** ** Counting: more arguments than values *)

Section Pigeonhole.

Variables X A : Type.
Hypothesis A_eq_dec : forall a b : A, {a = b} + {a <> b}.
Variable f : X -> A.

(** When [f] sends more arguments than there are values, two of them have
    the same value. *)
Lemma pigeonhole (values : list A) : forall xs : list X,
  NoDup xs ->
  (forall x, In x xs -> In (f x) values) ->
  (length values < length xs)%nat ->
  exists x y, In x xs /\ In y xs /\ x <> y /\ f x = f y.
Proof.
  induction values as [|a values IH]; intros xs Hnd Hin Hlen.
  - destruct xs as [|x xs]; [cbn in Hlen; lia|].
    destruct (Hin x (or_introl eq_refl)).
  - set (hits := fun x => if A_eq_dec (f x) a then true else false).
    pose proof (filter_length hits xs) as Hsplit.
    pose proof (NoDup_filter hits Hnd) as Hnd'.
    assert (Hhit : forall x, In x (filter hits xs) <-> In x xs /\ f x = a).
    { intros x. rewrite filter_In. unfold hits.
      destruct (A_eq_dec (f x) a); split; intros [H1 H2]; split;
        first [assumption|reflexivity|discriminate|contradiction]. }
    destruct (filter hits xs) as [|x [|y others]].
    + apply (IH xs Hnd); [|cbn in Hlen; lia].
      intros x Hx. destruct (Hin x Hx) as [Ha|Hrest]; [|exact Hrest].
      exfalso. apply (proj2 (Hhit x)). split; [exact Hx|symmetry; exact Ha].
    + destruct (IH (filter (fun x => negb (hits x)) xs))
        as (u & v & Hu & Hv & Huv & Hf).
      * apply NoDup_filter. exact Hnd.
      * intros z Hz. apply filter_In in Hz. destruct Hz as [Hz Hmiss].
        destruct (Hin z Hz) as [Ha|Hrest]; [|exact Hrest].
        unfold hits in Hmiss. destruct (A_eq_dec (f z) a); [discriminate|].
        exfalso. auto.
      * cbn [length] in Hsplit, Hlen. lia.
      * exists u, v. apply filter_In in Hu, Hv.
        repeat split; [apply Hu|apply Hv|exact Huv|exact Hf].
    + exists x, y.
      destruct (proj1 (Hhit x) (or_introl eq_refl)) as [Hx Hfx].
      destruct (proj1 (Hhit y) (or_intror (or_introl eq_refl))) as [Hy Hfy].
      repeat split; [exact Hx|exact Hy| |congruence].
      inversion_clear Hnd' as [|? ? Hnotin _]. intros ->. apply Hnotin.
      left. reflexivity.
Qed.

End Pigeonhole.

(** Every word of [n] characters of an alphabet. *)
Fixpoint all_words (alphabet : list ascii) (n : nat) : list (list ascii) :=
  match n with
  | O => [[]]
  | S n' => flat_map (fun c => map (cons c) (all_words alphabet n')) alphabet
  end.

Lemma all_words_complete alphabet (w : list ascii) :
  Forall (fun c => In c alphabet) w -> In w (all_words alphabet (length w)).
Proof.
  induction 1 as [|c w Hc _ IH]; [left; reflexivity|].
  cbn [length all_words]. apply in_flat_map. exists c.
  split; [exact Hc|]. apply in_map. exact IH.
Qed.

Lemma all_words_sound alphabet n : forall w,
  In w (all_words alphabet n) ->
  length w = n /\ Forall (fun c => In c alphabet) w.
Proof.
  induction n as [|n IH]; intros w Hw.
  - destruct Hw as [<-|[]]. split; [reflexivity|constructor].
  - cbn [all_words] in Hw. apply in_flat_map in Hw. destruct Hw as (c & Hc & Hw).
    apply in_map_iff in Hw. destruct Hw as (w' & <- & Hw').
    destruct (IH w' Hw') as [Hlen Hall].
    split; [cbn [length]; rewrite Hlen; reflexivity|constructor; assumption].
Qed.

Lemma prefixed_NoDup (words : list (list ascii)) (alphabet : list ascii) :
  NoDup words -> NoDup alphabet ->
  NoDup (flat_map (fun c => map (cons c) words) alphabet).
Proof.
  intros Hwords. induction alphabet as [|c rest IH]; intros Hnd; [constructor|].
  cbn [flat_map]. inversion_clear Hnd as [|? ? Hc Hrest].
  apply NoDup_app.
  - apply NoDup_map_NoDup_ForallPairs; [|exact Hwords].
    intros w1 w2 _ _ H. injection H as H. exact H.
  - apply IH. exact Hrest.
  - intros w Hw1 Hw2. apply in_map_iff in Hw1. destruct Hw1 as (w1 & <- & _).
    apply in_flat_map in Hw2. destruct Hw2 as (c' & Hc' & Hw2).
    apply in_map_iff in Hw2. destruct Hw2 as (w2 & H & _).
    injection H as -> _. contradiction.
Qed.

Lemma all_words_NoDup alphabet n : NoDup alphabet -> NoDup (all_words alphabet n).
Proof.
  intros Hnd. induction n as [|n IH]; [repeat constructor; intros []|].
  cbn [all_words]. apply prefixed_NoDup; assumption.
Qed.

Lemma all_words_count alphabet n :
  Z.of_nat (length (all_words alphabet n))
  = (Z.of_nat (length alphabet) ^ Z.of_nat n)%Z.
Proof.
  induction n as [|n IH]; [reflexivity|].
  cbn [all_words].
  rewrite (flat_map_constant_length (c := length (all_words alphabet n))).
  - rewrite Nat2Z.inj_mul, IH, Nat2Z.inj_succ, Z.pow_succ_r by lia. reflexivity.
  - intros c _. apply length_map.
Qed.

(** Every buffer of [n] bytes. *)
Definition all_bytes : list ascii := map ascii_of_nat (seq 0 256).

Definition all_buffers (n : nat) : list Buffer := all_words all_bytes n.

Lemma all_bytes_complete c : In c all_bytes.
Proof.
  unfold all_bytes. apply in_map_iff. exists (nat_of_ascii c).
  split; [apply ascii_nat_embedding|].
  apply in_seq. pose proof (nat_ascii_bounded c). lia.
Qed.

Lemma all_buffers_complete (b : Buffer) : In b (all_buffers (length b)).
Proof.
  apply all_words_complete. apply Forall_forall. intros c _.
  apply all_bytes_complete.
Qed.

(** ** The text inside a token: a numeral, a colon and hexadecimal digits *)

Lemma plain_append (a b : string) :
  plain (list_ascii_of_string a) -> plain (list_ascii_of_string b) ->
  plain (list_ascii_of_string (a ++ b)).
Proof.
  intros Ha Hb. induction a as [|c a IH]; [exact Hb|].
  destruct Ha as [Hc Ha]. split; [exact Hc|apply IH; exact Ha].
Qed.

Lemma digits_plain s : all_digits s -> plain (list_ascii_of_string s).
Proof.
  induction s as [|c r IH]; [exact (fun _ => I)|].
  intros [Hc Hr]. split; [|apply IH; exact Hr].
  unfold is_digit in Hc. apply andb_prop in Hc. destruct Hc as [_ Hc].
  apply N.leb_le in Hc. lia.
Qed.

Lemma number_plain n : plain (list_ascii_of_string (number_to_string n)).
Proof.
  unfold number_to_string.
  assert (H : forall d, plain (list_ascii_of_string (NilZero.string_of_uint d))).
  { intros d. destruct d; try (apply digits_plain, all_digits_uint).
    split; [vm_compute; reflexivity|exact I]. }
  destruct n; cbn [Z.to_int NilZero.string_of_int]; try apply H.
  split; [vm_compute; reflexivity|apply H].
Qed.

Lemma payload_plain n (b : Buffer) :
  plain (list_ascii_of_string (number_to_string n ++ ":" ++ Buffer_toString_hex b)).
Proof.
  apply plain_append; [apply number_plain|].
  split; [vm_compute; reflexivity|].
  change (plain (list_ascii_of_string (Buffer_toString_hex b))).
  unfold Buffer_toString_hex. rewrite text_of_bytes. apply hex_chars_plain.
Qed.

End RuntimeFacts.

Module Sha256Facts.
Import JsRuntime Sha256.

Lemma be_bytes_length count v : length (be_bytes count v) = count.
Proof. unfold be_bytes. rewrite length_map, length_rev, length_seq. reflexivity. Qed.

Lemma digest_length st : length (digest_bytes st) = 32%nat.
Proof.
  unfold digest_bytes. rewrite length_map. cbn [flat_map].
  rewrite !length_app, !be_bytes_length. reflexivity.
Qed.

Lemma sha256_length msg : length (sha256 msg) = 32%nat.
Proof. apply digest_length. Qed.

Lemma hmac_sha256_length key msg : length (hmac_sha256 key msg) = 32%nat.
Proof. apply sha256_length. Qed.

(** The implementation agrees with the published test vectors. *)
Example sha256_abc :
  Buffer_toString_hex (sha256 (Buffer_from_utf8 "abc"))
  = "ba7816bf8f01cfea414140de5dae2223b00361a396177a9cb410ff61f20015ad"%string.
Proof. vm_compute. reflexivity. Qed.

Example hmac_sha256_rfc4231_case2 :
  Buffer_toString_hex
    (hmac_sha256 (Buffer_from_utf8 "Jefe")
                 (Buffer_from_utf8 "what do ya want for nothing?"))
  = "5bdcc146bf60754e6a042426089575c75a003f089d2739839dec58b964ec3843"%string.
Proof. vm_compute. reflexivity. Qed.

(** A key longer than a block is hashed first. *)
Example hmac_sha256_long_key :
  Buffer_toString_hex
    (hmac_sha256 (repeat "k"%char 70) (Buffer_from_utf8 "1001:1700604800000"))
  = "ee01fb4008e76bdfd373983c5aaf5a502062d5ce171da5a83982a0da75882325"%string.
Proof. vm_compute. reflexivity. Qed.

End Sha256Facts.

Module TokenFacts.
Import JsRuntime Server RuntimeFacts.
Local Open Scope string_scope.
Local Open Scope Z_scope.

(** What [generateSignedToken] puts in a token. *)
Definition signed_data (installationId : string) (expiry : Z) : string :=
  installationId ++ ":" ++ number_to_string expiry.

Definition digest (key installationId : string) (expiry : Z) : Buffer :=
  Sha256.hmac_sha256 (Buffer_from_utf8 key)
                     (Buffer_from_utf8 (signed_data installationId expiry)).

Definition token_for (key installationId : string) (expiry : Z) : string :=
  Buffer_toString_base64url
    (Buffer_from_utf8
       (number_to_string expiry ++ ":"
          ++ Buffer_toString_hex (digest key installationId expiry))).

Lemma token_for_nonempty key installationId expiry :
  exists c r, token_for key installationId expiry = String c r.
Proof.
  apply base64url_nonempty. unfold Buffer_from_utf8.
  destruct (number_to_string expiry); discriminate.
Qed.

(** Checking, for installation [presented], a token minted for [minted]. *)
Lemma checkToken_minted key minted presented expiry now :
  checkToken presented (token_for key minted expiry) key now
  = if now >? expiry then Normal (rejected "Token has expired")
    else bind (timingSafeEqual (digest key minted expiry)
                               (digest key presented expiry))
              (fun same => if negb same
                           then Normal (rejected "Invalid token signature")
                           else Normal accepted).
Proof.
  unfold checkToken, token_for.
  rewrite base64url_roundtrip, utf8_roundtrip by apply payload_plain.
  change (number_to_string expiry ++ ":" ++ ?sig)
    with (number_to_string expiry ++ String ":" sig).
  rewrite (split_two ":" _ _ (number_without_colon expiry) (hex_without_colon _)).
  cbn [nth nth_error]. rewrite parseInt_number.
  destruct (now >? expiry); [reflexivity|].
  cbn [Buffer_from_hex_value bind]. unfold hmac_hex.
  rewrite !hex_roundtrip. reflexivity.
Qed.

Lemma verifySignedToken_checked installationId c r c' k now :
  verifySignedToken installationId (Some (String c r)) (Some (String c' k)) now
  = try_catch (checkToken installationId (String c r) (String c' k) now)
              (fun _ => rejected "Invalid token format").
Proof. reflexivity. Qed.

Lemma list_ascii_append (a b : string) :
  list_ascii_of_string (a ++ b)
  = (list_ascii_of_string a ++ list_ascii_of_string b)%list.
Proof. induction a as [|c a IH]; [reflexivity|]. simpl. rewrite IH. reflexivity. Qed.

Lemma append_inv_tail (a b tail : string) : a ++ tail = b ++ tail -> a = b.
Proof.
  intros H. apply utf8_injective. unfold Buffer_from_utf8.
  apply (f_equal list_ascii_of_string) in H.
  rewrite !list_ascii_append in H. exact (app_inv_tail _ _ _ H).
Qed.

(** Two texts signed under [key] that have the same digest are the same
    text. *)
Definition collision_free (key data1 data2 : string) : Prop :=
  Sha256.hmac_sha256 (Buffer_from_utf8 key) (Buffer_from_utf8 data1)
  = Sha256.hmac_sha256 (Buffer_from_utf8 key) (Buffer_from_utf8 data2) ->
  data1 = data2.

(** C1.  With a non-empty secret, the token minted at [t0] for an
    installation is accepted at [t1] for that installation under that secret
    exactly when [t1 <= t0 + 7 days] (in milliseconds). *)
Theorem minted_token_valid_until_expiry
  (installationId secret : string) (t0 t1 : Z) :
  secret <> "" ->
  exists token,
    generateSignedToken installationId (Some secret) t0 = Normal token
    /\ (valid (verifySignedToken installationId (Some token) (Some secret) t1) = true
        <-> t1 <= t0 + 7 * 24 * 60 * 60 * 1000).
Proof.
  intros Hsecret. destruct secret as [|c k]; [contradiction|].
  exists (token_for (String c k) installationId (t0 + TOKEN_EXPIRY_MS)).
  split; [reflexivity|].
  destruct (token_for_nonempty (String c k) installationId (t0 + TOKEN_EXPIRY_MS))
    as (c' & r & Htok).
  rewrite Htok, verifySignedToken_checked, <- Htok, checkToken_minted.
  change (7 * 24 * 60 * 60 * 1000) with TOKEN_EXPIRY_MS.
  destruct (t1 >? t0 + TOKEN_EXPIRY_MS) eqn:E.
  - cbn [try_catch valid rejected]. split; [discriminate|].
    apply Z.gtb_lt in E. intros H. exfalso. lia.
  - rewrite timingSafeEqual_same. cbn [bind negb try_catch valid accepted].
    split; [|reflexivity].
    intros _. rewrite Z.gtb_ltb in E. apply Z.ltb_ge in E. exact E.
Qed.

Lemma minted_token_valid_until_expiry_witness :
  exists token,
    generateSignedToken "1001" (Some "s3cret") 1700000000000 = Normal token
    /\ (valid (verifySignedToken "1001" (Some token) (Some "s3cret") 1700604800000)
         = true
        <-> 1700604800000 <= 1700000000000 + 7 * 24 * 60 * 60 * 1000).
Proof.
  apply (minted_token_valid_until_expiry "1001" "s3cret" 1700000000000 1700604800000).
  discriminate.
Defined.

(** *** More installation ids than digests *)

Definition decimal_digits : list ascii := list_ascii_of_string "0123456789".

(** The installation ids of [n] decimal digits. *)
Definition numeric_ids (n : nat) : list string :=
  map string_of_list_ascii (all_words decimal_digits n).

Lemma numeric_ids_NoDup n : NoDup (numeric_ids n).
Proof.
  unfold numeric_ids. apply NoDup_map_NoDup_ForallPairs.
  - intros w1 w2 _ _ H. apply (f_equal list_ascii_of_string) in H.
    rewrite !text_of_bytes in H. exact H.
  - apply all_words_NoDup. unfold decimal_digits. cbn [list_ascii_of_string].
    repeat (constructor; [cbn [In]; intuition discriminate|]). constructor.
Qed.

Lemma numeric_ids_shape n id :
  In id (numeric_ids n) -> String.length id = n /\ all_digits id.
Proof.
  unfold numeric_ids. intros H. apply in_map_iff in H. destruct H as (w & <- & Hw).
  destruct (all_words_sound _ _ _ Hw) as [<- Hall]. clear Hw.
  induction Hall as [|c w Hc _ [IHlen IHdigits]]; [split; [reflexivity|exact I]|].
  cbn [string_of_list_ascii String.length all_digits length].
  split; [rewrite IHlen; reflexivity|]. split; [|exact IHdigits].
  unfold decimal_digits in Hc. cbn [list_ascii_of_string In] in Hc.
  repeat (destruct Hc as [<-|Hc]; [reflexivity|]). destruct Hc.
Qed.

(** There are more ids of 78 decimal digits than values of 32 bytes, so two
    of them have the same digest, whatever the key and the expiry. *)
Lemma digests_collide key expiry :
  exists A B,
    A <> B /\ In A (numeric_ids 78) /\ In B (numeric_ids 78)
    /\ digest key A expiry = digest key B expiry.
Proof.
  destruct (pigeonhole string Buffer (list_eq_dec ascii_dec)
              (fun id => digest key id expiry)
              (all_buffers 32) (numeric_ids 78))
    as (A & B & HA & HB & Hab & Hsame).
  - apply numeric_ids_NoDup.
  - intros id _.
    pose proof (all_buffers_complete (digest key id expiry)) as H.
    unfold digest in H at 2. rewrite Sha256Facts.hmac_sha256_length in H. exact H.
  - apply Nat2Z.inj_lt. unfold all_buffers, numeric_ids.
    rewrite length_map, !all_words_count.
    change (Z.of_nat (length all_bytes)) with 256.
    change (Z.of_nat (length decimal_digits)) with 10.
    change (Z.of_nat 32) with 32. change (Z.of_nat 78) with 78.
    reflexivity.
  - exists A, B. repeat split; assumption.
Qed.

(** C2, as the code has it.  With a non-empty secret, a token minted for
    installation [A] and presented before its expiry for a different
    installation [B] is checked against the HMAC-SHA256 of a different text,
    [B:expiry] instead of [A:expiry].  It is rejected with the reason
    "Invalid token signature" exactly when the two texts have different
    digests under the secret, and accepted exactly when they have the same
    digest. *)
Theorem token_bound_to_installation (A B secret : string) (t0 t1 : Z) :
  A <> B ->
  secret <> "" ->
  t1 <= t0 + TOKEN_EXPIRY_MS ->
  let signed id := id ++ ":" ++ number_to_string (t0 + TOKEN_EXPIRY_MS) in
  let hmac text :=
    Sha256.hmac_sha256 (Buffer_from_utf8 secret) (Buffer_from_utf8 text) in
  exists token,
    generateSignedToken A (Some secret) t0 = Normal token
    /\ signed A <> signed B
    /\ (verifySignedToken B (Some token) (Some secret) t1
          = mkVerify false (Some "Invalid token signature")
        <-> hmac (signed A) <> hmac (signed B))
    /\ (verifySignedToken B (Some token) (Some secret) t1 = mkVerify true None
        <-> hmac (signed A) = hmac (signed B)).
Proof.
  intros Hab Hsecret Hexp signed hmac. destruct secret as [|c k]; [contradiction|].
  exists (token_for (String c k) A (t0 + TOKEN_EXPIRY_MS)).
  split; [reflexivity|].
  split; [intros H; exact (Hab (append_inv_tail _ _ _ H))|].
  destruct (token_for_nonempty (String c k) A (t0 + TOKEN_EXPIRY_MS))
    as (c' & r & Htok).
  rewrite Htok, verifySignedToken_checked, <- Htok, checkToken_minted.
  replace (t1 >? t0 + TOKEN_EXPIRY_MS) with false
    by (symmetry; rewrite Z.gtb_ltb; apply Z.ltb_ge; exact Hexp).
  change (digest (String c k) A (t0 + TOKEN_EXPIRY_MS)) with (hmac (signed A)).
  change (digest (String c k) B (t0 + TOKEN_EXPIRY_MS)) with (hmac (signed B)).
  assert (Hlen : length (hmac (signed A)) = length (hmac (signed B))).
  { unfold hmac. rewrite !Sha256Facts.hmac_sha256_length. reflexivity. }
  destruct (list_eq_dec ascii_dec (hmac (signed A)) (hmac (signed B))) as [Hsame|Hdiffer].
  - rewrite Hsame, timingSafeEqual_same. cbn [bind negb try_catch].
    split; split; try discriminate; try reflexivity.
    intros H. contradiction.
  - rewrite (timingSafeEqual_differ _ _ Hlen Hdiffer). cbn [bind negb try_catch].
    split; split; try discriminate; try reflexivity.
    + intros _. exact Hdiffer.
    + intros H. contradiction.
Qed.

Lemma token_bound_to_installation_witness :
  exists token,
    generateSignedToken "1001" (Some "s3cret") 1700000000000 = Normal token
    /\ verifySignedToken "1002" (Some token) (Some "s3cret") 1700000000001
       = mkVerify false (Some "Invalid token signature").
Proof.
  destruct (token_bound_to_installation "1001" "1002" "s3cret"
              1700000000000 1700000000001)
    as (token & Hminted & _ & Hrejected & _).
  - discriminate.
  - discriminate.
  - vm_compute. discriminate.
  - exists token. split; [exact Hminted|].
    apply Hrejected. vm_compute. discriminate.
Defined.

(** The rejection does not hold for every two distinct ids: there are two
    installation ids [A] and [B] of 78 decimal digits each such that the
    token minted for [A] is accepted for [B].  There are more such ids than
    values of 32 bytes, so two of the texts [A:expiry] have the same
    digest. *)
Theorem some_token_fits_two_installations :
  exists A B token,
    A <> B
    /\ String.length A = 78%nat /\ all_digits A
    /\ String.length B = 78%nat /\ all_digits B
    /\ generateSignedToken A (Some "s3cret") 1700000000000 = Normal token
    /\ verifySignedToken B (Some token) (Some "s3cret") 1700000000001
       = mkVerify true None.
Proof.
  destruct (digests_collide "s3cret" (1700000000000 + TOKEN_EXPIRY_MS))
    as (A & B & Hab & HA & HB & Hsame).
  destruct (numeric_ids_shape _ _ HA) as [HlenA HdigitsA].
  destruct (numeric_ids_shape _ _ HB) as [HlenB HdigitsB].
  exists A, B, (token_for "s3cret" A (1700000000000 + TOKEN_EXPIRY_MS)).
  split; [exact Hab|].
  split; [exact HlenA|]. split; [exact HdigitsA|].
  split; [exact HlenB|]. split; [exact HdigitsB|].
  split; [reflexivity|].
  destruct (token_for_nonempty "s3cret" A (1700000000000 + TOKEN_EXPIRY_MS))
    as (c' & r & Htok).
  rewrite Htok, verifySignedToken_checked, <- Htok, checkToken_minted.
  replace (1700000000001 >? 1700000000000 + TOKEN_EXPIRY_MS) with false
    by (symmetry; rewrite Z.gtb_ltb; apply Z.ltb_ge; unfold TOKEN_EXPIRY_MS; lia).
  rewrite Hsame, timingSafeEqual_same. reflexivity.
Qed.

(** C9.  When no signing secret is configured (the variable is unset or
    empty), every token is accepted for every installation, an absent or
    empty token included. *)
Theorem no_secret_accepts_everything
  (installationId : string) (token : option string) (now : Z) :
  verifySignedToken installationId token None now = mkVerify true None
  /\ verifySignedToken installationId token (Some "") now = mkVerify true None
  /\ verifySignedToken installationId None None now = mkVerify true None
  /\ verifySignedToken installationId (Some "") None now = mkVerify true None.
Proof. repeat split. Qed.

(** C8, as the code has it.  With a non-empty secret and a non-empty token,
    the reason is "Token has expired" exactly when the text before the first
    colon of the decoded token is not a number or is a time before now; it is
    "Invalid token format" exactly when that text is a time not before now
    and the text after the colon is missing or is not the hexadecimal form of
    32 bytes. *)
Theorem rejection_reasons (installationId token secret : string) (now : Z) :
  secret <> "" ->
  token <> "" ->
  let fields := split ":" (Buffer_toString_utf8 (Buffer_from_base64url token)) in
  let expiry := parseInt (nth 0 fields "") in
  let result := verifySignedToken installationId (Some token) (Some secret) now in
  (result = mkVerify false (Some "Token has expired")
   <-> forall e, expiry = Some e -> now > e)
  /\ (result = mkVerify false (Some "Invalid token format")
      <-> exists e, expiry = Some e /\ now <= e
                    /\ forall signature, nth_error fields 1 = Some signature ->
                                         length (Buffer_from_hex signature) <> 32%nat).
Proof.
  intros Hsecret Htoken fields expiry result.
  destruct secret as [|c' k]; [contradiction|].
  destruct token as [|c r]; [contradiction|].
  unfold result. rewrite verifySignedToken_checked. unfold checkToken.
  fold fields. fold expiry.
  destruct expiry as [e|].
  2:{ cbn [try_catch]. split.
      - split; [intros _ e; discriminate|reflexivity].
      - split; [discriminate|intros (e & He & _); discriminate]. }
  destruct (now >? e) eqn:Hgt.
  { cbn [try_catch]. apply Z.gtb_lt in Hgt. split.
    - split; [intros _ e' He'; injection He' as <-; lia|reflexivity].
    - split; [discriminate|].
      intros (e' & He' & Hle & _). injection He' as <-. lia. }
  rewrite Z.gtb_ltb in Hgt. apply Z.ltb_ge in Hgt.
  assert (Hnot_expired : ~ (forall e', Some e = Some e' -> now > e')).
  { intros H. specialize (H e eq_refl). lia. }
  destruct (nth_error fields 1) as [signature|].
  2:{ cbn [Buffer_from_hex_value bind try_catch]. split.
      - split; [discriminate|intros H; contradiction].
      - split; [|reflexivity]. intros _. exists e. repeat split; [exact Hgt|].
        intros signature; discriminate. }
  cbn [Buffer_from_hex_value bind]. unfold hmac_hex. rewrite hex_roundtrip.
  unfold timingSafeEqual. rewrite Sha256Facts.hmac_sha256_length.
  destruct (Nat.eqb_spec (length (Buffer_from_hex signature)) 32) as [Hlen|Hlen].
  - cbn [bind try_catch].
    match goal with |- context [Buffer_equals ?a ?b] => destruct (Buffer_equals a b) end;
      cbn [negb try_catch].
    + split.
      * split; [discriminate|intros H; contradiction].
      * split; [discriminate|].
        intros (e' & _ & _ & H). exfalso. exact (H signature eq_refl Hlen).
    + split.
      * split; [discriminate|intros H; contradiction].
      * split; [discriminate|].
        intros (e' & _ & _ & H). exfalso. exact (H signature eq_refl Hlen).
  - cbn [bind try_catch]. split.
    + split; [discriminate|intros H; contradiction].
    + split; [|reflexivity]. intros _. exists e. repeat split; [exact Hgt|].
      intros signature' E. injection E as <-. exact Hlen.
Qed.

Lemma rejection_reasons_witness :
  verifySignedToken "1001" (Some "NDEwMjQ0NDgwMDAwMDphYg") (Some "s3cret")
                    1700000000000
  = mkVerify false (Some "Invalid token format").
Proof.
  apply (rejection_reasons "1001" "NDEwMjQ0NDgwMDAwMDphYg" "s3cret"
           1700000000000 ltac:(discriminate) ltac:(discriminate)).
  exists 4102444800000. split; [reflexivity|]. split; [vm_compute; discriminate|].
  intros signature E. vm_compute in E. injection E as <-. vm_compute. discriminate.
Defined.

(** The token "aGVsbG8" is the encoding of "hello": no expiry, no signature.
    It is rejected as expired, not as malformed. *)
Lemma malformed_token_reported_expired :
  Buffer_toString_utf8 (Buffer_from_base64url "aGVsbG8") = "hello"
  /\ verifySignedToken "1001" (Some "aGVsbG8") (Some "s3cret") 1700000000000
     = mkVerify false (Some "Token has expired")
  /\ error (verifySignedToken "1001" (Some "aGVsbG8") (Some "s3cret") 1700000000000)
     <> Some "Invalid token format".
Proof. repeat split. vm_compute. discriminate. Qed.

End TokenFacts.

(** * Properties of the placement route *)

Module PlacementFacts.
Import JsRuntime HubSpotClient PlacementRoute.
Local Open Scope string_scope.
Local Open Scope Z_scope.

(** A failed association is logged and the promise is fulfilled. *)
Lemma association_failure_swallowed association :
  association_failed association = true ->
  exists line,
    associateEngagementToInstallation association = (Fulfilled (JObj []), [line])
    /\ (line = LogError ("Association error: "
                           ++ match association with
                              | NetworkError message => message
                              | HttpResponse _ _ => ""
                              end)
        \/ exists statusCode body,
             association = HttpResponse statusCode body
             /\ line = Log ("Association response: " ++ number_to_string statusCode
                              ++ " " ++ data_of body)).
Proof.
  destruct association as [message|statusCode body]; cbn [association_failed].
  - intros _. eexists. split; [reflexivity|]. left. reflexivity.
  - intros H. apply negb_true_iff in H.
    cbn [associateEngagementToInstallation]. rewrite H.
    eexists. split; [reflexivity|]. right. eauto.
Qed.

Lemma attach_after_note_created note association :
  note_created note = true ->
  association_failed association = true ->
  exists parsed line,
    attachFileToInstallation note association = (Fulfilled parsed, [line])
    /\ associateEngagementToInstallation association = (Fulfilled (JObj []), [line]).
Proof.
  intros Hnote Hassoc.
  destruct (association_failure_swallowed association Hassoc) as (line & Hline & _).
  destruct note as [message|statusCode [data reason|data parsed]];
    cbn [note_created] in Hnote; try discriminate.
  apply andb_prop in Hnote. destruct Hnote as [Hstatus Hid].
  exists parsed, line. split; [|exact Hline].
  cbn [attachFileToInstallation JSON_parse]. rewrite Hstatus.
  destruct (bind (property (Some parsed) "engagement")
                 (fun engagement => property engagement "id"));
    [|discriminate].
  rewrite Hline. reflexivity.
Qed.

(** A note that could not be created rejects the attachment. *)
Lemma attach_without_note note association :
  note_created note = false ->
  exists e, attachFileToInstallation note association = (Rejected e, []).
Proof.
  intros Hnote.
  destruct note as [message|statusCode [data reason|data parsed]];
    cbn [attachFileToInstallation JSON_parse]; eauto.
  cbn [note_created] in Hnote.
  destruct ((statusCode =? 200) || (statusCode =? 201)).
  - cbn [andb] in Hnote.
    destruct (bind (property (Some parsed) "engagement")
                   (fun engagement => property engagement "id"));
      [discriminate|eauto].
  - destruct (property (Some parsed) "message"); eauto.
Qed.

(** C3, as the code has it.  When the request is authenticated, the image
    is uploaded and the note is created, a failure of the association of the
    note with the installation is logged and the endpoint answers 200 with
    the success payload.  When the note itself cannot be created, the
    endpoint answers 500. *)
Theorem association_failure_not_surfaced
  (SITE_PLAN_SECRET : option string) (c : ascii) (k : string) (now : Z)
  (isoTime : string) (req : Request) (image : Buffer) (remote : Upstream)
  (uploaded : UploadedFile) :
  Server.requireAuth (params_id req) (query_token req) SITE_PLAN_SECRET now
  = Server.Next ->
  file req = Some image ->
  uploadFileToHubSpot (upload_exchange remote) = Fulfilled uploaded ->
  let answer :=
    placement_route SITE_PLAN_SECRET (Some (String c k)) now isoTime req remote in
  (note_created (note_exchange remote) = true ->
   association_failed (association_exchange remote) = true ->
   exists fileName line,
     fst answer
     = Some (mkReply 200 (Saved (fileId uploaded) fileName
                                "Site plan saved successfully"))
     /\ associateEngagementToInstallation (association_exchange remote)
        = (Fulfilled (JObj []), [line])
     /\ In line (snd answer))
  /\ (note_created (note_exchange remote) = false ->
      exists message, fst answer = Some (mkReply 500 (Failed message))).
Proof.
  intros Hauth Hfile Hupload answer.
  assert (Hanswer : answer
                    = placement_handler (Some (String c k)) isoTime req remote).
  { unfold answer, placement_route. rewrite Hauth. reflexivity. }
  rewrite Hanswer. unfold placement_handler. rewrite Hfile, Hupload. split.
  - intros Hnote Hassoc.
    destruct (attach_after_note_created _ _ Hnote Hassoc)
      as (parsed & line & Hattach & Hline).
    rewrite Hattach. cbn [fst snd]. do 2 eexists. split; [reflexivity|].
    split; [exact Hline|]. cbn [app]. right. right. left. reflexivity.
  - intros Hnote.
    destruct (attach_without_note _ (association_exchange remote) Hnote)
      as (e & Hattach).
    rewrite Hattach. cbn [fst]. unfold save_failure. eauto.
Qed.

Definition sample_request : Request := mkRequest "1001" None (Some []).

(** The body [{"id":987}], with the quotation mark written by its code. *)
Definition sample_upload : HttpOutcome :=
  let q := String (ascii_of_nat 34) EmptyString in
  HttpResponse 201 (JsonText ("{" ++ q ++ "id" ++ q ++ ":987}")
                             (JObj [("id", JNum 987)])).

(** The body [{"engagement":{"id":55}}]. *)
Definition sample_note : HttpOutcome :=
  let q := String (ascii_of_nat 34) EmptyString in
  HttpResponse 200
    (JsonText ("{" ++ q ++ "engagement" ++ q ++ ":{" ++ q ++ "id" ++ q ++ ":55}}")
              (JObj [("engagement", JObj [("id", JNum 55)])])).

Lemma association_failure_not_surfaced_witness :
  let remote := mkUpstream sample_upload sample_note (NetworkError "ECONNRESET") in
  let answer :=
    placement_route None (Some "pat-na1") 1700000000000 "2024-01-02T03:04:05.678Z"
                    sample_request remote in
  exists fileName line,
    fst answer
    = Some (mkReply 200 (Saved (Some (JNum 987)) fileName
                               "Site plan saved successfully"))
    /\ associateEngagementToInstallation (association_exchange remote)
       = (Fulfilled (JObj []), [line])
    /\ In line (snd answer).
Proof.
  intros remote answer.
  destruct (association_failure_not_surfaced None "p" "at-na1" 1700000000000
              "2024-01-02T03:04:05.678Z" sample_request [] remote
              (mkUploaded (Some (JNum 987)) None) eq_refl eq_refl eq_refl)
    as [H _].
  exact (H eq_refl eq_refl).
Defined.

(** The image is uploaded, then the request that creates the note fails:
    once with no connection, once with status 500.  The endpoint answers 500
    both times. *)
Lemma note_failure_is_surfaced :
  let answer note :=
    placement_route None (Some "pat-na1") 1700000000000 "2024-01-02T03:04:05.678Z"
      sample_request (mkUpstream sample_upload note (NetworkError "ECONNRESET")) in
  let q := String (ascii_of_nat 34) EmptyString in
  let refused :=
    HttpResponse 500
      (JsonText ("{" ++ q ++ "message" ++ q ++ ":" ++ q ++ "internal error" ++ q ++ "}")
                (JObj [("message", JStr "internal error")])) in
  uploadFileToHubSpot sample_upload = Fulfilled (mkUploaded (Some (JNum 987)) None)
  /\ fst (answer (NetworkError "socket hang up"))
     = Some (mkReply 500 (Failed "socket hang up"))
  /\ fst (answer refused) = Some (mkReply 500 (Failed "internal error")).
Proof. repeat split. Qed.

End PlacementFacts.

(** * Properties of the annotation session *)

Module SessionFacts.
Import JsRuntime Client.
Local Open Scope Z_scope.

(** ** Canvas bookkeeping *)

Lemma unit_points_app label objs1 objs2 :
  unit_points label (objs1 ++ objs2)
  = unit_points label objs1 ++ unit_points label objs2.
Proof. unfold unit_points. apply flat_map_app. Qed.

Lemma unit_points_removed label objs :
  unit_points label (filter (fun obj => negb (has_unitLabel label obj)) objs) = [].
Proof.
  induction objs as [|obj objs IH]; [reflexivity|].
  simpl. destruct obj as [|l px py c|px py|x1 y1 x2 y2 d]; simpl; try exact IH.
  destruct (UnitLabel_eqb l label) eqn:E; simpl; [exact IH|].
  rewrite E. exact IH.
Qed.

Lemma unit_points_other label other objs :
  UnitLabel_eqb other label = false ->
  unit_points label (filter (fun obj => negb (has_unitLabel other obj)) objs)
  = unit_points label objs.
Proof.
  intros Hne. induction objs as [|obj objs IH]; [reflexivity|].
  simpl. destruct obj as [|l px py c|px py|x1 y1 x2 y2 d]; simpl; try exact IH.
  destruct (UnitLabel_eqb l other) eqn:E; simpl.
  - destruct l, other, label; simpl in *; try discriminate; exact IH.
  - rewrite IH. reflexivity.
Qed.

Lemma unit_points_solid label objs :
  unit_points label (map solid objs) = unit_points label objs.
Proof.
  induction objs as [|obj objs IH]; [reflexivity|].
  destruct obj; simpl; try exact IH.
  unfold unit_points in *. simpl. rewrite IH. reflexivity.
Qed.

Lemma unit_points_cleared label objs :
  unit_points label
    (filter (fun obj => negb (isUnit obj || isLinePoint obj || isLineSegment obj))
            objs) = [].
Proof.
  induction objs as [|obj objs IH]; [reflexivity|].
  destruct obj; simpl; exact IH.
Qed.

Lemma unit_points_dragged label index px py objs :
  length (unit_points label (dragObject index px py objs))
  = length (unit_points label objs).
Proof.
  revert index. induction objs as [|obj objs IH]; intros [|i]; try reflexivity.
  - destruct obj; simpl; try reflexivity.
    unfold unit_points. simpl.
    destruct (UnitLabel_eqb unitLabel label); reflexivity.
  - change (dragObject (S i) px py (obj :: objs))
      with (obj :: dragObject i px py objs).
    change (obj :: ?l) with ([obj] ++ l).
    rewrite !unit_points_app, !length_app, IH. reflexivity.
Qed.

Lemma present_app label objs1 objs2 :
  existsb (has_unitLabel label) (objs1 ++ objs2)
  = existsb (has_unitLabel label) objs1 || existsb (has_unitLabel label) objs2.
Proof. apply existsb_app. Qed.

Lemma present_removed label objs :
  existsb (has_unitLabel label)
          (filter (fun obj => negb (has_unitLabel label obj)) objs) = false.
Proof.
  induction objs as [|obj objs IH]; [reflexivity|].
  simpl. destruct (has_unitLabel label obj) eqn:E; simpl; [exact IH|].
  rewrite E. exact IH.
Qed.

Lemma present_other label other objs :
  UnitLabel_eqb other label = false ->
  existsb (has_unitLabel label)
          (filter (fun obj => negb (has_unitLabel other obj)) objs)
  = existsb (has_unitLabel label) objs.
Proof.
  intros Hne. induction objs as [|obj objs IH]; [reflexivity|].
  simpl. destruct (has_unitLabel other obj) eqn:E; simpl.
  - rewrite IH. destruct obj as [|l px py c|px py|x1 y1 x2 y2 d]; simpl in *;
      try discriminate.
    destruct l, other, label; simpl in *; try discriminate; reflexivity.
  - rewrite IH. reflexivity.
Qed.

Lemma present_solid label objs :
  existsb (has_unitLabel label) (map solid objs)
  = existsb (has_unitLabel label) objs.
Proof.
  induction objs as [|obj objs IH]; [reflexivity|].
  simpl. rewrite IH. destruct obj; reflexivity.
Qed.

Lemma present_cleared label objs :
  existsb (has_unitLabel label)
    (filter (fun obj => negb (isUnit obj || isLinePoint obj || isLineSegment obj))
            objs) = false.
Proof.
  induction objs as [|obj objs IH]; [reflexivity|].
  destruct obj; simpl; exact IH.
Qed.

Lemma present_dragged label index px py objs :
  existsb (has_unitLabel label) (dragObject index px py objs)
  = existsb (has_unitLabel label) objs.
Proof.
  revert index. induction objs as [|obj objs IH]; intros [|i]; try reflexivity.
  - destruct obj; reflexivity.
  - simpl. rewrite IH. reflexivity.
Qed.

Lemma present_backdrop label n :
  existsb (has_unitLabel label) (repeat Backdrop n) = false.
Proof. induction n as [|n IH]; [reflexivity|exact IH]. Qed.

Lemma unit_points_backdrop label n : unit_points label (repeat Backdrop n) = [].
Proof. induction n as [|n IH]; [reflexivity|exact IH]. Qed.

Lemma not_dashed_solid objs : existsb dashed (map solid objs) = false.
Proof.
  induction objs as [|obj objs IH]; [reflexivity|].
  simpl. rewrite IH. destruct obj; reflexivity.
Qed.

(** ** The path tool *)

Lemma last_snoc (earlier : list Point) (p d : Point) : last (earlier ++ [p]) d = p.
Proof. apply last_last. Qed.

Lemma finish_gesture_true px py s earlier lastPoint :
  linePoints s = earlier ++ [lastPoint] ->
  (1 <= length earlier)%nat ->
  (px - x lastPoint) ^ 2 + (py - y lastPoint) ^ 2 < 30 ^ 2 ->
  finish_gesture px py s = true.
Proof.
  intros Hpts Hlen Hnear. unfold finish_gesture, distance_below_30.
  rewrite Hpts, last_snoc, length_app. simpl.
  apply andb_true_intro. split.
  - apply Nat.ltb_lt. lia.
  - apply Z.ltb_lt. exact Hnear.
Qed.

Lemma finish_gesture_far px py s earlier lastPoint :
  linePoints s = earlier ++ [lastPoint] ->
  30 ^ 2 <= (px - x lastPoint) ^ 2 + (py - y lastPoint) ^ 2 ->
  finish_gesture px py s = false.
Proof.
  intros Hpts Hfar. unfold finish_gesture, distance_below_30.
  rewrite Hpts, last_snoc.
  apply andb_false_intro2. apply Z.ltb_ge. exact Hfar.
Qed.

Lemma finish_gesture_needs_two px py s :
  finish_gesture px py s = true -> (2 <= length (linePoints s))%nat.
Proof.
  unfold finish_gesture. intros H. apply andb_prop in H. destruct H as [H _].
  apply Nat.ltb_lt in H. lia.
Qed.

Lemma addLinePoint_points px py s :
  finish_gesture px py s = false ->
  linePoints (addLinePoint px py s) = linePoints s ++ [mkPoint px py].
Proof. intros H. unfold addLinePoint. rewrite H. reflexivity. Qed.

(** ** What every reachable session satisfies *)

(** The flags [iduPlaced] and [oduPlaced] tell whether the marker is on the
    canvas, and no label is on the canvas twice. *)
Definition consistent (s : Session) : Prop :=
  iduPlaced s = marker_present IDU s
  /\ oduPlaced s = marker_present ODU s
  /\ (length (markers IDU s) <= 1)%nat
  /\ (length (markers ODU s) <= 1)%nat.

(** Rewriting the observations of a canvas after it was changed. *)
Create Rewrite HintDb canvas.
#[local] Hint Rewrite present_app unit_points_app present_removed unit_points_removed
  present_solid unit_points_solid present_cleared unit_points_cleared
  present_dragged unit_points_dragged present_backdrop unit_points_backdrop
  orb_true_r orb_false_r app_nil_r : canvas.
#[local] Hint Rewrite present_other unit_points_other using reflexivity : canvas.

Ltac observe_canvas :=
  unfold consistent, marker_present, markers; simpl;
  autorewrite with canvas; simpl.

Lemma consistent_initial backdrop btn modalHidden :
  consistent (initial_session backdrop btn modalHidden).
Proof. observe_canvas. repeat split; lia. Qed.

Lemma consistent_finishLine s : consistent s -> consistent (finishLine s).
Proof.
  unfold finishLine. destruct (length (linePoints s) <? 2)%nat; [exact (fun H => H)|].
  observe_canvas. exact (fun H => H).
Qed.

Lemma consistent_addLinePoint px py s :
  consistent s -> consistent (addLinePoint px py s).
Proof.
  intros H. unfold addLinePoint.
  destruct (finish_gesture px py s); [apply consistent_finishLine; exact H|].
  revert H. unfold consistent, marker_present, markers. simpl.
  destruct (1 <? length (linePoints s ++ [mkPoint px py]))%nat; simpl;
    autorewrite with canvas; simpl; autorewrite with canvas; exact (fun H => H).
Qed.

Lemma consistent_handleCanvasTap opt s :
  consistent s -> consistent (handleCanvasTap opt s).
Proof.
  intros H. unfold handleCanvasTap.
  destruct (target opt); [exact H|].
  destruct (currentTool s).
  - revert H. observe_canvas.
    intros (_ & Ho & _ & Hn). repeat split; [exact Ho|lia|exact Hn].
  - revert H. observe_canvas.
    intros (Hi & _ & Hn & _). repeat split; [exact Hi|exact Hn|lia].
  - apply consistent_addLinePoint. exact H.
Qed.

Lemma consistent_clearAll s : consistent (clearAll s).
Proof. observe_canvas. repeat split; lia. Qed.

Lemma consistent_step e s : consistent s -> consistent (step e s).
Proof.
  intros H. destruct e as [opt|tool| | |outcome| |index px py]; simpl.
  - apply consistent_handleCanvasTap. exact H.
  - exact H.
  - apply consistent_clearAll.
  - unfold savePlacement_begin. destruct (disabled (saveBtn s)); exact H.
  - unfold savePlacement_end. destruct (upload_failure outcome); exact H.
  - exact H.
  - revert H. observe_canvas. exact (fun H => H).
Qed.

Lemma reachable_consistent s : reachable s -> consistent s.
Proof.
  induction 1 as [backdrop btn modalHidden|e s _ IH].
  - apply consistent_initial.
  - apply consistent_step. exact IH.
Qed.

(** After a mutation the save button is recomputed from the flags. *)
Lemma mutation_recomputes e s :
  is_mutation e s = true ->
  disabled (saveBtn (step e s))
  = negb (iduPlaced (step e s) || oduPlaced (step e s)).
Proof.
  destruct e as [opt|tool| | |outcome| |index px py]; simpl; try discriminate.
  - unfold handleCanvasTap. destruct (target opt); [discriminate|].
    destruct (currentTool s); try reflexivity.
    intros H. apply negb_true_iff in H. unfold addLinePoint. rewrite H.
    reflexivity.
  - reflexivity.
Qed.

(** ** The path tool, the markers and the save button *)

(** C4.  In a session whose path has at least two points, a tap with the
    path tool closer than 30 units to the last point of the path finishes the
    path: the points of the path are unchanged, every line segment on the
    canvas is solid, and the active tool becomes the indoor-unit tool.  A tap
    at 30 units or more from the last point adds the tapped point at the end
    of the path, which is then one point longer. *)
Theorem near_tap_finishes_far_tap_extends
  (s : Session) (earlier : list Point) (lastPoint : Point) (px py : Z) :
  linePoints s = earlier ++ [lastPoint] ->
  (1 <= length earlier)%nat ->
  let d2 := (px - x lastPoint) ^ 2 + (py - y lastPoint) ^ 2 in
  let s' := addLinePoint px py s in
  (d2 < 30 ^ 2 ->
     linePoints s' = linePoints s
     /\ length (linePoints s') = length (linePoints s)
     /\ canvas s' = map solid (canvas s)
     /\ existsb dashed (canvas s') = false
     /\ currentTool s' = idu)
  /\ (30 ^ 2 <= d2 ->
     linePoints s' = linePoints s ++ [mkPoint px py]
     /\ length (linePoints s') = S (length (linePoints s))).
Proof.
  intros Hpts Hlen d2 s'. split.
  - intros Hnear.
    assert (Hs' : s' = selectTool idu (with_canvas (map solid (canvas s)) s)).
    { unfold s', addLinePoint.
      rewrite (finish_gesture_true px py s earlier lastPoint Hpts Hlen Hnear).
      unfold finishLine. rewrite Hpts, length_app. simpl.
      replace (length earlier + 1 <? 2)%nat with false; [reflexivity|].
      symmetry. apply Nat.ltb_ge. lia. }
    rewrite Hs'. simpl. rewrite not_dashed_solid. repeat split.
  - intros Hfar.
    pose proof (finish_gesture_far px py s earlier lastPoint Hpts Hfar) as Hg.
    unfold s'. rewrite (addLinePoint_points px py s Hg).
    split; [reflexivity|]. rewrite length_app. simpl. lia.
Qed.

Lemma near_tap_finishes_far_tap_extends_witness :
  let s := with_linePoints [mkPoint 0 0; mkPoint 100 0]
             (initial_session 0 (mkSaveButton true "Save Site Plan" true) true) in
  (linePoints (addLinePoint 105 2 s) = linePoints s
   /\ currentTool (addLinePoint 105 2 s) = idu)
  /\ length (linePoints (addLinePoint 200 200 s)) = 3%nat.
Proof.
  intros s.
  pose proof (near_tap_finishes_far_tap_extends s [mkPoint 0 0] (mkPoint 100 0)
                105 2 eq_refl (le_n 1)) as [Hnear _].
  pose proof (near_tap_finishes_far_tap_extends s [mkPoint 0 0] (mkPoint 100 0)
                200 200 eq_refl (le_n 1)) as [_ Hfar].
  split.
  - destruct (Hnear ltac:(simpl; lia)) as (H1 & _ & _ & _ & H5). split; assumption.
  - destruct (Hfar ltac:(simpl; lia)) as (_ & H2). exact H2.
Defined.

(** With the path tool active, a tap that hits no object is [addLinePoint]. *)
Lemma path_tool_tap opt s :
  currentTool s = line -> target opt = None ->
  handleCanvasTap opt s = addLinePoint (x (pointer opt)) (y (pointer opt)) s.
Proof. intros Ht Hn. unfold handleCanvasTap. rewrite Hn, Ht. reflexivity. Qed.

(** C10.  When the path has exactly one point, a tap with the path tool adds
    the tapped point wherever it is, also within 30 units of that point: the
    path has two points afterwards, the first dashed segment is drawn and
    the tool stays as it was.  Whenever a tap with the path tool does not
    add its point, the path already had at least two points and the finish
    action is what ran. *)
Theorem single_point_path_is_extended (s : Session) (px py : Z) :
  (forall p0, linePoints s = [p0] ->
     let s' := addLinePoint px py s in
     finish_gesture px py s = false
     /\ linePoints s' = [p0; mkPoint px py]
     /\ length (linePoints s') = 2%nat
     /\ currentTool s' = currentTool s
     /\ canvas s'
        = LineSegment (x p0) (y p0) px py (Some [8; 4])
            :: canvas s ++ [PointMarker px py])
  /\ (linePoints (addLinePoint px py s) <> linePoints s ++ [mkPoint px py] ->
      (2 <= length (linePoints s))%nat
      /\ addLinePoint px py s = finishLine s).
Proof.
  split.
  - intros p0 Hp s'.
    assert (Hg : finish_gesture px py s = false).
    { unfold finish_gesture. rewrite Hp. reflexivity. }
    unfold s', addLinePoint. rewrite Hg, Hp. simpl. repeat split.
  - intros Hnot. destruct (finish_gesture px py s) eqn:Hg.
    + split; [exact (finish_gesture_needs_two px py s Hg)|].
      unfold addLinePoint. rewrite Hg. reflexivity.
    + exfalso. apply Hnot. apply addLinePoint_points. exact Hg.
Qed.

Lemma single_point_path_is_extended_witness :
  let s := with_linePoints [mkPoint 50 50]
             (initial_session 0 (mkSaveButton true "Save Site Plan" true) true) in
  linePoints (addLinePoint 51 52 s) = [mkPoint 50 50; mkPoint 51 52].
Proof.
  intros s.
  destruct (single_point_path_is_extended s 51 52) as [H _].
  destruct (H (mkPoint 50 50) eq_refl) as (_ & H2 & _). exact H2.
Defined.

(** C5.  With the tool of a unit active, two taps on empty canvas space
    leave exactly one marker of that unit, at the point of the second tap;
    and in every reachable session at most one indoor and at most one
    outdoor marker is on the canvas. *)
Theorem one_marker_per_unit (s : Session) :
  (forall label p1 p2,
     currentTool s = tool_of label ->
     let s1 := handleCanvasTap (mkTap p1 None) s in
     let s2 := handleCanvasTap (mkTap p2 None) s1 in
     markers label s2 = [p2] /\ marker_present label s2 = true)
  /\ (reachable s ->
      (length (markers IDU s) <= 1)%nat /\ (length (markers ODU s) <= 1)%nat).
Proof.
  split.
  - intros label p1 p2 Ht s1 s2.
    assert (Ht1 : currentTool s1 = tool_of label).
    { unfold s1, handleCanvasTap. simpl. rewrite Ht. destruct label; exact Ht. }
    split.
    + unfold s2, handleCanvasTap. simpl. rewrite Ht1.
      destruct label, p2 as [qx qy]; unfold markers; simpl;
        rewrite unit_points_app, unit_points_removed; reflexivity.
    + unfold s2, handleCanvasTap. simpl. rewrite Ht1.
      destruct label; unfold marker_present; simpl;
        rewrite present_app; simpl; apply orb_true_r.
  - intros Hr.
    destruct (reachable_consistent s Hr) as (_ & _ & Hi & Ho). split; assumption.
Qed.

Lemma one_marker_per_unit_witness :
  let s := initial_session 3 (mkSaveButton true "Save Site Plan" true) true in
  let s2 := handleCanvasTap (mkTap (mkPoint 40 60) None)
              (handleCanvasTap (mkTap (mkPoint 10 20) None) s) in
  markers IDU s2 = [mkPoint 40 60]
  /\ (length (markers IDU s2) <= 1)%nat /\ (length (markers ODU s2) <= 1)%nat.
Proof.
  intros s s2.
  destruct (one_marker_per_unit s) as [H _].
  destruct (H IDU (mkPoint 10 20) (mkPoint 40 60) eq_refl) as (H1 & _).
  destruct (one_marker_per_unit s2) as [_ H2].
  split; [exact H1|].
  apply H2.
  apply (reachable_step (Tap (mkTap (mkPoint 40 60) None))).
  apply (reachable_step (Tap (mkTap (mkPoint 10 20) None))).
  apply reachable_initial.
Defined.

(** C7.  After a mutation of a reachable session (a marker placed, a point
    added to the path, the annotations cleared) the save button is enabled
    exactly when the indoor or the outdoor marker is on the canvas; with
    both markers absent it is disabled, whatever the path. *)
Theorem save_eligibility_follows_markers (s : Session) (e : Event) :
  reachable s ->
  is_mutation e s = true ->
  let s' := step e s in
  (save_eligible s' = true
   <-> marker_present IDU s' = true \/ marker_present ODU s' = true)
  /\ (marker_present IDU s' = false -> marker_present ODU s' = false ->
      save_eligible s' = false).
Proof.
  intros Hr Hm s'.
  assert (Hc : consistent s').
  { apply consistent_step, reachable_consistent. exact Hr. }
  destruct Hc as (Hi & Ho & _ & _).
  assert (He : save_eligible s' = marker_present IDU s' || marker_present ODU s').
  { unfold save_eligible, s'. rewrite (mutation_recomputes e s Hm).
    fold s'. rewrite negb_involutive, Hi, Ho. reflexivity. }
  rewrite He. split.
  - apply orb_true_iff.
  - intros -> ->. reflexivity.
Qed.

Lemma save_eligibility_follows_markers_witness :
  let s := initial_session 0 (mkSaveButton true "Save Site Plan" true) true in
  let path_only := step (Tap (mkTap (mkPoint 5 5) None)) (step (SelectTool line) s) in
  save_eligible path_only = false.
Proof.
  intros s path_only.
  destruct (save_eligibility_follows_markers
              (step (SelectTool line) s) (Tap (mkTap (mkPoint 5 5) None))
              (reachable_step _ _ (reachable_initial 0 _ true)) eq_refl)
    as [_ H].
  apply H; reflexivity.
Defined.

(** The end of a failed upload leaves the annotation alone and enables the
    save button, whatever happened to the session in between. *)
Lemma failed_upload_end outcome s :
  outcome <> Uploaded ->
  annotation (savePlacement_end outcome s) = annotation s
  /\ disabled (saveBtn (savePlacement_end outcome s)) = false.
Proof.
  intros Hf. unfold savePlacement_end.
  destruct (upload_failure outcome) eqn:E; [split; reflexivity|].
  exfalso. apply Hf.
  destruct outcome as [|m|m|[[[|c m]|]|err]]; try discriminate. reflexivity.
Qed.

(** C6.  A save attempt whose upload fails (the export or the request
    throws, or the response is not a success) leaves the tool, the markers,
    the path and the canvas as they were before the attempt, and the save
    button is enabled again. *)
Theorem failed_upload_keeps_session (s : Session) (outcome : UploadOutcome) :
  disabled (saveBtn s) = false ->
  outcome <> Uploaded ->
  let s' := savePlacement outcome s in
  annotation s' = annotation s
  /\ markers IDU s' = markers IDU s
  /\ markers ODU s' = markers ODU s
  /\ linePoints s' = linePoints s
  /\ disabled (saveBtn s') = false
  /\ save_eligible s' = true.
Proof.
  intros Hen Hf s'.
  assert (Hs' : s' = savePlacement_end outcome (savePlacement_begin s)).
  { unfold s', savePlacement. rewrite Hen. reflexivity. }
  destruct (failed_upload_end outcome (savePlacement_begin s) Hf) as [Ha Hd].
  assert (Hb : annotation (savePlacement_begin s) = annotation s).
  { unfold savePlacement_begin. rewrite Hen. reflexivity. }
  rewrite <- Hs' in Ha, Hd. rewrite Hb in Ha.
  unfold save_eligible. rewrite Hd.
  unfold annotation in Ha. injection Ha as _ _ _ Hl Hcv.
  unfold markers. rewrite Hcv, Hl.
  repeat split. unfold annotation. rewrite Hcv, Hl.
  rewrite Hs'. unfold savePlacement_end, savePlacement_begin. rewrite Hen.
  destruct (upload_failure outcome); reflexivity.
Qed.

Lemma failed_upload_keeps_session_witness :
  let s := step (Tap (mkTap (mkPoint 10 20) None))
             (initial_session 0 (mkSaveButton true "Save Site Plan" true) true) in
  annotation (savePlacement (FetchFailed "Failed to fetch") s) = annotation s
  /\ disabled (saveBtn (savePlacement (FetchFailed "Failed to fetch") s)) = false.
Proof.
  intros s.
  destruct (failed_upload_keeps_session s (FetchFailed "Failed to fetch") eq_refl
              ltac:(discriminate)) as (H1 & _ & _ & _ & H5 & _).
  split; assumption.
Defined.

End SessionFacts.

(** * Further properties of the tokens *)

Module TokenExtras.
Import JsRuntime Server RuntimeFacts TokenFacts.
Local Open Scope string_scope.
Local Open Scope Z_scope.

(** ** A token made from any expiry and any signature bytes *)

Definition crafted_token (expiry : Z) (signature : Buffer) : string :=
  Buffer_toString_base64url
    (Buffer_from_utf8 (number_to_string expiry ++ ":" ++ Buffer_toString_hex signature)).

Lemma crafted_token_decoded expiry signature :
  Buffer_toString_utf8 (Buffer_from_base64url (crafted_token expiry signature))
  = number_to_string expiry ++ ":" ++ Buffer_toString_hex signature.
Proof.
  unfold crafted_token. rewrite base64url_roundtrip.
  apply utf8_roundtrip, payload_plain.
Qed.

Lemma crafted_token_nonempty expiry signature :
  exists c r, crafted_token expiry signature = String c r.
Proof.
  apply base64url_nonempty. unfold Buffer_from_utf8.
  destruct (number_to_string expiry); discriminate.
Qed.

Lemma crafted_token_fields expiry signature :
  split ":" (Buffer_toString_utf8 (Buffer_from_base64url (crafted_token expiry signature)))
  = [number_to_string expiry; Buffer_toString_hex signature].
Proof.
  rewrite crafted_token_decoded.
  change (number_to_string expiry ++ ":" ++ ?sig)
    with (number_to_string expiry ++ String ":" sig).
  apply split_two; [apply number_without_colon|apply hex_without_colon].
Qed.

Lemma checkToken_crafted key presented expiry signature now :
  checkToken presented (crafted_token expiry signature) key now
  = if now >? expiry then Normal (rejected "Token has expired")
    else bind (timingSafeEqual signature (digest key presented expiry))
              (fun same => if negb same
                           then Normal (rejected "Invalid token signature")
                           else Normal accepted).
Proof.
  unfold checkToken. rewrite crafted_token_fields.
  cbn [nth nth_error]. rewrite parseInt_number.
  destruct (now >? expiry); [reflexivity|].
  cbn [Buffer_from_hex_value bind]. unfold hmac_hex.
  rewrite !hex_roundtrip. reflexivity.
Qed.

Lemma token_for_crafted key installationId expiry :
  token_for key installationId expiry
  = crafted_token expiry (digest key installationId expiry).
Proof. reflexivity. Qed.

Lemma number_to_string_injective a b :
  number_to_string a = number_to_string b -> a = b.
Proof.
  intros H. pose proof (parseInt_number a) as Ha.
  rewrite H, parseInt_number in Ha. injection Ha as ->. reflexivity.
Qed.

Lemma append_inv_head (prefix a b : string) : prefix ++ a = prefix ++ b -> a = b.
Proof.
  induction prefix as [|c p IH]; [exact (fun H => H)|].
  cbn [append]. intros H. injection H as H. exact (IH H).
Qed.

Lemma hex_chars_length (b : Buffer) : length (hex_chars b) = (2 * length b)%nat.
Proof. induction b as [|c b IH]; [reflexivity|]. cbn [hex_chars length]. lia. Qed.

Lemma string_length_of_list (l : list ascii) :
  String.length (string_of_list_ascii l) = length l.
Proof. induction l as [|c l IH]; [reflexivity|]. cbn. rewrite IH. reflexivity. Qed.

Lemma hex_text_length (b : Buffer) :
  String.length (Buffer_toString_hex b) = (2 * length b)%nat.
Proof. unfold Buffer_toString_hex. rewrite string_length_of_list. apply hex_chars_length. Qed.

(** The hexadecimal digits that [digest('hex')] writes. *)
Definition lower_hex (c : ascii) : bool :=
  let k := code c in
  (((48 <=? k) && (k <=? 57)) || ((97 <=? k) && (k <=? 102)))%N.

Lemma hex_digit_lower n : (n < 16)%N -> lower_hex (hex_digit n) = true.
Proof. apply (below_checked (fun n => lower_hex (hex_digit n)) 16). reflexivity. Qed.

Lemma hex_chars_lower (b : Buffer) : forallb lower_hex (hex_chars b) = true.
Proof.
  induction b as [|c b IH]; [reflexivity|].
  cbn [hex_chars forallb].
  rewrite !hex_digit_lower, IH; [reflexivity| |].
  - apply N.mod_lt. lia.
  - apply N.Div0.div_lt_upper_bound. pose proof (code_bounded c). lia.
Qed.

(** X1.  The token minted at [t0] under a non-empty secret decodes to the
    text [expiry:signature], where the expiry is [t0] plus 604800000
    milliseconds and the signature is 64 lower-case hexadecimal digits, the
    HMAC-SHA256 of [installationId:expiry] under the secret. *)
Theorem minted_token_format (installationId secret : string) (t0 : Z) :
  secret <> "" ->
  exists token signature,
    generateSignedToken installationId (Some secret) t0 = Normal token
    /\ Buffer_toString_utf8 (Buffer_from_base64url token)
       = number_to_string (t0 + 604800000) ++ ":" ++ signature
    /\ String.length signature = 64%nat
    /\ forallb lower_hex (list_ascii_of_string signature) = true
    /\ Buffer_from_hex signature
       = Sha256.hmac_sha256
           (Buffer_from_utf8 secret)
           (Buffer_from_utf8 (installationId ++ ":" ++ number_to_string (t0 + 604800000))).
Proof.
  intros Hsecret. destruct secret as [|c k]; [contradiction|].
  exists (token_for (String c k) installationId (t0 + TOKEN_EXPIRY_MS)).
  exists (Buffer_toString_hex (digest (String c k) installationId (t0 + TOKEN_EXPIRY_MS))).
  change 604800000 with TOKEN_EXPIRY_MS.
  split; [reflexivity|]. split.
  - rewrite token_for_crafted. apply crafted_token_decoded.
  - split.
    + rewrite hex_text_length. unfold digest.
      rewrite Sha256Facts.hmac_sha256_length. reflexivity.
    + split.
      * unfold Buffer_toString_hex. rewrite text_of_bytes. apply hex_chars_lower.
      * rewrite hex_roundtrip. reflexivity.
Qed.

Lemma minted_token_format_witness :
  exists token signature,
    generateSignedToken "1001" (Some "s3cret") 1700000000000 = Normal token
    /\ Buffer_toString_utf8 (Buffer_from_base64url token)
       = number_to_string (1700000000000 + 604800000) ++ ":" ++ signature
    /\ String.length signature = 64%nat
    /\ forallb lower_hex (list_ascii_of_string signature) = true
    /\ Buffer_from_hex signature
       = Sha256.hmac_sha256
           (Buffer_from_utf8 "s3cret")
           (Buffer_from_utf8 ("1001" ++ ":" ++ number_to_string (1700000000000 + 604800000))).
Proof.
  apply (minted_token_format "1001" "s3cret" 1700000000000). discriminate.
Defined.

(** ** Tokens in URLs *)

(** Letters, digits, [-] and [_]. *)
Definition url_safe (c : ascii) : bool :=
  let k := code c in
  (((65 <=? k) && (k <=? 90)) || ((97 <=? k) && (k <=? 122))
   || ((48 <=? k) && (k <=? 57)) || (k =? 45) || (k =? 95))%N.

Lemma base64url_char_safe n :
  (n < 64)%N ->
  url_safe (base64url_char n) = true /\ Uri.unreserved (base64url_char n) = true.
Proof.
  intros Hn.
  pose proof (below_checked
    (fun n => url_safe (base64url_char n) && Uri.unreserved (base64url_char n))
    64 eq_refl n Hn) as H.
  apply andb_prop in H. exact H.
Qed.

Lemma base64url_text_safe (b : Buffer) :
  forallb url_safe (list_ascii_of_string (Buffer_toString_base64url b)) = true
  /\ Uri.encodeURIComponent (Buffer_toString_base64url b)
     = Buffer_toString_base64url b.
Proof.
  unfold Buffer_toString_base64url. rewrite text_of_bytes.
  destruct (groups_roundtrip_bounded (length (map code b)) (map code b)
              (le_n _) (codes_bounded b)) as [_ Hall].
  induction Hall as [|v vs Hv _ [IH1 IH2]]; [split; reflexivity|].
  destruct (base64url_char_safe v Hv) as [Hs Hu].
  cbn [map forallb string_of_list_ascii Uri.encodeURIComponent].
  rewrite Hs, Hu, IH1, IH2. split; reflexivity.
Qed.

(** X2.  A minted token consists of letters, digits, [-] and [_] only, so
    [encodeURIComponent] leaves it as it is: the URLs the page builds for
    the installation lookup and for the upload carry the token verbatim. *)
Theorem minted_token_is_url_safe (installationId secret : string) (t0 : Z) :
  secret <> "" ->
  exists token,
    generateSignedToken installationId (Some secret) t0 = Normal token
    /\ forallb url_safe (list_ascii_of_string token) = true
    /\ Uri.encodeURIComponent token = token
    /\ Page.installation_url installationId (Some token)
       = "/api/installation/" ++ installationId ++ "?token=" ++ token
    /\ Page.upload_url installationId (Some token)
       = "/api/installation/" ++ installationId ++ "/placement?token=" ++ token.
Proof.
  intros Hsecret. destruct secret as [|c k]; [contradiction|].
  set (token := token_for (String c k) installationId (t0 + TOKEN_EXPIRY_MS)).
  exists token. split; [reflexivity|].
  destruct (base64url_text_safe
              (Buffer_from_utf8
                 (number_to_string (t0 + TOKEN_EXPIRY_MS) ++ ":"
                    ++ Buffer_toString_hex
                         (digest (String c k) installationId (t0 + TOKEN_EXPIRY_MS)))))
    as [Hsafe Henc].
  fold (token_for (String c k) installationId (t0 + TOKEN_EXPIRY_MS)) in Hsafe, Henc.
  fold token in Hsafe, Henc.
  destruct (token_for_nonempty (String c k) installationId (t0 + TOKEN_EXPIRY_MS))
    as (c' & r & Htok).
  fold token in Htok.
  repeat split; [exact Hsafe|exact Henc| |].
  - unfold Page.installation_url. rewrite Htok. cbn [Page.given Page.text_or].
    rewrite <- Htok, Henc. reflexivity.
  - unfold Page.upload_url. rewrite Htok. cbn [Page.given Page.text_or].
    rewrite <- Htok, Henc. reflexivity.
Qed.

Lemma minted_token_is_url_safe_witness :
  exists token,
    generateSignedToken "1001" (Some "s3cret") 1700000000000 = Normal token
    /\ forallb url_safe (list_ascii_of_string token) = true
    /\ Uri.encodeURIComponent token = token
    /\ Page.installation_url "1001" (Some token)
       = "/api/installation/" ++ "1001" ++ "?token=" ++ token
    /\ Page.upload_url "1001" (Some token)
       = "/api/installation/" ++ "1001" ++ "/placement?token=" ++ token.
Proof.
  apply (minted_token_is_url_safe "1001" "s3cret" 1700000000000). discriminate.
Defined.

(** ** What an accepted token proves *)




(** ** Tampering and expiry *)

(** X4.  Moving the expiry of a minted token to another time, with the
    signature kept, does not extend it: before the new expiry the token is
    rejected with "Invalid token signature", provided the two signed texts do
    not collide under HMAC-SHA256. *)
Theorem changed_expiry_is_rejected
  (installationId secret : string) (t0 other now : Z) :
  secret <> "" ->
  other <> t0 + TOKEN_EXPIRY_MS ->
  now <= other ->
  collision_free secret
    (installationId ++ ":" ++ number_to_string (t0 + TOKEN_EXPIRY_MS))
    (installationId ++ ":" ++ number_to_string other) ->
  let signature :=
    Sha256.hmac_sha256
      (Buffer_from_utf8 secret)
      (Buffer_from_utf8
         (installationId ++ ":" ++ number_to_string (t0 + TOKEN_EXPIRY_MS))) in
  let forged :=
    Buffer_toString_base64url
      (Buffer_from_utf8 (number_to_string other ++ ":" ++ Buffer_toString_hex signature)) in
  verifySignedToken installationId (Some forged) (Some secret) now
  = mkVerify false (Some "Invalid token signature").
Proof.
  intros Hsecret Hother Hnow Hfree signature forged.
  destruct secret as [|c k]; [contradiction|].
  change forged with (crafted_token other signature).
  destruct (crafted_token_nonempty other signature) as (c' & r & Htok).
  rewrite Htok, verifySignedToken_checked, <- Htok, checkToken_crafted.
  replace (now >? other) with false
    by (symmetry; rewrite Z.gtb_ltb; apply Z.ltb_ge; exact Hnow).
  rewrite timingSafeEqual_differ; [reflexivity| |].
  - unfold signature, digest. rewrite !Sha256Facts.hmac_sha256_length. reflexivity.
  - intros Hsame. apply Hother. apply Hfree in Hsame.
    apply append_inv_head in Hsame. apply append_inv_head in Hsame.
    symmetry. exact (number_to_string_injective _ _ Hsame).
Qed.

Lemma changed_expiry_is_rejected_witness :
  let signature :=
    Sha256.hmac_sha256
      (Buffer_from_utf8 "s3cret")
      (Buffer_from_utf8
         ("1001" ++ ":" ++ number_to_string (1700000000000 + TOKEN_EXPIRY_MS))) in
  let forged :=
    Buffer_toString_base64url
      (Buffer_from_utf8 (number_to_string 1800000000000 ++ ":"
                           ++ Buffer_toString_hex signature)) in
  verifySignedToken "1001" (Some forged) (Some "s3cret") 1750000000000
  = mkVerify false (Some "Invalid token signature").
Proof.
  apply (changed_expiry_is_rejected "1001" "s3cret" 1700000000000 1800000000000
           1750000000000).
  - discriminate.
  - vm_compute. discriminate.
  - vm_compute. discriminate.
  - intros H. vm_compute in H. discriminate H.
Defined.

(** X5.  The expiry is checked before the signature: after its expiry a
    minted token is rejected with "Token has expired" for every installation
    it is presented for, the one it was minted for or another. *)
Theorem expired_token_reports_expiry
  (minted presented secret : string) (t0 t1 : Z) :
  secret <> "" ->
  t0 + TOKEN_EXPIRY_MS < t1 ->
  exists token,
    generateSignedToken minted (Some secret) t0 = Normal token
    /\ verifySignedToken presented (Some token) (Some secret) t1
       = mkVerify false (Some "Token has expired")
    /\ requireAuth presented (Some token) (Some secret) t1
       = Denied 403 (Some "Token has expired").
Proof.
  intros Hsecret Hlate. destruct secret as [|c k]; [contradiction|].
  exists (token_for (String c k) minted (t0 + TOKEN_EXPIRY_MS)).
  split; [reflexivity|].
  assert (H : verifySignedToken presented
                (Some (token_for (String c k) minted (t0 + TOKEN_EXPIRY_MS)))
                (Some (String c k)) t1
              = mkVerify false (Some "Token has expired")).
  { destruct (token_for_nonempty (String c k) minted (t0 + TOKEN_EXPIRY_MS))
      as (c' & r & Htok).
    rewrite Htok, verifySignedToken_checked, <- Htok, checkToken_minted.
    replace (t1 >? t0 + TOKEN_EXPIRY_MS) with true; [reflexivity|].
    symmetry. apply Z.gtb_lt. exact Hlate. }
  split; [exact H|]. unfold requireAuth. rewrite H. reflexivity.
Qed.

Lemma expired_token_reports_expiry_witness :
  exists token,
    generateSignedToken "1001" (Some "s3cret") 1700000000000 = Normal token
    /\ verifySignedToken "1002" (Some token) (Some "s3cret") 1800000000000
       = mkVerify false (Some "Token has expired")
    /\ requireAuth "1002" (Some token) (Some "s3cret") 1800000000000
       = Denied 403 (Some "Token has expired").
Proof.
  apply (expired_token_reports_expiry "1001" "1002" "s3cret"
           1700000000000 1800000000000).
  - discriminate.
  - vm_compute. reflexivity.
Defined.

(** ** The middleware and the link generator *)




(** X7.  [GET /api/generate-url/:id] answers 500 when no secret is
    configured.  With a secret it answers 200 with a link that ends in
    [/?id=<id>&token=<token>], whose token [requireAuth] accepts for that id
    at every time up to seven days after the link was made. *)
Theorem generated_link_is_accepted
  (SITE_PLAN_SECRET BASE_URL PORT : option string) (now : Z) (id : string) :
  (Routes.nonempty SITE_PLAN_SECRET = false ->
   Routes.http_status (fst (Routes.generate_url_route SITE_PLAN_SECRET BASE_URL PORT now id))
   = 500)
  /\ (Routes.nonempty SITE_PLAN_SECRET = true ->
      exists baseUrl token,
        Routes.generate_url_route SITE_PLAN_SECRET BASE_URL PORT now id
        = (Routes.mkAnswer 200
             (Routes.SignedUrlContent id
                (baseUrl ++ "/?id=" ++ id ++ "&token=" ++ token) "7 days"), [])
        /\ (Routes.nonempty BASE_URL = true -> BASE_URL = Some baseUrl)
        /\ (Routes.nonempty BASE_URL = false -> Routes.nonempty PORT = false ->
            baseUrl = "http://localhost:5000")
        /\ forall later,
             later <= now + TOKEN_EXPIRY_MS ->
             requireAuth id (Some token) SITE_PLAN_SECRET later = Next).
Proof.
  split.
  - intros Hno. unfold Routes.generate_url_route. rewrite Hno. reflexivity.
  - intros Hyes. unfold Routes.generate_url_route. rewrite Hyes. cbn [negb].
    destruct SITE_PLAN_SECRET as [[|c k]|]; try discriminate.
    exists (match BASE_URL with
            | Some (String b base) => String b base
            | _ => "http://localhost:"
                     ++ match PORT with
                        | Some (String p port) => String p port
                        | _ => "5000"
                        end
            end).
    exists (token_for (String c k) id (now + TOKEN_EXPIRY_MS)).
    split; [reflexivity|]. split; [|split].
    + destruct BASE_URL as [[|b base]|]; try discriminate. reflexivity.
    + destruct BASE_URL as [[|b base]|]; try discriminate;
        destruct PORT as [[|p port]|]; try discriminate; reflexivity.
    + intros later Hlater. unfold requireAuth.
      destruct (token_for_nonempty (String c k) id (now + TOKEN_EXPIRY_MS))
        as (c' & r & Htok).
      rewrite Htok, verifySignedToken_checked, <- Htok, checkToken_minted.
      replace (later >? now + TOKEN_EXPIRY_MS) with false
        by (symmetry; rewrite Z.gtb_ltb; apply Z.ltb_ge; exact Hlater).
      rewrite timingSafeEqual_same. reflexivity.
Qed.

Lemma generated_link_is_accepted_witness :
  exists baseUrl token,
    Routes.generate_url_route (Some "s3cret") (Some "https://plans.example") None
                              1700000000000 "1001"
    = (Routes.mkAnswer 200
         (Routes.SignedUrlContent "1001"
            (baseUrl ++ "/?id=" ++ "1001" ++ "&token=" ++ token) "7 days"), [])
    /\ baseUrl = "https://plans.example"
    /\ requireAuth "1001" (Some token) (Some "s3cret") 1700600000000 = Next.
Proof.
  destruct (generated_link_is_accepted (Some "s3cret") (Some "https://plans.example")
              None 1700000000000 "1001") as [_ H].
  destruct (H eq_refl) as (baseUrl & token & H1 & H2 & _ & H4).
  exists baseUrl, token. split; [exact H1|]. split.
  - specialize (H2 eq_refl). injection H2 as <-. reflexivity.
  - apply H4. vm_compute. discriminate.
Defined.

End TokenExtras.

(** * Further properties of the routes *)

Module RouteFacts.
Import JsRuntime HubSpotClient PlacementRoute HubSpotRecords Routes RuntimeFacts.
Local Open Scope string_scope.
Local Open Scope Z_scope.

Lemma requireAuth_denied id token secret now :
  Server.valid (Server.verifySignedToken id token secret now) = false ->
  Server.requireAuth id token secret now
  = Server.Denied 403 (Server.error (Server.verifySignedToken id token secret now)).
Proof. intros H. unfold Server.requireAuth. rewrite H. reflexivity. Qed.

Lemma requireAuth_next id token secret now :
  Server.requireAuth id token secret now = Server.Next ->
  Server.valid (Server.verifySignedToken id token secret now) = true.
Proof.
  unfold Server.requireAuth.
  destruct (Server.valid (Server.verifySignedToken id token secret now));
    [reflexivity|discriminate].
Qed.

(** X8.  A request whose token does not verify is answered 403 with the
    reason by each of the three guarded routes; nothing is logged, nothing is
    asked of HubSpot or Google, and the answer depends neither on the
    configuration nor on what those services would have said. *)
Theorem denied_request_reaches_nothing
  (SITE_PLAN_SECRET token : option string) (id : string) (now : Z) :
  id <> "" ->
  Server.valid (Server.verifySignedToken id token SITE_PLAN_SECRET now) = false ->
  let reason := Server.error (Server.verifySignedToken id token SITE_PLAN_SECRET now) in
  (forall HUBSPOT_TOKEN isoTime image remote,
     placement_route SITE_PLAN_SECRET HUBSPOT_TOKEN now isoTime
                     (mkRequest id token image) remote
     = (Some (mkReply 403 (AccessDenied reason)), []))
  /\ (forall HUBSPOT_TOKEN lookup,
        installation_route SITE_PLAN_SECRET HUBSPOT_TOKEN now id token lookup
        = (Some (mkAnswer 403 (ErrorContent "Access denied" reason)), []))
  /\ (forall GOOGLE_MAPS_API_KEY address exchange,
        geocode_route SITE_PLAN_SECRET GOOGLE_MAPS_API_KEY now address (Some id) token
                      exchange
        = (mkAnswer 403 (ErrorContent "Access denied" reason), [], [])).
Proof.
  intros Hid Hbad reason. pose proof (requireAuth_denied _ _ _ _ Hbad) as Hden.
  repeat split.
  - intros. unfold placement_route. cbn [params_id query_token]. rewrite Hden.
    reflexivity.
  - intros. unfold installation_route.
    destruct id as [|c r]; [contradiction|]. cbn [request_id]. rewrite Hden.
    reflexivity.
  - intros. unfold geocode_route. cbn [request_id]. rewrite Hden. reflexivity.
Qed.

Lemma denied_request_reaches_nothing_witness :
  placement_route (Some "s3cret") (Some "pat-na1") 1700000000000
                  "2024-01-02T03:04:05.678Z"
                  (mkRequest "1001" None (Some [])) 
                  (mkUpstream (NetworkError "a") (NetworkError "b") (NetworkError "c"))
  = (Some (mkReply 403 (AccessDenied (Some "Missing authentication token"))), []).
Proof.
  destruct (denied_request_reaches_nothing (Some "s3cret") None "1001" 1700000000000
              ltac:(discriminate) eq_refl) as [H _].
  apply H.
Defined.

(** ** The placement route *)

(** A request with an image, the body [{"id":987}] of a stored file and the
    body [{"engagement":{"id":55}}] of a created note. *)
Definition image_request : Request := mkRequest "1001" None (Some []).

Definition stored_file : HttpOutcome :=
  let q := String (ascii_of_nat 34) EmptyString in
  HttpResponse 201 (JsonText ("{" ++ q ++ "id" ++ q ++ ":987}")
                             (JObj [("id", JNum 987)])).

Definition created_note : HttpOutcome :=
  let q := String (ascii_of_nat 34) EmptyString in
  HttpResponse 200
    (JsonText ("{" ++ q ++ "engagement" ++ q ++ ":{" ++ q ++ "id" ++ q ++ ":55}}")
              (JObj [("engagement", JObj [("id", JNum 55)])])).

Lemma attach_fulfilled_note_created note association parsed logs :
  attachFileToInstallation note association = (Fulfilled parsed, logs) ->
  note_created note = true.
Proof.
  intros H. destruct (note_created note) eqn:E; [reflexivity|].
  destruct (PlacementFacts.attach_without_note note association E) as (e & He).
  rewrite He in H. discriminate.
Qed.

(** X9.  When the placement route sends an answer, its status is 200, 400,
    403 or 500.  It is 200 only if the request was authenticated, HubSpot is
    configured, an image came with the request, the upload was fulfilled and
    the note was created; the answer then carries the id of the uploaded
    file.  It is 400 only if the image is missing, and 403 only if the token
    did not verify. *)
Theorem placement_answer_statuses
  (SITE_PLAN_SECRET HUBSPOT_TOKEN : option string) (now : Z) (isoTime : string)
  (req : Request) (remote : Upstream) (reply : Reply) :
  fst (placement_route SITE_PLAN_SECRET HUBSPOT_TOKEN now isoTime req remote)
  = Some reply ->
  (status reply = 200 \/ status reply = 400 \/ status reply = 403
   \/ status reply = 500)
  /\ (status reply = 200 ->
      Server.requireAuth (params_id req) (query_token req) SITE_PLAN_SECRET now
      = Server.Next
      /\ nonempty HUBSPOT_TOKEN = true
      /\ file req <> None
      /\ note_created (note_exchange remote) = true
      /\ exists uploaded fileName,
           uploadFileToHubSpot (upload_exchange remote) = Fulfilled uploaded
           /\ payload reply
              = Saved (fileId uploaded) fileName "Site plan saved successfully")
  /\ (status reply = 400 -> file req = None)
  /\ (status reply = 403 ->
      Server.requireAuth (params_id req) (query_token req) SITE_PLAN_SECRET now
      <> Server.Next).
Proof.
  unfold placement_route.
  destruct (Server.requireAuth (params_id req) (query_token req) SITE_PLAN_SECRET now)
    as [|st message] eqn:Hauth.
  2:{ unfold Server.requireAuth in Hauth.
      destruct (negb _) in Hauth; [|discriminate]. injection Hauth as <- _.
      cbn [fst]. intros H. injection H as <-. cbn [status].
      repeat split; try discriminate. right. right. left. reflexivity. }
  unfold placement_handler.
  destruct HUBSPOT_TOKEN as [[|c k]|].
  1,3: cbn [fst]; intros H; injection H as <-; cbn [status];
       repeat split; try discriminate; do 3 right; reflexivity.
  destruct (file req) as [image|].
  2:{ cbn [fst]. intros H. injection H as <-. cbn [status].
      repeat split; try discriminate. right. left. reflexivity. }
  destruct (uploadFileToHubSpot (upload_exchange remote)) as [uploaded|e|e].
  2:{ cbn [fst]. intros H. injection H as <-. cbn [status save_failure].
      repeat split; try discriminate. do 3 right. reflexivity. }
  2:{ cbn [fst]. discriminate. }
  destruct (attachFileToInstallation (note_exchange remote) (association_exchange remote))
    as [[parsed|e|e] logs] eqn:Hattach.
  - cbn [fst]. intros H. injection H as <-. cbn [status payload].
    split; [left; reflexivity|]. split; [|split; [discriminate|discriminate]].
    intros _. repeat split; try discriminate.
    + exact (attach_fulfilled_note_created _ _ _ _ Hattach).
    + eauto.
  - cbn [fst]. intros H. injection H as <-. cbn [status save_failure].
    repeat split; try discriminate. do 3 right. reflexivity.
  - cbn [fst]. discriminate.
Qed.

Lemma placement_answer_statuses_witness :
  let remote := mkUpstream stored_file created_note
                           (NetworkError "ECONNRESET") in
  note_created (note_exchange remote) = true
  /\ exists uploaded fileName,
       uploadFileToHubSpot (upload_exchange remote) = Fulfilled uploaded
       /\ Saved (Some (JNum 987)) "site-plan-1001-2024-01-02T03-04-05-678Z.png"
                "Site plan saved successfully"
          = Saved (fileId uploaded) fileName "Site plan saved successfully".
Proof.
  intros remote.
  destruct (placement_answer_statuses None (Some "pat-na1") 1700000000000
              "2024-01-02T03:04:05.678Z" image_request remote
              (mkReply 200 (Saved (Some (JNum 987))
                              "site-plan-1001-2024-01-02T03-04-05-678Z.png"
                              "Site plan saved successfully"))
              eq_refl) as (_ & H & _).
  destruct (H eq_refl) as (_ & _ & _ & Hnote & Hup). split; [exact Hnote|exact Hup].
Defined.

(** X10.  When the upload of the image is rejected, the route answers 500
    with the message of that rejection, and neither the request that creates
    the note nor the association is consulted: the whole result is the same
    whatever they would have ended with. *)
Theorem failed_upload_stops_the_route
  (SITE_PLAN_SECRET : option string) (c : ascii) (k : string) (now : Z)
  (isoTime : string) (req : Request) (image : Buffer)
  (upload note association note' association' : HttpOutcome) (e : JsError) :
  Server.requireAuth (params_id req) (query_token req) SITE_PLAN_SECRET now
  = Server.Next ->
  file req = Some image ->
  uploadFileToHubSpot upload = Rejected e ->
  let route remote :=
    placement_route SITE_PLAN_SECRET (Some (String c k)) now isoTime req remote in
  route (mkUpstream upload note association)
  = route (mkUpstream upload note' association')
  /\ fst (route (mkUpstream upload note association))
     = Some (mkReply 500
               (Failed (if String.eqb (error_message e) ""
                        then "Failed to save site plan" else error_message e)))
  /\ snd (route (mkUpstream upload note association))
     = [Log ("Uploading site plan for installation " ++ params_id req ++ "...");
        LogError ("Error saving site plan: " ++ error_message e)].
Proof.
  intros Hauth Hfile Hupload route.
  unfold route, placement_route. rewrite Hauth. unfold placement_handler.
  rewrite Hfile. cbn [upload_exchange]. rewrite Hupload. repeat split.
Qed.

Lemma failed_upload_stops_the_route_witness :
  fst (placement_route None (Some "pat-na1") 1700000000000 "2024-01-02T03:04:05.678Z"
         image_request
         (mkUpstream (NetworkError "ETIMEDOUT") created_note
                     (NetworkError "ECONNRESET")))
  = Some (mkReply 500 (Failed "ETIMEDOUT")).
Proof.
  destruct (failed_upload_stops_the_route None "p" "at-na1" 1700000000000
              "2024-01-02T03:04:05.678Z" image_request []
              (NetworkError "ETIMEDOUT") created_note
              (NetworkError "ECONNRESET") created_note
              (NetworkError "ECONNRESET") (Error "ETIMEDOUT")
              eq_refl eq_refl eq_refl) as (_ & H & _).
  exact H.
Defined.

(** X11.  [uploadFileToHubSpot] is fulfilled exactly when the response has
    status 200 or 201 and a JSON body other than [null]; the file id and the
    URL are then the [id] and [url] properties of the body.  Every other
    exchange rejects it, and no exchange leaves it unsettled. *)
Theorem upload_fulfilled_iff (exchange : HttpOutcome) :
  (forall uploaded,
     uploadFileToHubSpot exchange = Fulfilled uploaded
     <-> exists statusCode data parsed,
           exchange = HttpResponse statusCode (JsonText data parsed)
           /\ (statusCode = 200 \/ statusCode = 201)
           /\ parsed <> JNull
           /\ property (Some parsed) "id" = Normal (fileId uploaded)
           /\ property (Some parsed) "url" = Normal (url uploaded))
  /\ (forall e, uploadFileToHubSpot exchange <> Crashed e).
Proof.
  split.
  - intros uploaded. split.
    + destruct exchange as [message|statusCode [data reason|data parsed]];
        cbn [uploadFileToHubSpot JSON_parse bind try_catch]; try discriminate.
      destruct ((statusCode =? 201) || (statusCode =? 200)) eqn:Hst.
      * destruct parsed; cbn [property bind try_catch]; try discriminate;
          intros H; injection H as <-; exists statusCode, data;
          eexists; (split; [reflexivity|]);
          (split; [apply orb_prop in Hst; destruct Hst as [H|H];
                   apply Z.eqb_eq in H; lia|]);
          (split; [discriminate|split; reflexivity]).
      * destruct parsed; cbn [property bind try_catch]; discriminate.
    + intros (statusCode & data & parsed & -> & Hst & Hnull & Hid & Hurl).
      cbn [uploadFileToHubSpot JSON_parse bind try_catch].
      replace ((statusCode =? 201) || (statusCode =? 200)) with true
        by (symmetry; apply orb_true_iff; rewrite !Z.eqb_eq; lia).
      rewrite Hid. cbn [bind]. rewrite Hurl. cbn [bind try_catch].
      destruct uploaded; reflexivity.
  - intros e.
    destruct exchange as [message|statusCode [data reason|data parsed]];
      cbn [uploadFileToHubSpot JSON_parse bind try_catch]; try discriminate.
    destruct ((statusCode =? 201) || (statusCode =? 200));
      destruct parsed; cbn [property bind try_catch]; discriminate.
Qed.

Lemma dash_separators_clean s :
  without ":" (dash_separators s) /\ without "." (dash_separators s)
  /\ String.length (dash_separators s) = String.length s.
Proof.
  induction s as [|c r (IH1 & IH2 & IH3)]; [repeat split|].
  cbn [dash_separators without String.length]. rewrite IH3.
  destruct (Ascii.eqb_spec c ":") as [->|Hc1]; cbn [orb].
  - repeat split; try discriminate; assumption.
  - destruct (Ascii.eqb_spec c ".") as [->|Hc2].
    + repeat split; try discriminate; assumption.
    + repeat split; assumption.
Qed.

Lemma dash_separators_get s : forall i,
  String.get i (dash_separators s)
  = option_map (fun c => if (Ascii.eqb c ":" || Ascii.eqb c ".")%bool
                         then "-"%char else c)
               (String.get i s).
Proof.
  induction s as [|c r IH]; intros i; [reflexivity|].
  destruct i as [|i]; [reflexivity|]. exact (IH i).
Qed.

(** X12.  The file name in a success answer is
    [site-plan-<id>-<stamp>.png], where the stamp is the ISO time of the
    request with every colon and every dot replaced by a dash and every
    other character kept: at each position the stamp has a dash where the
    ISO time has a colon or a dot, and the character of the ISO time
    otherwise.  So it is as long as the ISO time and has neither a colon nor
    a dot. *)
Theorem saved_file_name
  (HUBSPOT_TOKEN : option string) (isoTime : string) (req : Request)
  (remote : Upstream) (uploaded : option Json) (fileName message : string) (code : Z) :
  fst (placement_handler HUBSPOT_TOKEN isoTime req remote)
  = Some (mkReply code (Saved uploaded fileName message)) ->
  exists stamp,
    fileName = "site-plan-" ++ params_id req ++ "-" ++ stamp ++ ".png"
    /\ (forall i,
          String.get i stamp
          = option_map (fun c => if (Ascii.eqb c ":" || Ascii.eqb c ".")%bool
                                 then "-"%char else c)
                       (String.get i isoTime))
    /\ String.length stamp = String.length isoTime
    /\ without ":" stamp
    /\ without "." stamp.
Proof.
  unfold placement_handler.
  destruct HUBSPOT_TOKEN as [[|c k]|]; try discriminate.
  destruct (file req); try discriminate.
  destruct (uploadFileToHubSpot (upload_exchange remote)); try discriminate.
  destruct (attachFileToInstallation _ _) as [[parsed|e|e] logs]; try discriminate.
  cbn [fst]. intros H. injection H as _ _ <- _.
  exists (dash_separators isoTime).
  destruct (dash_separators_clean isoTime) as (H1 & H2 & H3).
  split; [reflexivity|]. split; [apply dash_separators_get|].
  repeat split; assumption.
Qed.

Lemma saved_file_name_witness :
  exists stamp,
    "site-plan-1001-2024-01-02T03-04-05-678Z.png"
    = "site-plan-" ++ "1001" ++ "-" ++ stamp ++ ".png"
    /\ (forall i,
          String.get i stamp
          = option_map (fun c => if (Ascii.eqb c ":" || Ascii.eqb c ".")%bool
                                 then "-"%char else c)
                       (String.get i "2024-01-02T03:04:05.678Z"))
    /\ String.length stamp = String.length "2024-01-02T03:04:05.678Z"
    /\ without ":" stamp
    /\ without "." stamp.
Proof.
  apply (saved_file_name (Some "pat-na1") "2024-01-02T03:04:05.678Z"
           image_request
           (mkUpstream stored_file created_note
                       (NetworkError "ECONNRESET"))
           (Some (JNum 987)) "site-plan-1001-2024-01-02T03-04-05-678Z.png"
           "Site plan saved successfully" 200 eq_refl).
Defined.

(** ** The installation record *)

Lemma filter_Boolean_nonempty parts :
  Forall (fun part => part <> "") (filter_Boolean parts).
Proof.
  induction parts as [|[[|c r]|] parts IH]; cbn [filter_Boolean];
    [constructor|exact IH| |exact IH].
  constructor; [discriminate|exact IH].
Qed.

Lemma join_empty sep parts :
  Forall (fun part => part <> "") parts -> join sep parts = "" -> parts = [].
Proof.
  intros Hall H. destruct parts as [|part [|next rest]]; [reflexivity| |].
  - inversion_clear Hall as [|? ? Hp _]. cbn [join] in H. contradiction.
  - inversion_clear Hall as [|? ? Hp _]. cbn [join] in H.
    destruct part; [contradiction|discriminate].
Qed.

Lemma append_length (a b : string) :
  String.length (a ++ b) = (String.length a + String.length b)%nat.
Proof. induction a as [|c a IH]; [reflexivity|]. cbn. rewrite IH. reflexivity. Qed.

Lemma join_length sep parts :
  String.length (join sep parts)
  = (list_sum (map String.length parts)
     + String.length sep * (length parts - 1))%nat.
Proof.
  induction parts as [|part [|next rest] IH]; [cbn; lia|cbn; lia|].
  change (join sep (part :: next :: rest))
    with (part ++ sep ++ join sep (next :: rest)).
  rewrite !append_length, IH. cbn [map list_sum length].
  replace (S (S (length rest)) - 1)%nat with (S (S (length rest) - 1)) by lia.
  rewrite Nat.mul_succ_r. unfold list_sum. cbn [fold_right]. lia.
Qed.

Lemma full_address_of_nothing (installation : Installation) :
  forallb (fun part => negb (nonempty part))
          [address installation; city installation;
           state installation; zip installation] = true ->
  getFullAddress installation = "".
Proof.
  unfold getFullAddress.
  destruct (address installation) as [[|? ?]|], (city installation) as [[|? ?]|],
    (state installation) as [[|? ?]|], (zip installation) as [[|? ?]|];
    cbn; intros H; first [reflexivity|discriminate H].
Qed.

Lemma join_concat sep parts : join sep parts = String.concat sep parts.
Proof.
  induction parts as [|part [|next rest] IH]; [reflexivity|reflexivity|].
  change (join sep (part :: next :: rest))
    with (part ++ sep ++ join sep (next :: rest)).
  rewrite IH. reflexivity.
Qed.

Lemma filter_Boolean_present parts :
  map Some (filter_Boolean parts)
  = filter (fun part => match part with
                        | Some (String _ _) => true
                        | _ => false
                        end) parts.
Proof.
  induction parts as [|[[|c r]|] parts IH]; cbn [filter_Boolean filter map];
    [reflexivity|exact IH| |exact IH].
  rewrite IH. reflexivity.
Qed.

(** X13.  [getFullAddress] writes the parts that are present (street, city,
    state and zip that are neither missing nor empty), in that order, with
    one comma and one space between two neighbours and nothing before the
    first or after the last.  So it is the empty text exactly when no part
    is present, and its length is the sum of the lengths of the parts that
    are present plus two for every part but one. *)
Theorem full_address_shape (installation : Installation) :
  let parts := [address installation; city installation;
                state installation; zip installation] in
  exists present,
    map Some present
    = filter (fun part => match part with
                          | Some (String _ _) => true
                          | _ => false
                          end) parts
    /\ getFullAddress installation = String.concat ", " present
    /\ (getFullAddress installation = "" <-> present = [])
    /\ (getFullAddress installation = ""
        <-> forallb (fun part => negb (nonempty part)) parts = true)
    /\ String.length (getFullAddress installation)
       = (list_sum (map String.length present) + 2 * (length present - 1))%nat.
Proof.
  intros parts. exists (filter_Boolean parts).
  unfold getFullAddress. fold parts.
  assert (Hnone : forall l, filter_Boolean l = []
                            <-> forallb (fun part => negb (nonempty part)) l = true).
  { induction l as [|[[|c r]|] l IH]; cbn; try exact IH; [tauto|].
    split; discriminate. }
  assert (Hempty : join ", " (filter_Boolean parts) = "" <-> filter_Boolean parts = []).
  { split.
    - apply join_empty, filter_Boolean_nonempty.
    - intros ->. reflexivity. }
  split; [apply filter_Boolean_present|].
  split; [apply join_concat|].
  split; [exact Hempty|].
  split; [rewrite <- Hnone; exact Hempty|].
  rewrite join_length. reflexivity.
Qed.

(** X14.  For an authenticated request and a configured HubSpot token, the
    installation route answers 200 with the name, the full address and the
    four address parts of the record when the lookup is fulfilled, and 404
    "Installation not found" when it is rejected, whatever the reason of the
    rejection; the reason is only logged.  The client handle made at start-up
    is always there: the route never fails for a handle that is missing. *)
Theorem installation_route_answers
  (SITE_PLAN_SECRET token : option string) (c : ascii) (k : string) (now : Z)
  (id : string) (lookup : Settled Installation) :
  id <> "" ->
  Server.requireAuth id token SITE_PLAN_SECRET now = Server.Next ->
  let result :=
    installation_route SITE_PLAN_SECRET (Some (String c k)) now id token lookup in
  getClient (startup_client (Some (String c k))) = Normal (String c k)
  /\ (forall record,
        lookup = Fulfilled record ->
        result
        = (Some (mkAnswer 200
                   (InstallationContent id (name record) (getFullAddress record)
                      (address record) (city record) (state record) (zip record))),
           []))
  /\ (forall e,
        lookup = Rejected e ->
        result
        = (Some (mkAnswer 404 (ErrorContent "Installation not found" None)),
           [LogError ("Error fetching installation: " ++ error_message e);
            LogError ("Error fetching installation: " ++ error_message e)])).
Proof.
  intros Hid Hauth result. split; [reflexivity|].
  unfold result, installation_route.
  destruct id as [|i r]; [contradiction|]. cbn [request_id]. rewrite Hauth.
  split; intros ? ->; reflexivity.
Qed.

Lemma installation_route_answers_witness :
  installation_route None (Some "pat-na1") 1700000000000 "1001" None
                     (Rejected (Error "socket hang up"))
  = (Some (mkAnswer 404 (ErrorContent "Installation not found" None)),
     [LogError "Error fetching installation: socket hang up";
      LogError "Error fetching installation: socket hang up"]).
Proof.
  destruct (installation_route_answers None None "p" "at-na1" 1700000000000 "1001"
              (Rejected (Error "socket hang up")) ltac:(discriminate) eq_refl)
    as (_ & _ & H).
  exact (H (Error "socket hang up") eq_refl).
Defined.

(** ** The geocoding route *)

(** X15.  For an authenticated request, the geocoding route checks the
    address before the configuration: a missing address is answered 400 and a
    missing Maps key 500, both without a request to Google.  Otherwise
    exactly one URL is requested, with the address percent-encoded, and the
    answer is 200 with the location of the first result when the status is
    OK and there is a result whose location can be read, 404 when the status
    is not OK or there is no result, and 500 "Geocoding failed" in every
    other case. *)
Theorem geocode_route_answers
  (SITE_PLAN_SECRET GOOGLE_MAPS_API_KEY address id token : option string)
  (now : Z) (exchange : GeoExchange) :
  Server.requireAuth (request_id None id) token SITE_PLAN_SECRET now = Server.Next ->
  let '(answer, logs, asked) :=
    geocode_route SITE_PLAN_SECRET GOOGLE_MAPS_API_KEY now address id token exchange in
  (nonempty address = false ->
   answer = mkAnswer 400 (ErrorContent "Address is required" None) /\ asked = [])
  /\ (nonempty address = true -> nonempty GOOGLE_MAPS_API_KEY = false ->
      answer = mkAnswer 500 (ErrorContent "Google Maps API not configured" None)
      /\ asked = [])
  /\ (forall text key,
        address = Some text -> nonempty address = true ->
        GOOGLE_MAPS_API_KEY = Some key -> nonempty GOOGLE_MAPS_API_KEY = true ->
        asked = ["https://maps.googleapis.com/maps/api/geocode/json?address="
                   ++ Uri.encodeURIComponent text ++ "&key=" ++ key]
        /\ (http_status answer = 200
            <-> exists status first rest lat lng,
                  exchange = GeoAnswered (mkGeoData (Some status) (Some (first :: rest)))
                  /\ status = "OK"
                  /\ located first = Normal (lat, lng)
                  /\ content answer = GeocodeContent lat lng (formatted_address first))
        /\ (http_status answer = 404
            <-> exists data,
                  exchange = GeoAnswered data
                  /\ (geo_status data <> Some "OK" \/ results data = None
                      \/ results data = Some []))
        /\ (http_status answer = 200 \/ http_status answer = 404
            \/ answer = mkAnswer 500 (ErrorContent "Geocoding failed" None))).
Proof.
  intros Hauth. unfold geocode_route. rewrite Hauth. unfold geocode_handler.
  destruct address as [[|a addr]|].
  1,3: repeat split; try discriminate; intros; discriminate.
  destruct GOOGLE_MAPS_API_KEY as [[|g key]|].
  1,3: repeat split; try discriminate; intros; discriminate.
  destruct exchange as [message|message| |[[status|] [[|first rest]|]]].
  all: cbn [geo_status results].
  all: try (destruct (String.eqb_spec status "OK") as [->|Hne]).
  all: try (destruct (located first) as [[lat lng]|e] eqn:Hloc).
  all: cbv zeta; cbv beta.
  all: split; [discriminate|]; split; [discriminate|].
  all: intros text gk Ht _ Hk _; injection Ht as <-; injection Hk as <-.
  all: split; [reflexivity|].
  all: cbn [http_status content].
  all: repeat split.
  all: try discriminate.
  all: try (intros (? & ? & ? & ? & ? & H & _); discriminate H).
  all: try (intros (? & ? & ? & ? & ? & H & Hs & Hl & _); injection H as <- <- <-;
            first [congruence|discriminate]).
  all: try (intros (? & H & _); discriminate H).
  all: try (right; right; reflexivity).
  all: try (right; left; reflexivity).
  all: try (left; reflexivity).
  all: try (intros _; eexists; split; [reflexivity|]; cbn [geo_status results];
            first [left; congruence | right; left; reflexivity
                  | right; right; reflexivity]).
  all: try (intros _; do 5 eexists; split; [reflexivity|];
            split; [reflexivity|]; split; [exact Hloc|reflexivity]).
  all: try (intros (data & H & [Hs|[Hr|Hr]]); injection H as <-;
            cbn [geo_status results] in *; first [congruence|discriminate]).
Qed.

Lemma geocode_route_answers_witness :
  snd (geocode_route None (Some "maps-key") 1700000000000 (Some "12 Elm St, Denver")
         (Some "1001") None
         (GeoAnswered (mkGeoData (Some "ZERO_RESULTS") (Some []))))
  = ["https://maps.googleapis.com/maps/api/geocode/json?address=12%20Elm%20St%2C%20Denver&key=maps-key"].
Proof.
  pose proof (geocode_route_answers None (Some "maps-key") (Some "12 Elm St, Denver")
                (Some "1001") None 1700000000000
                (GeoAnswered (mkGeoData (Some "ZERO_RESULTS") (Some []))) eq_refl) as H.
  destruct (geocode_route None (Some "maps-key") 1700000000000
              (Some "12 Elm St, Denver") (Some "1001") None
              (GeoAnswered (mkGeoData (Some "ZERO_RESULTS") (Some []))))
    as [[answer logs] asked].
  destruct H as (_ & _ & H).
  destruct (H "12 Elm St, Denver" "maps-key" eq_refl eq_refl eq_refl eq_refl)
    as (Hasked & _).
  exact Hasked.
Defined.

End RouteFacts.

(** * Properties of the page load *)

Module PageFacts.
Import JsRuntime Client Page RuntimeFacts.
Local Open Scope string_scope.
Local Open Scope Z_scope.

Definition not_demo (p : Params) : Prop :=
  match param_demo p with
  | Some d => String.eqb d "true" = false
  | None => True
  end.

Lemma demoMode_off p :
  not_demo p ->
  match param_demo p with Some d => String.eqb d "true" | None => false end = false.
Proof. unfold not_demo. destruct (param_demo p); [exact (fun H => H)|reflexivity]. Qed.

(** [init] when the configuration and the installation were loaded. *)
Lemma init_loaded p w v btn modalHidden key name address :
  given (param_id p) = true ->
  not_demo p ->
  config w = ConfigLoaded (Normal key) ->
  installation w = InstallationLoaded (Normal (name, address)) ->
  init p w v btn modalHidden
  = let '(b, more) := initCanvas key (text_or address "No address") p w in
    mkLoaded (mkView true false (errorHidden v) (errorMessage v)
                     (text_or name "Unknown") (text_or address "No address"))
             key (Some b) (Some (canvas_session b w btn modalHidden))
             (["/api/config";
               installation_url (text_or (param_id p) "") (param_token p)] ++ more).
Proof.
  intros Hid Hdemo Hconfig Hinst. unfold init.
  rewrite (demoMode_off p Hdemo), Hid, Hconfig, Hinst. reflexivity.
Qed.

Lemma text_or_nonempty v fallback :
  fallback <> "" -> text_or v fallback <> "".
Proof. intros H. destruct v as [[|c r]|]; cbn; [exact H|discriminate|exact H]. Qed.

(** X16.  When the installation has no address (the server sends the empty
    text for a record without street, city, state and zip), the page shows
    "No address" and, if a Maps key is configured, asks the server to geocode
    that very text: its third request is
    [/api/geocode?address=No%20address] followed by the id and the token. *)
Theorem missing_address_is_geocoded
  (p : Params) (w : World) (v : View) (btn : SaveButton) (modalHidden : bool)
  (key name : option string) (record : HubSpotRecords.Installation) :
  given (param_id p) = true ->
  not_demo p ->
  config w = ConfigLoaded (Normal key) ->
  given key = true ->
  forallb (fun part => negb (Routes.nonempty part))
          [HubSpotRecords.address record; HubSpotRecords.city record;
           HubSpotRecords.state record; HubSpotRecords.zip record] = true ->
  installation w
  = InstallationLoaded (Normal (name, Some (HubSpotRecords.getFullAddress record))) ->
  let loaded := init p w v btn modalHidden in
  addressText (view loaded) = "No address"
  /\ nth_error (requests loaded) 2
     = Some ("/api/geocode?address=No%20address"
               ++ auth_params (param_id p) (param_token p)).
Proof.
  intros Hid Hdemo Hconfig Hkey Hnone Hinst loaded.
  unfold loaded.
  rewrite (init_loaded p w v btn modalHidden key name _ Hid Hdemo Hconfig Hinst).
  rewrite (RouteFacts.full_address_of_nothing record Hnone).
  cbn [text_or]. unfold initCanvas. rewrite Hkey. cbn [andb negb String.eqb Ascii.eqb
    Bool.eqb].
  change (String.eqb "No address" "") with false. cbn [negb].
  destruct (geocode w) as [m| |[[lat lng]|e]]; split; reflexivity.
Qed.

Lemma missing_address_is_geocoded_witness :
  let p := mkParams (Some "1001") (Some "tok") None in
  let w := mkWorld (ConfigLoaded (Normal (Some "maps-key")))
                   (InstallationLoaded (Normal (Some "Ada", Some "")))
                   GeocodeNotOk None 390 600 in
  nth_error
    (requests (init p w (mkView false true true "" "" "")
                    (mkSaveButton true "Save Site Plan" true) true)) 2
  = Some "/api/geocode?address=No%20address&id=1001&token=tok".
Proof.
  intros p w.
  destruct (missing_address_is_geocoded p w (mkView false true true "" "" "")
              (mkSaveButton true "Save Site Plan" true) true (Some "maps-key")
              (Some "Ada") (HubSpotRecords.mkInstallation None None None None None)
              eq_refl I eq_refl eq_refl eq_refl eq_refl) as [_ H].
  exact H.
Defined.

(** X17.  Once the configuration and the installation are loaded, the
    page opens whatever happens to the map: the loading block is hidden, the
    main block is shown and the annotation session starts empty with the
    indoor-unit tool.  The image object that Fabric hands to the callback of
    [loadSatelliteImage] becomes the background exactly when a Maps key is
    configured, geocoding gave a location and the callback received an
    object; the canvas then holds no placeholder, also when the picture
    behind the object could not be loaded.  The placeholder is drawn exactly
    when the key is missing, geocoding gave no location or the callback
    received nothing. *)
Theorem page_opens_without_the_map
  (p : Params) (w : World) (v : View) (btn : SaveButton) (modalHidden : bool)
  (key name address : option string) :
  given (param_id p) = true ->
  not_demo p ->
  config w = ConfigLoaded (Normal key) ->
  installation w = InstallationLoaded (Normal (name, address)) ->
  let loaded := init p w v btn modalHidden in
  let located := exists lat lng, geocode w = GeocodeLoaded (Normal (lat, lng)) in
  loadingHidden (view loaded) = true
  /\ mainHidden (view loaded) = false
  /\ customerName (view loaded) = text_or name "Unknown"
  /\ (exists s,
        session loaded = Some s
        /\ reachable s
        /\ currentTool s = idu /\ linePoints s = []
        /\ marker_present IDU s = false /\ marker_present ODU s = false)
  /\ (forall pictureLoaded,
        background loaded = Some (Satellite pictureLoaded)
        <-> given key = true /\ located /\ callbackImage w = Some pictureLoaded)
  /\ (background loaded = Some Placeholder
      <-> given key = false \/ ~ located \/ callbackImage w = None)
  /\ (forall pictureLoaded s,
        background loaded = Some (Satellite pictureLoaded) ->
        session loaded = Some s -> canvas s = [])
  /\ (forall s,
        background loaded = Some Placeholder ->
        session loaded = Some s ->
        canvas s = addPlaceholderBackground (containerWidth w) (containerHeight w)).
Proof.
  intros Hid Hdemo Hconfig Hinst loaded located. unfold loaded, located.
  rewrite (init_loaded p w v btn modalHidden key name address Hid Hdemo Hconfig Hinst).
  assert (Haddr : String.eqb (text_or address "No address") "" = false).
  { apply String.eqb_neq. apply text_or_nonempty. discriminate. }
  unfold initCanvas. rewrite Haddr. cbn [negb]. rewrite andb_true_r.
  assert (Hsession : forall b,
            exists s, Some (canvas_session b w btn modalHidden) = Some s
                      /\ reachable s /\ currentTool s = idu /\ linePoints s = []
                      /\ marker_present IDU s = false /\ marker_present ODU s = false).
  { intros b. eexists. split; [reflexivity|]. unfold canvas_session.
    split; [apply reachable_initial|]. unfold marker_present. cbn.
    rewrite !SessionFacts.present_backdrop. repeat split. }
  assert (Hplaceholder :
            canvas (canvas_session Placeholder w btn modalHidden)
            = addPlaceholderBackground (containerWidth w) (containerHeight w)).
  { unfold canvas_session, addPlaceholderBackground. cbn [initial_session canvas].
    rewrite !length_app, !repeat_length. cbn [length].
    rewrite !repeat_app. reflexivity. }
  assert (Hcases :
            forall b : Background,
              (forall pictureLoaded,
                 b = Satellite pictureLoaded
                 <-> given key = true
                     /\ (exists lat lng, geocode w = GeocodeLoaded (Normal (lat, lng)))
                     /\ callbackImage w = Some pictureLoaded) ->
              (forall pictureLoaded,
                 Some b = Some (Satellite pictureLoaded)
                 <-> given key = true
                     /\ (exists lat lng, geocode w = GeocodeLoaded (Normal (lat, lng)))
                     /\ callbackImage w = Some pictureLoaded)
              /\ (Some b = Some Placeholder
                  <-> given key = false
                      \/ ~ (exists lat lng, geocode w = GeocodeLoaded (Normal (lat, lng)))
                      \/ callbackImage w = None)
              /\ (forall pictureLoaded s,
                    Some b = Some (Satellite pictureLoaded) ->
                    Some (canvas_session b w btn modalHidden) = Some s ->
                    canvas s = [])
              /\ (forall s,
                    Some b = Some Placeholder ->
                    Some (canvas_session b w btn modalHidden) = Some s ->
                    canvas s
                    = addPlaceholderBackground (containerWidth w) (containerHeight w))).
  { intros b Hb. split; [|split; [|split]].
    - intros pictureLoaded. split.
      + intros H. injection H as ->. apply Hb. reflexivity.
      + intros H. apply Hb in H. rewrite H. reflexivity.
    - destruct b as [pictureLoaded|].
      + split; [discriminate|].
        destruct (proj1 (Hb pictureLoaded) eq_refl) as (Hk & Hl & Hi).
        intros [H|[H|H]]; [congruence|contradiction|congruence].
      + split; [|reflexivity]. intros _.
        destruct (given key) eqn:Hk; [|left; reflexivity]. right.
        destruct (callbackImage w) as [pictureLoaded|] eqn:Hi; [|right; reflexivity].
        left. intros Hl.
        assert (H : Placeholder = Satellite pictureLoaded)
          by (apply Hb; split; [first [reflexivity|exact Hk]
                               |split; [exact Hl|first [reflexivity|exact Hi]]]).
        discriminate H.
    - intros pictureLoaded s H Hs. injection H as ->. injection Hs as <-. reflexivity.
    - intros s H Hs. injection H as ->. injection Hs as <-. exact Hplaceholder. }
  destruct (given key) eqn:Hkey.
  - destruct (geocode w) as [m| |[[lat lng]|e]] eqn:Hgeo;
      [| |destruct (callbackImage w) as [pictureLoaded|] eqn:Himage|];
      cbn [view loadingHidden mainHidden customerName session background];
      (split; [reflexivity|]); (split; [reflexivity|]); (split; [reflexivity|]);
      (split; [apply Hsession|]); apply Hcases; intros loaded'; split;
      try discriminate;
      try (intros (_ & (? & ? & H) & _); discriminate H);
      try (intros (_ & _ & H); discriminate H).
    + intros H. injection H as <-. repeat split. eauto.
    + intros (_ & _ & H). injection H as <-. reflexivity.
  - cbn [view loadingHidden mainHidden customerName session background].
    (split; [reflexivity|]); (split; [reflexivity|]); (split; [reflexivity|]);
      (split; [apply Hsession|]). apply Hcases. intros loaded'. split; [discriminate|].
    intros (H & _). discriminate H.
Qed.

Lemma page_opens_without_the_map_witness :
  let p := mkParams (Some "1001") (Some "tok") None in
  let w := mkWorld (ConfigLoaded (Normal (Some "maps-key")))
                   (InstallationLoaded (Normal (Some "Ada", Some "12 Elm St")))
                   (GeocodeLoaded (Normal ("39.7392", "-104.9903")))
                   (Some false) 390 600 in
  let loaded := init p w (mkView false true true "" "" "")
                     (mkSaveButton true "Save Site Plan" true) true in
  mainHidden (view loaded) = false
  /\ background loaded = Some (Satellite false)
  /\ forall s, session loaded = Some s -> canvas s = [].
Proof.
  intros p w loaded.
  destruct (page_opens_without_the_map p w (mkView false true true "" "" "")
              (mkSaveButton true "Save Site Plan" true) true (Some "maps-key")
              (Some "Ada") (Some "12 Elm St") eq_refl I eq_refl eq_refl)
    as (_ & Hmain & _ & _ & Hsat & _ & Hempty & _).
  assert (Hback : background loaded = Some (Satellite false)).
  { apply Hsat. split; [reflexivity|]. split; [|reflexivity].
    exists "39.7392", "-104.9903". reflexivity. }
  split; [exact Hmain|]. split; [exact Hback|].
  intros s Hs. exact (Hempty false s Hback Hs).
Defined.

(** X18.  [init] always hides the loading block and ends in one of two
    ways: the main block is shown and a session exists, or the main block is
    hidden, the error block is shown with a message that is not empty, and
    neither a canvas nor a session exists.  Without an id and without
    [demo=true] it ends the second way and requests nothing; in demo mode
    the installation is never requested. *)
Theorem init_outcomes
  (p : Params) (w : World) (v : View) (btn : SaveButton) (modalHidden : bool) :
  let loaded := init p w v btn modalHidden in
  loadingHidden (view loaded) = true
  /\ ((mainHidden (view loaded) = false /\ session loaded <> None
       /\ errorHidden (view loaded) = errorHidden v)
      \/ (mainHidden (view loaded) = true /\ errorHidden (view loaded) = false
          /\ errorMessage (view loaded) <> "" /\ session loaded = None
          /\ background loaded = None))
  /\ (given (param_id p) = false -> not_demo p ->
      requests loaded = [] /\ mainHidden (view loaded) = true)
  /\ (param_demo p = Some "true" ->
      forall url, In url (requests loaded) ->
                  substring 0 18 url <> "/api/installation/").
Proof.
  intros loaded. unfold loaded, init.
  assert (Hfail : forall m, load_failure m <> "").
  { intros m. unfold load_failure. destruct (String.eqb_spec m ""); [discriminate|assumption]. }
  assert (Htext : forall a b, text_or a (text_or b "Installation not found") <> "").
  { intros a b. apply text_or_nonempty, text_or_nonempty. discriminate. }
  assert (Hcanvas : forall key address url,
             In url (snd (initCanvas key address p w)) ->
             substring 0 18 url <> "/api/installation/").
  { intros key address url. unfold initCanvas.
    destruct (given key && negb (String.eqb address ""));
      [destruct (geocode w) as [?| |[[? ?]|?]]|]; cbn [snd In];
      intros H; repeat (destruct H as [<-|H]; [discriminate|]); destruct H. }
  split; [|split; [|split]].
  4: { intros Hdemo. rewrite Hdemo. rewrite String.eqb_refl. cbn [negb andb].
       rewrite andb_false_r.
       destruct (config w) as [m| |[key|e]];
         try (cbn [requests In]; intros url [<-|[]]; discriminate).
       destruct (initCanvas key _ p w) as [b more] eqn:E.
       cbn [requests app In]. intros url [<-|H]; [discriminate|].
       apply (Hcanvas key "123 Main St, Denver, CO 80202" url). rewrite E. exact H. }
  3: { intros Hid Hdemo. rewrite Hid. rewrite (demoMode_off p Hdemo).
       cbn. split; reflexivity. }
  all: destruct (negb (given (param_id p)) && negb _);
    [cbn; try reflexivity; right; repeat split; discriminate|].
  all: destruct (config w) as [m| |[key|e]];
    try (cbn; try reflexivity; right; repeat split; first [apply Hfail|discriminate]).
  all: destruct (negb _ && given (param_id p)).
  all: try (destruct (installation w) as [m'|[[m1 m2]|e']|[[nm ad]|e']]).
  all: try (destruct (initCanvas key _ p w) as [b more]).
  all: cbn [view loadingHidden mainHidden errorHidden errorMessage session
            background showError].
  all: try reflexivity.
  all: try (left; repeat split; discriminate).
  all: right; repeat split; first [apply Hfail|apply Htext|discriminate].
Qed.

(** ** The query of the geocoding request *)

Lemma split_cons sep a b :
  without sep a -> split sep (a ++ String sep b) = a :: split sep b.
Proof.
  intros Ha. induction a as [|c r IH].
  - cbn [append split]. rewrite Ascii.eqb_refl. reflexivity.
  - destruct Ha as [Hc Hr]. cbn [append split].
    apply Ascii.eqb_neq in Hc. rewrite Hc, (IH Hr). reflexivity.
Qed.

Lemma without_app sep a b : without sep a -> without sep b -> without sep (a ++ b).
Proof.
  intros Ha Hb. induction a as [|c r IH]; [exact Hb|].
  destruct Ha as [Hc Hr]. split; [exact Hc|apply IH; exact Hr].
Qed.

Lemma encoded_byte_plain c :
  (if Uri.unreserved c then negb (Ascii.eqb c "&")
   else negb (Ascii.eqb (Uri.upper_hex_digit (code c / 16)) "&")
        && negb (Ascii.eqb (Uri.upper_hex_digit (code c mod 16)) "&")) = true.
Proof.
  pose proof (below_checked
    (fun k => let c := ascii_of_N k in
              if Uri.unreserved c then negb (Ascii.eqb c "&")
              else negb (Ascii.eqb (Uri.upper_hex_digit (code c / 16)) "&")
                   && negb (Ascii.eqb (Uri.upper_hex_digit (code c mod 16)) "&"))
    256 eq_refl (code c) (code_bounded c)) as H.
  cbv zeta beta in H. rewrite ascii_of_code in H. exact H.
Qed.

Lemma encoded_without_ampersand s : without "&" (Uri.encodeURIComponent s).
Proof.
  induction s as [|c r IH]; [exact I|].
  cbn [Uri.encodeURIComponent]. pose proof (encoded_byte_plain c) as H.
  destruct (Uri.unreserved c).
  - split; [|exact IH]. apply Ascii.eqb_neq, negb_true_iff, H.
  - apply andb_prop in H. destruct H as [H1 H2].
    repeat split; [discriminate| | |exact IH]; apply Ascii.eqb_neq, negb_true_iff;
      assumption.
Qed.

Lemma append_empty (a : string) : a ++ "" = a.
Proof. induction a as [|c r IH]; [reflexivity|]. cbn [append]. rewrite IH. reflexivity. Qed.

Lemma append_associative (a b c : string) : (a ++ b) ++ c = a ++ b ++ c.
Proof. induction a as [|k r IH]; [reflexivity|]. cbn [append]. rewrite IH. reflexivity. Qed.

(** X19.  Whatever the address, the id and the token are, the geocoding
    request the page sends has the address as its first parameter, followed
    by the id and the token when they are given, and no other parameter: an
    ampersand in any of the three is escaped. *)
Theorem geocode_request_parameters
  (address : string) (installationId authToken : option string) :
  split "&" (geocode_request address installationId authToken)
  = ("/api/geocode?address=" ++ Uri.encodeURIComponent address)
      :: List.app
           (if given installationId
            then ["id=" ++ Uri.encodeURIComponent (text_or installationId "")]
            else [])
           (if given authToken
            then ["token=" ++ Uri.encodeURIComponent (text_or authToken "")]
            else []).
Proof.
  assert (Hfirst : without "&" ("/api/geocode?address=" ++ Uri.encodeURIComponent address)).
  { apply without_app; [cbn; repeat split; discriminate|apply encoded_without_ampersand]. }
  assert (Hid : forall v, without "&" ("id=" ++ Uri.encodeURIComponent v)).
  { intros v. apply without_app; [cbn; repeat split; discriminate|apply encoded_without_ampersand]. }
  assert (Htoken : forall v, without "&" ("token=" ++ Uri.encodeURIComponent v)).
  { intros v. apply without_app; [cbn; repeat split; discriminate|apply encoded_without_ampersand]. }
  unfold geocode_request, auth_params.
  rewrite <- append_associative.
  destruct (given installationId), (given authToken); cbn [List.app].
  - rewrite <- append_associative.
    change ("&id=" ++ ?a) with (String "&" ("id=" ++ a)).
    change ("&token=" ++ ?a) with (String "&" ("token=" ++ a)).
    rewrite append_associative.
    change (String "&" ?a ++ ?b) with (String "&" (a ++ b)).
    rewrite (split_cons _ _ _ Hfirst), (split_cons _ _ _ (Hid _)),
      (split_without _ _ (Htoken _)). reflexivity.
  - rewrite append_empty.
    change ("&id=" ++ ?a) with (String "&" ("id=" ++ a)).
    rewrite (split_cons _ _ _ Hfirst), (split_without _ _ (Hid _)). reflexivity.
  - change ("" ++ ?a) with a.
    change ("&token=" ++ ?a) with (String "&" ("token=" ++ a)).
    rewrite (split_cons _ _ _ Hfirst), (split_without _ _ (Htoken _)). reflexivity.
  - change ("" ++ "") with "". rewrite append_empty.
    rewrite (split_without _ _ Hfirst). reflexivity.
Qed.

(** ** The placeholder grid *)

Lemma grid_steps_count (fuel : nat) (position extent : Z) :
  (Z.to_nat ((extent - position + 39) / 40) <= fuel)%nat ->
  grid_steps fuel position extent = Z.to_nat ((extent - position + 39) / 40).
Proof.
  revert position. induction fuel as [|fuel IH]; intros position Hfuel.
  - cbn [grid_steps]. lia.
  - cbn [grid_steps]. destruct (Z.ltb_spec position extent) as [Hlt|Hge].
    + assert (Hnext : (extent - position + 39) / 40
                      = (extent - (position + 40) + 39) / 40 + 1).
      { replace (extent - position + 39) with (extent - (position + 40) + 39 + 1 * 40)
          by lia.
        apply Z.div_add. lia. }
      assert (Hpos : 0 <= (extent - (position + 40) + 39) / 40).
      { apply Z.div_pos; lia. }
      rewrite IH by lia. lia.
    + assert (Hzero : (extent - position + 39) / 40 <= 0).
      { assert ((extent - position + 39) / 40 < 1); [|lia].
        apply Z.div_lt_upper_bound; lia. }
      lia.
Qed.

(** X25.  The two loops of [addPlaceholderBackground] stop by their own
    test: over a container of [width] by [height] the placeholder consists
    of one vertical line for every started 40 pixels of width, one
    horizontal line for every started 40 pixels of height, and the text;
    a container without extent gets the text alone. *)
Theorem placeholder_grid_size (width height : Z) :
  grid_lines width = Z.to_nat ((width + 39) / 40)
  /\ grid_lines height = Z.to_nat ((height + 39) / 40)
  /\ length (addPlaceholderBackground width height)
     = (Z.to_nat ((width + 39) / 40) + Z.to_nat ((height + 39) / 40) + 1)%nat
  /\ (width <= 0 -> height <= 0 -> addPlaceholderBackground width height = [Backdrop]).
Proof.
  assert (Hlines : forall extent, grid_lines extent = Z.to_nat ((extent + 39) / 40)).
  { intros extent. unfold grid_lines.
    replace ((extent + 39) / 40) with ((extent - 0 + 39) / 40) by (f_equal; lia).
    apply grid_steps_count.
    destruct (Z.le_gt_cases extent 0) as [Hle|Hgt].
    - assert ((extent - 0 + 39) / 40 < 1) by (apply Z.div_lt_upper_bound; lia). lia.
    - assert ((extent - 0 + 39) / 40 <= extent); [|lia].
      apply Z.div_le_upper_bound; lia. }
  repeat split; try apply Hlines.
  - unfold addPlaceholderBackground.
    rewrite !length_app, !repeat_length, !Hlines. cbn [length]. lia.
  - intros Hw Hh. unfold addPlaceholderBackground. rewrite !Hlines.
    assert ((width + 39) / 40 < 1) by (apply Z.div_lt_upper_bound; lia).
    assert ((height + 39) / 40 < 1) by (apply Z.div_lt_upper_bound; lia).
    replace (Z.to_nat ((width + 39) / 40)) with O by lia.
    replace (Z.to_nat ((height + 39) / 40)) with O by lia.
    reflexivity.
Qed.

End PageFacts.

(** * The canvas, the path and the save button over whole sessions *)

Module SessionExtras.
Import JsRuntime Client Drawing.
Local Open Scope Z_scope.

(** ** The point markers and the segments of a canvas *)

Lemma point_markers_app objs1 objs2 :
  point_markers (objs1 ++ objs2) = point_markers objs1 ++ point_markers objs2.
Proof. apply flat_map_app. Qed.

Lemma segments_app objs1 objs2 :
  segments (objs1 ++ objs2) = segments objs1 ++ segments objs2.
Proof. apply flat_map_app. Qed.

Lemma point_markers_kept f objs :
  (forall px py, f (PointMarker px py) = true) ->
  point_markers (filter f objs) = point_markers objs.
Proof.
  intros Hf. induction objs as [|obj objs IH]; [reflexivity|].
  cbn [filter]. destruct obj;
    match goal with
    | |- context [if f ?o then _ else _] => first [rewrite Hf|destruct (f o)]
    end; unfold point_markers in *; cbn [flat_map app]; rewrite ?IH; reflexivity.
Qed.

Lemma segments_kept f objs :
  (forall x1 y1 x2 y2 dash, f (LineSegment x1 y1 x2 y2 dash) = true) ->
  segments (filter f objs) = segments objs.
Proof.
  intros Hf. induction objs as [|obj objs IH]; [reflexivity|].
  cbn [filter]. destruct obj;
    match goal with
    | |- context [if f ?o then _ else _] => first [rewrite Hf|destruct (f o)]
    end; unfold segments in *; cbn [flat_map app]; rewrite ?IH; reflexivity.
Qed.

Lemma point_markers_solid objs : point_markers (map solid objs) = point_markers objs.
Proof.
  induction objs as [|obj objs IH]; [reflexivity|].
  destruct obj; unfold point_markers in *; cbn [map solid flat_map app];
    rewrite ?IH; reflexivity.
Qed.

Lemma segments_solid objs : segments (map solid objs) = segments objs.
Proof.
  induction objs as [|obj objs IH]; [reflexivity|].
  destruct obj; unfold segments in *; cbn [map solid flat_map app];
    rewrite ?IH; reflexivity.
Qed.

Lemma point_markers_dragged index px py objs :
  point_markers (dragObject index px py objs) = point_markers objs.
Proof.
  revert index. induction objs as [|obj objs IH]; intros [|i]; try reflexivity.
  - destruct obj; reflexivity.
  - cbn [dragObject point_markers flat_map]. f_equal. apply IH.
Qed.

Lemma segments_dragged index px py objs :
  segments (dragObject index px py objs) = segments objs.
Proof.
  revert index. induction objs as [|obj objs IH]; intros [|i]; try reflexivity.
  - destruct obj; reflexivity.
  - cbn [dragObject segments flat_map]. f_equal. apply IH.
Qed.

Lemma point_markers_cleared objs : point_markers (background_objects objs) = [].
Proof.
  induction objs as [|obj objs IH]; [reflexivity|].
  destruct obj; cbn in *; assumption.
Qed.

Lemma segments_cleared objs : segments (background_objects objs) = [].
Proof.
  induction objs as [|obj objs IH]; [reflexivity|].
  destruct obj; cbn in *; assumption.
Qed.

Lemma point_markers_backdrop n : point_markers (repeat Backdrop n) = [].
Proof. induction n as [|n IH]; [reflexivity|exact IH]. Qed.

Lemma segments_backdrop n : segments (repeat Backdrop n) = [].
Proof. induction n as [|n IH]; [reflexivity|exact IH]. Qed.

(** ** Paths *)

Lemma consecutive_snoc (points : list Point) (q p d : Point) :
  consecutive ((q :: points) ++ [p])
  = consecutive (q :: points) ++ [(last (q :: points) d, p)].
Proof.
  revert q. induction points as [|r points IH]; intros q; [reflexivity|].
  change (consecutive ((q :: r :: points) ++ [p]))
    with ((q, r) :: consecutive ((r :: points) ++ [p])).
  rewrite IH. reflexivity.
Qed.

Lemma previous_point (points : list Point) (q p d : Point) :
  nth (length ((q :: points) ++ [p]) - 2) ((q :: points) ++ [p]) d
  = last (q :: points) d.
Proof.
  rewrite length_app. cbn [length].
  replace (S (length points) + 1 - 2)%nat with (length points) by lia.
  revert q. induction points as [|r points IH]; intros q; [reflexivity|].
  cbn [length]. change (nth (S (length points)) ((q :: r :: points) ++ [p]) d)
    with (nth (length points) ((r :: points) ++ [p]) d).
  rewrite IH. reflexivity.
Qed.

(** The canvas shows the path. *)
Definition drawn (s : Session) : Prop :=
  point_markers (canvas s) = linePoints s
  /\ segments (canvas s) = List.rev (consecutive (linePoints s)).

Lemma drawn_addLinePoint px py s : drawn s -> drawn (addLinePoint px py s).
Proof.
  intros [Hm Hs]. unfold addLinePoint.
  destruct (finish_gesture px py s).
  - unfold finishLine. destruct (length (linePoints s) <? 2)%nat; [split; assumption|].
    split; cbn; [rewrite point_markers_solid|rewrite segments_solid]; assumption.
  - unfold drawn.
    cbn [updateSaveButton with_saveBtn with_canvas with_linePoints canvas linePoints].
    destruct (linePoints s) as [|q points].
    + change (1 <? length ([] ++ [mkPoint px py]))%nat with false. cbv iota.
      rewrite point_markers_app, segments_app, Hm, Hs. split; reflexivity.
    + assert (Hlong : (1 <? length ((q :: points) ++ [mkPoint px py]))%nat = true).
      { apply Nat.ltb_lt. rewrite length_app. cbn. lia. }
      rewrite Hlong.
      change (point_markers (LineSegment ?a ?b ?c ?d ?e :: ?objs))
        with (point_markers objs).
      change (segments (LineSegment ?a ?b ?c ?d ?e :: ?objs))
        with ((mkPoint a b, mkPoint c d) :: segments objs).
      rewrite point_markers_app, segments_app, Hm, Hs.
      rewrite (previous_point points q (mkPoint px py) (mkPoint 0 0)).
      rewrite (consecutive_snoc points q (mkPoint px py) (mkPoint 0 0)).
      rewrite rev_app_distr.
      destruct (last (q :: points) (mkPoint 0 0)) as [lx ly].
      split; [reflexivity|]. simpl. rewrite !app_nil_r. reflexivity.
Qed.

Lemma drawn_placeUnit label px py color s : drawn s -> drawn (placeUnit label px py color s).
Proof.
  intros [Hm Hs]. unfold drawn, placeUnit. cbn [with_canvas canvas linePoints].
  rewrite point_markers_app, segments_app.
  rewrite point_markers_kept by reflexivity. rewrite segments_kept by reflexivity.
  cbn. rewrite !app_nil_r. split; assumption.
Qed.

Lemma drawn_step e s : drawn s -> drawn (step e s).
Proof.
  intros H. destruct e as [opt|tool| | |outcome| |index px py]; cbn [step].
  - unfold handleCanvasTap. destruct (target opt); [exact H|].
    destruct (currentTool s).
    + apply (drawn_placeUnit IDU _ _ "#3b82f6" s H).
    + apply (drawn_placeUnit ODU _ _ "#f97316" s H).
    + apply drawn_addLinePoint. exact H.
  - exact H.
  - split; cbn.
    + apply point_markers_cleared.
    + apply segments_cleared.
  - unfold savePlacement_begin. destruct (disabled (saveBtn s)); exact H.
  - unfold savePlacement_end. destruct (upload_failure outcome); exact H.
  - exact H.
  - destruct H as [Hm Hs]. split; cbn.
    + rewrite point_markers_dragged. exact Hm.
    + rewrite segments_dragged. exact Hs.
Qed.

(** X20.  In every reachable session the canvas shows the path: the point
    markers on the canvas are the points of [linePoints], in the order they
    were tapped, and the line segments join each point to the next one, the
    newest segment lowest in the stack.  Finishing the path, dragging a
    marker and saving never break this. *)
Theorem canvas_shows_the_path (s : Session) :
  reachable s ->
  point_markers (canvas s) = linePoints s
  /\ segments (canvas s) = List.rev (consecutive (linePoints s))
  /\ length (segments (canvas s)) = Nat.pred (length (linePoints s)).
Proof.
  intros Hr.
  assert (H : drawn s).
  { induction Hr as [backdrop btn modalHidden|e s _ IH].
    - split; cbn; [apply point_markers_backdrop|apply segments_backdrop].
    - apply drawn_step. exact IH. }
  destruct H as [Hm Hs]. repeat split; [exact Hm|exact Hs|].
  rewrite Hs, length_rev. clear.
  induction (linePoints s) as [|p [|q points] IH]; try reflexivity.
  change (consecutive (p :: q :: points)) with ((p, q) :: consecutive (q :: points)).
  cbn [length Nat.pred] in *. rewrite IH. reflexivity.
Qed.

Lemma canvas_shows_the_path_witness :
  let s := step (Tap (mkTap (mkPoint 90 40) None))
             (step (Tap (mkTap (mkPoint 50 40) None))
                (step (Tap (mkTap (mkPoint 10 10) None))
                   (step (SelectTool line)
                      (initial_session 2 (mkSaveButton true "Save Site Plan" true) true)))) in
  segments (canvas s)
  = [(mkPoint 50 40, mkPoint 90 40); (mkPoint 10 10, mkPoint 50 40)].
Proof.
  intros s.
  destruct (canvas_shows_the_path s) as (_ & H & _).
  - unfold s. repeat apply reachable_step. apply reachable_initial.
  - exact H.
Defined.

(** X21.  What an event can change.  The path changes only when everything
    is cleared or when a tap with the path tool on empty space adds its
    point at the end: no event removes or moves a point, and finishing a
    path keeps its points.  The tool changes only by a tool button or by the
    finishing tap, which selects the indoor-unit tool.  The two placed flags
    change only by a tap with a unit tool or by clearing. *)
Theorem what_an_event_changes (e : Event) (s : Session) :
  (linePoints (step e s) <> linePoints s ->
   e = ClearAll
   \/ exists opt, e = Tap opt /\ target opt = None /\ currentTool s = line
                  /\ linePoints (step e s) = linePoints s ++ [pointer opt])
  /\ (currentTool (step e s) <> currentTool s ->
      (exists tool, e = SelectTool tool)
      \/ exists opt, e = Tap opt /\ target opt = None /\ currentTool s = line
                     /\ finish_gesture (x (pointer opt)) (y (pointer opt)) s = true
                     /\ currentTool (step e s) = idu)
  /\ ((iduPlaced (step e s), oduPlaced (step e s)) <> (iduPlaced s, oduPlaced s) ->
      e = ClearAll
      \/ exists opt, e = Tap opt /\ target opt = None /\ currentTool s <> line).
Proof.
  destruct e as [opt|tool| | |outcome| |index px py]; cbn [step].
  - unfold handleCanvasTap.
    destruct (target opt) eqn:Htarget; [repeat split; intros H; contradiction H; reflexivity|].
    destruct (currentTool s) eqn:Htool.
    1, 2: repeat split; intros H;
      [contradiction H; reflexivity
      |cbn in H; rewrite Htool in H; contradiction H; reflexivity
      |right; exists opt; repeat split; first [reflexivity|assumption|discriminate]].
    unfold addLinePoint.
    destruct (finish_gesture (x (pointer opt)) (y (pointer opt)) s) eqn:Hfinish.
    + unfold finishLine. destruct (length (linePoints s) <? 2)%nat.
      * repeat split; intros H; contradiction H; auto.
      * repeat split; intros H; try (contradiction H; reflexivity).
        right. exists opt. repeat split; assumption.
    + repeat split; intros H.
      * right. exists opt. repeat split; try assumption.
        destruct (pointer opt); reflexivity.
      * cbn in H. rewrite Htool in H. contradiction H; reflexivity.
      * contradiction H. reflexivity.
  - repeat split; intros H; try (contradiction H; reflexivity).
    left. exists tool. reflexivity.
  - repeat split; intros H; first [contradiction H; reflexivity|left; reflexivity].
  - unfold savePlacement_begin. destruct (disabled (saveBtn s));
      repeat split; intros H; contradiction H; reflexivity.
  - unfold savePlacement_end. destruct (upload_failure outcome);
      repeat split; intros H; contradiction H; reflexivity.
  - repeat split; intros H; contradiction H; reflexivity.
  - repeat split; intros H; contradiction H; reflexivity.
Qed.

(** ** Clearing *)

Lemma background_objects_app objs1 objs2 :
  background_objects (objs1 ++ objs2)
  = background_objects objs1 ++ background_objects objs2.
Proof. apply filter_app. Qed.

Lemma background_objects_kept label objs :
  background_objects (filter (fun obj => negb (has_unitLabel label obj)) objs)
  = background_objects objs.
Proof.
  induction objs as [|obj objs IH]; [reflexivity|].
  destruct obj as [|l px py c|px py|x1 y1 x2 y2 d];
    cbn [filter has_unitLabel negb];
    try destruct (UnitLabel_eqb l label); cbn [negb];
    unfold background_objects in *;
    cbn [filter isUnit isLinePoint isLineSegment orb negb];
    rewrite ?IH; reflexivity.
Qed.

Lemma background_objects_solid objs :
  background_objects (map solid objs) = background_objects objs.
Proof.
  induction objs as [|obj objs IH]; [reflexivity|].
  destruct obj; unfold background_objects in *;
    cbn [map solid filter isUnit isLinePoint isLineSegment orb negb];
    rewrite ?IH; reflexivity.
Qed.

Lemma background_objects_dragged index px py objs :
  background_objects (dragObject index px py objs) = background_objects objs.
Proof.
  revert index. induction objs as [|obj objs IH]; intros [|i]; try reflexivity.
  - destruct obj; reflexivity.
  - destruct obj; unfold background_objects in *;
      cbn [dragObject filter isUnit isLinePoint isLineSegment orb negb];
      rewrite ?IH; reflexivity.
Qed.

Lemma background_objects_again objs :
  background_objects (background_objects objs) = background_objects objs.
Proof.
  induction objs as [|obj objs IH]; [reflexivity|].
  destruct obj; unfold background_objects in *;
    cbn [filter isUnit isLinePoint isLineSegment orb negb];
    rewrite ?IH; reflexivity.
Qed.

Lemma background_objects_backdrop n :
  background_objects (repeat Backdrop n) = repeat Backdrop n.
Proof.
  induction n as [|n IH]; [reflexivity|].
  unfold background_objects in *.
  cbn [repeat filter isUnit isLinePoint isLineSegment orb negb].
  rewrite IH. reflexivity.
Qed.

Lemma background_step e s :
  background_objects (canvas (step e s)) = background_objects (canvas s).
Proof.
  destruct e as [opt|tool| | |outcome| |index px py]; cbn [step].
  - unfold handleCanvasTap. destruct (target opt); [reflexivity|].
    destruct (currentTool s).
    1, 2: cbn; rewrite background_objects_app, background_objects_kept; cbn;
      apply app_nil_r.
    unfold addLinePoint. destruct (finish_gesture _ _ s).
    + unfold finishLine. destruct (length (linePoints s) <? 2)%nat; [reflexivity|].
      cbn. apply background_objects_solid.
    + cbn [updateSaveButton with_saveBtn with_canvas with_linePoints canvas].
      destruct (1 <? length (linePoints s ++ [mkPoint (x (pointer opt)) (y (pointer opt))]))%nat;
        [change (background_objects (LineSegment ?a ?b ?c ?d ?e :: ?objs))
           with (background_objects objs)|];
        rewrite background_objects_app; apply app_nil_r.
  - reflexivity.
  - cbn. apply background_objects_again.
  - unfold savePlacement_begin. destruct (disabled (saveBtn s)); reflexivity.
  - unfold savePlacement_end. destruct (upload_failure outcome); reflexivity.
  - reflexivity.
  - cbn. apply background_objects_dragged.
Qed.

Lemma background_run events s :
  background_objects (canvas (run events s)) = background_objects (canvas s).
Proof.
  revert s. induction events as [|e events IH]; intros s; [reflexivity|].
  cbn [run fold_left]. fold (run events (step e s)).
  rewrite IH. apply background_step.
Qed.

(** X22.  Whatever happened since the page was loaded, the clear button
    brings the canvas back to the background it was loaded with: no marker,
    no point and no segment is left and no background object is lost.  The
    path is empty, both placed flags are off and the save button is
    disabled; the selected tool, the modal and the alerts stay as they
    were. *)
Theorem clear_restores_the_loaded_canvas
  (events : list Event) (backdrop : nat) (btn : SaveButton) (modalHidden : bool) :
  let s := run events (initial_session backdrop btn modalHidden) in
  canvas (clearAll s) = repeat Backdrop backdrop
  /\ linePoints (clearAll s) = []
  /\ iduPlaced (clearAll s) = false /\ oduPlaced (clearAll s) = false
  /\ disabled (saveBtn (clearAll s)) = true
  /\ currentTool (clearAll s) = currentTool s
  /\ successModalHidden (clearAll s) = successModalHidden s
  /\ alerts (clearAll s) = alerts s.
Proof.
  intros s. repeat split.
  change (canvas (clearAll s)) with (background_objects (canvas s)).
  unfold s. rewrite background_run. apply background_objects_backdrop.
Qed.

(** ** Saving *)

(** X23.  While an upload is in flight the save button is disabled, so a
    second click starts nothing; but a tap that places a marker recomputes
    the button from the placed flags and enables it again while it still
    reads [Saving...] and the spinner is shown. *)
Theorem marker_during_upload_enables_save (s : Session) (opt : TapEvent) :
  disabled (saveBtn s) = false ->
  target opt = None ->
  currentTool s <> line ->
  let clicked := savePlacement_begin s in
  disabled (saveBtn clicked) = true
  /\ savePlacement_begin clicked = clicked
  /\ saveBtn (handleCanvasTap opt clicked) = mkSaveButton false "Saving..." false.
Proof.
  intros Hbtn Htarget Htool clicked. unfold clicked, savePlacement_begin.
  rewrite Hbtn. cbn [with_saveBtn saveBtn disabled]. repeat split.
  unfold handleCanvasTap. rewrite Htarget. cbn [currentTool with_saveBtn].
  destruct (currentTool s);
    [reflexivity
    |unfold updateSaveButton, set_disabled; cbn; rewrite orb_true_r; reflexivity
    |contradiction Htool; reflexivity].
Qed.

Lemma marker_during_upload_enables_save_witness :
  let s := handleCanvasTap (mkTap (mkPoint 40 60) None)
             (initial_session 0 (mkSaveButton true "Save Site Plan" true) true) in
  saveBtn (handleCanvasTap (mkTap (mkPoint 80 90) None) (savePlacement_begin s))
  = mkSaveButton false "Saving..." false.
Proof.
  intros s.
  destruct (marker_during_upload_enables_save s (mkTap (mkPoint 80 90) None)
              eq_refl eq_refl) as (_ & _ & H).
  - discriminate.
  - exact H.
Defined.

(** X24.  A save attempt whose upload succeeds shows the success modal and
    leaves the button disabled and reading [Saving...]; closing the modal
    hides it again and puts the button back, enabled.  Neither step touches
    the markers, the path, the tool or the alerts. *)
Theorem successful_save_then_close (s : Session) :
  disabled (saveBtn s) = false ->
  let saved := savePlacement Uploaded s in
  let closed := closeSuccessModal saved in
  successModalHidden saved = false
  /\ saveBtn saved = mkSaveButton true "Saving..." false
  /\ annotation saved = annotation s /\ alerts saved = alerts s
  /\ successModalHidden closed = true
  /\ saveBtn closed = mkSaveButton false "Save Site Plan" true
  /\ annotation closed = annotation s /\ alerts closed = alerts s.
Proof.
  intros Hbtn saved closed. unfold closed, saved, savePlacement, savePlacement_begin.
  rewrite Hbtn. repeat split.
Qed.

Lemma successful_save_then_close_witness :
  let s := handleCanvasTap (mkTap (mkPoint 40 60) None)
             (initial_session 0 (mkSaveButton true "Save Site Plan" true) true) in
  saveBtn (closeSuccessModal (savePlacement Uploaded s))
  = mkSaveButton false "Save Site Plan" true.
Proof.
  intros s.
  destruct (successful_save_then_close s eq_refl) as (_ & _ & _ & _ & _ & H & _).
  exact H.
Defined.

End SessionExtras.
